(** * qpycr: relative quantification of qPCR data

    A shallow embedding of [src/qpycr.py]: the three functions
    [calculate_avg_cqs], [calculate_d_cqs] and [calculate_dd_cqs], together
    with the part of pandas and NumPy they call (group-by with an aggregation,
    [drop_duplicates], left [merge], [isin], [np.where], element-wise float
    arithmetic).

    Conventions of the model.
    - A [float64] is a value of the Standard Library's [spec_float] at
      precision 53 and maximal exponent 1024 (IEEE 754 binary64, one NaN).
    - A data frame is a list of rows in index order, with the list of its
      column labels.  The identifier columns hold [str] values; missing
      identifiers are outside the model.
    - A call either returns a value or raises: [result].
    - [np.NaN] is the NaN of NumPy 1.x, for which the module was written.
    - The aggregations of a group-by are the quantities pandas documents;
      what is said of their values is said up to binary64 rounding, as a
      bound on a distance between real numbers. *)

From Stdlib Require Import Reals Lra.
From Stdlib Require Import List String ZArith Bool Arith Lia Permutation.
From Corelib Require Import SpecFloat.
Import ListNotations.

Set Implicit Arguments.

(* ------------------------------------------------------------------ *)
(** ** IEEE 754 binary64 *)

Module F64.

Definition prec : Z := 53.
Definition emax : Z := 1024.

Definition float : Type := spec_float.

Definition nan : float := S754_nan.
Definition zero : float := S754_zero false.

Definition add : float -> float -> float := SFadd prec emax.
Definition sub : float -> float -> float := SFsub prec emax.
Definition mul : float -> float -> float := SFmul prec emax.
Definition div : float -> float -> float := SFdiv prec emax.
Definition sqrt : float -> float := SFsqrt prec emax.
Definition opp : float -> float := SFopp.

(** Conversion of an integer, rounded to nearest even. *)
Definition of_Z (z : Z) : float := binary_normalize prec emax z 0 false.
Definition of_nat (n : nat) : float := of_Z (Z.of_nat n).

Definition one : float := of_Z 1.
Definition two : float := of_Z 2.
Definition half : float := SFldexp prec emax one (-1).

(** [x != x] *)
Definition isnan (x : float) : bool :=
  match x with S754_nan => true | _ => false end.

(** Neither NaN nor an infinity. *)
Definition is_finite (x : float) : bool :=
  match x with
  | S754_zero _ | S754_finite _ _ _ => true
  | S754_infinity _ | S754_nan => false
  end.

(** [x == 0.0], which holds of both zeros. *)
Definition is_zero (x : float) : bool :=
  match x with S754_zero _ => true | _ => false end.

(** The integer a finite float denotes, when it denotes one. *)
Definition to_Z (x : float) : option Z :=
  match x with
  | S754_zero _ => Some 0%Z
  | S754_finite s m e =>
      let v := cond_Zopp s (Zpos m) in
      match e with
      | Z0 => Some v
      | Zpos p => Some (v * Z.pow_pos 2 p)%Z
      | Zneg p =>
          if (Zpos m mod Z.pow_pos 2 p =? 0)%Z
          then Some (v / Z.pow_pos 2 p)%Z else None
      end
  | _ => None
  end.

End F64.

Abbreviation float := F64.float.

(* ------------------------------------------------------------------ *)
(** ** Python values, exceptions and results *)

Inductive exn : Type :=
| TypeError (msg : string)
| KeyError (key : string)
| NameError (name : string).

Inductive result (A : Type) : Type :=
| Ok (a : A)
| Raise (e : exn).

Arguments Ok {A} a.
Arguments Raise {A} e.

Definition bind {A B : Type} (r : result A) (k : A -> result B) : result B :=
  match r with
  | Ok a => k a
  | Raise e => Raise e
  end.

Notation "x <- r ;; k" := (bind r (fun x => k))
  (at level 61, r at next level, right associativity).
Notation "r ;;; k" := (bind r (fun _ => k))
  (at level 61, right associativity).

(** The errors of the argument checks. *)
Definition cqs_type_error : exn :=
  TypeError "The argument passed to `cqs` must be a `pd.DataFrame`".
Definition internal_controls_type_error : exn :=
  TypeError "The argument passed to `internal_controls` must be a `list`".
Definition calibrator_type_error : exn :=
  TypeError "The argument passed to `calibrator` must be a `str`".

(** One row of the raw table: the three columns the module reads. *)
Record Reading : Type := mkReading {
  sample : string;
  target : string;
  cq : float
}.

(** A [pd.DataFrame]: its column labels and its rows.  A frame that lacks
    one of the three columns has the label absent from [columns]; looking
    the column up raises before the field is read. *)
Record DataFrame : Type := mkDataFrame {
  columns : list string;
  rows : list Reading
}.

(** The argument values the three functions are called with.  Lists and
    tuples hold identifiers. *)
Inductive pyval : Type :=
| PyDataFrame (df : DataFrame)
| PyList (items : list string)
| PyTuple (items : list string)
| PyStr (s : string)
| PyInt (n : Z)
| PyNone.

(** [isinstance(v, pd.DataFrame)], [isinstance(v, list)] and
    [isinstance(v, str)]. *)
Definition is_dataframe (v : pyval) : bool :=
  match v with PyDataFrame _ => true | _ => false end.
Definition is_list (v : pyval) : bool :=
  match v with PyList _ => true | _ => false end.
Definition is_str (v : pyval) : bool :=
  match v with PyStr _ => true | _ => false end.

(** [df[label]]: a label that is not a column raises [KeyError]. *)
Definition column_lookup (label : string) (df : DataFrame) : result unit :=
  if existsb (String.eqb label) (columns df) then Ok tt
  else Raise (KeyError label).

(** A frame with the three required columns. *)
Definition readings (rs : list Reading) : DataFrame :=
  mkDataFrame ["sample"; "target"; "cq"]%string rs.

Definition has_required_columns (df : DataFrame) : bool :=
  existsb (String.eqb "sample") (columns df)
  && existsb (String.eqb "target") (columns df)
  && existsb (String.eqb "cq") (columns df).

(* ------------------------------------------------------------------ *)
(** ** The pandas operations *)

Section Pandas.

Variables K : Type.
Variable eqb : K -> K -> bool.

(** [drop_duplicates()]: keeps the first occurrence of every value, in
    row order.  [seen] holds the values met so far. *)
Fixpoint drop_duplicates_from (seen : list K) (l : list K) : list K :=
  match l with
  | [] => []
  | x :: t =>
      if existsb (eqb x) seen then drop_duplicates_from seen t
      else x :: drop_duplicates_from (x :: seen) t
  end.

Definition drop_duplicates (l : list K) : list K :=
  drop_duplicates_from [] l.

(** Group keys are sorted ([groupby] has [sort=True] by default). *)
Variable leb : K -> K -> bool.

Fixpoint insert_sorted (x : K) (l : list K) : list K :=
  match l with
  | [] => [x]
  | y :: t => if leb x y then x :: l else y :: insert_sorted x t
  end.

Fixpoint sort_keys (l : list K) : list K :=
  match l with
  | [] => []
  | x :: t => insert_sorted x (sort_keys t)
  end.

(** The keys of [groupby(by=...)]: the distinct key values, sorted. *)
Definition group_keys (l : list K) : list K :=
  sort_keys (drop_duplicates l).

End Pandas.

(** [left.merge(right, how="left", on=...)]: every left row, in order,
    joined with each right row carrying the same key, in right order; a
    left row with no match is kept once, the right columns missing. *)
Definition merge_left {L R O : Type} (same_key : L -> R -> bool)
    (join : L -> option R -> O) (left : list L) (right : list R) : list O :=
  flat_map
    (fun l =>
       match filter (same_key l) right with
       | [] => [join l None]
       | ms => map (fun r => join l (Some r)) ms
       end)
    left.

(** [Series.isin(values)] on one element. *)
Definition isin (x : string) (values : list string) : bool :=
  existsb (String.eqb x) values.

(** *** Group aggregations

    The aggregations named "mean" and "std" are [GroupBy.mean] ("compute
    mean of groups, excluding missing values") and [GroupBy.std] ("compute
    standard deviation of groups, excluding missing values", [ddof = 1]):
    the NaN entries of a group are skipped, and a group left with no entry
    (for [std], with at most [ddof] entries) aggregates to NaN.  The
    reductions are written in their textbook order.  pandas computes the
    same quantities with a compensated sum and a one-pass update of the
    variance, so its last digits can differ from the ones below; the
    properties of the values of mean and std are bounds that hold of both
    orders of operations. *)

Definition notna (xs : list float) : list float :=
  filter (fun x => negb (F64.isnan x)) xs.

Definition fsum (xs : list float) : float :=
  fold_left F64.add xs F64.zero.

Definition square (x : float) : float := F64.mul x x.

Definition groupby_mean (xs : list float) : float :=
  match notna xs with
  | [] => F64.nan
  | ys => F64.div (fsum ys) (F64.of_nat (List.length ys))
  end.

Definition groupby_var (ddof : nat) (xs : list float) : float :=
  let ys := notna xs in
  if List.length ys <=? ddof then F64.nan
  else
    let m := F64.div (fsum ys) (F64.of_nat (List.length ys)) in
    F64.div (fsum (map (fun y => square (F64.sub y m)) ys))
            (F64.of_nat (List.length ys - ddof)).

Definition groupby_std (xs : list float) : float :=
  F64.sqrt (groupby_var 1 xs).

(* ------------------------------------------------------------------ *)
(** ** The tables of the three stages *)

(** A row of [calculate_avg_cqs]: columns sample, target, mean, std. *)
Record AvgRow : Type := mkAvgRow {
  a_sample : string;
  a_target : string;
  mean : float;
  std : float
}.

(** A row of [calculate_d_cqs]: the stage-1 columns, mean_ic and d_cq. *)
Record DeltaRow : Type := mkDeltaRow {
  d_avg :> AvgRow;
  mean_ic : float;
  d_cq : float
}.

(** A row of [calculate_dd_cqs]: the stage-2 columns, d_cq_ic, dd_cq, fc. *)
Record DeltaDeltaRow : Type := mkDeltaDeltaRow {
  dd_delta :> DeltaRow;
  d_cq_ic : float;
  dd_cq : float;
  fc : float
}.

(** The (sample, target) key of a raw row, compared column by column;
    tuples of strings are ordered lexicographically. *)
Definition key_of (r : Reading) : string * string := (sample r, target r).

Definition pair_eqb (a b : string * string) : bool :=
  (fst a =? fst b)%string && (snd a =? snd b)%string.

Definition pair_leb (a b : string * string) : bool :=
  if (fst a =? fst b)%string then String.leb (snd a) (snd b)
  else String.leb (fst a) (fst b).

(** The cq values of the rows of one (sample, target) pair, in row order. *)
Definition replicates (k : string * string) (rs : list Reading) : list float :=
  map cq (filter (fun r => pair_eqb (key_of r) k) rs).

(* ------------------------------------------------------------------ *)
(** ** calculate_avg_cqs *)

(** The aggregated row of the group of one pair: its key, then the mean
    and the std of its cq values. *)
Definition aggregate_group (rs : list Reading) (k : string * string) : AvgRow :=
  mkAvgRow (fst k) (snd k)
           (groupby_mean (replicates k rs))
           (groupby_std (replicates k rs)).

(** [cqs.groupby(by=["sample", "target"]).agg(func={"cq": ["mean", "std"]})
        .droplevel(level=0, axis=1).reset_index()]: one row per group, the
    groups in the sorted order of their keys. *)
Definition groupby_sample_target (rs : list Reading) : list AvgRow :=
  map (aggregate_group rs) (group_keys pair_eqb pair_leb (map key_of rs)).

(** [cqs[["sample", "target"]].drop_duplicates().reset_index(drop=True)
        .merge(right=avg_cqs, how="left", on=["sample", "target"])] *)
Definition merge_on_sample_target (pairs : list (string * string))
    (avg_cqs : list AvgRow) : list AvgRow :=
  merge_left
    (fun k r => pair_eqb k (a_sample r, a_target r))
    (fun k m =>
       match m with
       | Some r => mkAvgRow (fst k) (snd k) (mean r) (std r)
       | None => mkAvgRow (fst k) (snd k) F64.nan F64.nan
       end)
    pairs avg_cqs.

Definition calculate_avg_cqs (cqs : pyval) : result (list AvgRow) :=
  match cqs with
  | PyDataFrame df =>
      column_lookup "sample" df ;;;
      column_lookup "target" df ;;;
      column_lookup "cq" df ;;;
      let avg_cqs := groupby_sample_target (rows df) in
      Ok (merge_on_sample_target
            (drop_duplicates pair_eqb (map key_of (rows df))) avg_cqs)
  | _ =>
      Raise cqs_type_error
  end.

(* ------------------------------------------------------------------ *)
(** ** calculate_d_cqs *)

(** [avg_cqs[avg_cqs["target"].isin(internal_controls)]
        .groupby(by=["sample"]).agg(func={"mean": "mean"})
        .rename(mapper={"mean": "mean_ic"}, axis=1)] *)
Definition groupby_sample_ic (internal_controls : list string)
    (avg_cqs : list AvgRow) : list (string * float) :=
  let ic_rows :=
    filter (fun r => isin (a_target r) internal_controls) avg_cqs in
  map (fun s =>
         (s, groupby_mean
               (map mean (filter (fun r => (a_sample r =? s)%string) ic_rows))))
      (group_keys String.eqb String.leb (map a_sample ic_rows)).

(** [avg_cqs.merge(right=avg_ic_cqs, how="left", on="sample")] *)
Definition merge_on_sample (avg_cqs : list AvgRow)
    (avg_ic_cqs : list (string * float)) : list (AvgRow * float) :=
  merge_left
    (fun r g => (a_sample r =? fst g)%string)
    (fun r m => (r, match m with Some g => snd g | None => F64.nan end))
    avg_cqs avg_ic_cqs.

(** [np.where(~avg_cqs["target"].isin(internal_controls),
              avg_cqs["mean"] - avg_cqs["mean_ic"], np.NaN)] on one row. *)
Definition delta_cq (internal_controls : list string) (rm : AvgRow * float)
    : DeltaRow :=
  let (r, m_ic) := rm in
  mkDeltaRow r m_ic
    (if negb (isin (a_target r) internal_controls)
     then F64.sub (mean r) m_ic
     else F64.nan).

Definition calculate_d_cqs (cqs internal_controls : pyval)
    : result (list DeltaRow) :=
  match cqs with
  | PyDataFrame _ =>
      match internal_controls with
      | PyList ics =>
          avg_cqs <- calculate_avg_cqs cqs ;;
          let avg_ic_cqs := groupby_sample_ic ics avg_cqs in
          Ok (map (delta_cq ics) (merge_on_sample avg_cqs avg_ic_cqs))
      | _ =>
          Raise internal_controls_type_error
      end
  | _ =>
      Raise cqs_type_error
  end.

(* ------------------------------------------------------------------ *)
(** ** calculate_dd_cqs *)

(** What a global name has to be bound to for [q.calculate_d_cqs(...)] to be
    a call: an object with that attribute. *)
Record Namespace : Type := mkNamespace {
  ns_calculate_d_cqs : pyval -> pyval -> result (list DeltaRow)
}.

(** The module itself, as [import qpycr as q] binds it. *)
Definition qpycr : Namespace := mkNamespace calculate_d_cqs.

Section DeltaDelta.

(** [x ** y] on float64, the platform's [pow]. *)
Variable pow : float -> float -> float.

(** The rows of the calibrator sample on targets of interest, projected
    on target and d_cq (renamed d_cq_ic). *)
Definition calibrator_d_cqs (internal_controls : list string)
    (calibrator : string) (dd_cqs : list DeltaRow) : list (string * float) :=
  map (fun r : DeltaRow => (a_target r, d_cq r))
      (filter (fun r : DeltaRow =>
                 (a_sample r =? calibrator)%string
                 && negb (isin (a_target r) internal_controls))
              dd_cqs).

(** [dd_cqs.merge(right=d_cqs_ic, how="left", on="target")] *)
Definition merge_on_target (dd_cqs : list DeltaRow)
    (d_cqs_ic : list (string * float)) : list (DeltaRow * float) :=
  merge_left
    (fun (r : DeltaRow) g => (a_target r =? fst g)%string)
    (fun r m => (r, match m with Some g => snd g | None => F64.nan end))
    dd_cqs d_cqs_ic.

(** The two column assignments, on one row. *)
Definition fold_change (rc : DeltaRow * float) : DeltaDeltaRow :=
  let (r, c) := rc in
  let dd := F64.sub (d_cq r) c in
  mkDeltaDeltaRow r c dd (pow F64.two (F64.opp dd)).

(** [q] is what the global name [q] is bound to when the function runs. *)
Definition calculate_dd_cqs_with (q : option Namespace)
    (cqs internal_controls calibrator : pyval)
    : result (list DeltaDeltaRow) :=
  match cqs with
  | PyDataFrame _ =>
      match internal_controls with
      | PyList ics =>
          match calibrator with
          | PyStr cal =>
              match q with
              | None => Raise (NameError "q")
              | Some m =>
                  dd_cqs <- ns_calculate_d_cqs m cqs internal_controls ;;
                  let d_cqs_ic := calibrator_d_cqs ics cal dd_cqs in
                  Ok (map fold_change (merge_on_target dd_cqs d_cqs_ic))
              end
          | _ =>
              Raise calibrator_type_error
          end
      | _ =>
          Raise internal_controls_type_error
      end
  | _ =>
      Raise cqs_type_error
  end.

(** The module binds [np], [pd] and its three functions, and never [q]. *)
Definition calculate_dd_cqs : pyval -> pyval -> pyval
    -> result (list DeltaDeltaRow) :=
  calculate_dd_cqs_with None.

End DeltaDelta.

(* ------------------------------------------------------------------ *)
(** ** Notions the properties are stated with *)

Section FirstOccurrence.

Variable K : Type.
Variable eqb : K -> K -> bool.

(** Position of the first occurrence of [x] in [l] ([length l] if none). *)
Fixpoint first_index (x : K) (l : list K) : nat :=
  match l with
  | [] => 0
  | y :: t => if eqb y x then 0 else S (first_index x t)
  end.

(** Every element of [ks] is related to all the elements after it. *)
Fixpoint ordered_by (R : K -> K -> Prop) (ks : list K) : Prop :=
  match ks with
  | [] => True
  | a :: t => Forall (R a) t /\ ordered_by R t
  end.

(** [ks] lists its elements in the order of their first occurrence in
    [l]. *)
Definition in_first_occurrence_order (l ks : list K) : Prop :=
  forall i j a b,
    nth_error ks i = Some a -> nth_error ks j = Some b -> i < j ->
    first_index a l < first_index b l.

End FirstOccurrence.

(** The (sample, target) pairs of a table of each stage. *)
Definition avg_key (r : AvgRow) : string * string := (a_sample r, a_target r).

(** The stage-1 rows of the internal controls of one sample. *)
Definition control_rows (internal_controls : list string) (s : string)
    (avg_cqs : list AvgRow) : list AvgRow :=
  filter (fun r => (a_sample r =? s)%string)
         (filter (fun r => isin (a_target r) internal_controls) avg_cqs).

(** The d_cq_ic the merge on target gives a stage-2 row when the
    calibrator rows carry pairwise distinct targets. *)
Definition baseline_of (internal_controls : list string) (calibrator : string)
    (d_cqs : list DeltaRow) (r : DeltaRow) : float :=
  match find (fun g => (a_target r =? fst g)%string)
             (calibrator_d_cqs internal_controls calibrator d_cqs) with
  | Some g => snd g
  | None => F64.nan
  end.

(** The arithmetic mean and the sample standard deviation (denominator
    n - 1, NaN below two values) of a list of floats, every value taking
    part in the sums. *)
Definition arithmetic_mean (xs : list float) : float :=
  F64.div (fsum xs) (F64.of_nat (List.length xs)).

Definition sample_std (xs : list float) : float :=
  if List.length xs <? 2 then F64.nan
  else
    F64.sqrt
      (F64.div
         (fsum (map (fun x => square (F64.sub x (arithmetic_mean xs))) xs))
         (F64.of_nat (List.length xs - 1))).

(** The facts about [pow] the properties of the fold change rest on: the
    special values of C's Annex F at base 2, and two exact powers. *)
Record pow_base_two (pow : float -> float -> float) : Prop := mkPowBaseTwo {
  pow_two_zero : forall s, pow F64.two (S754_zero s) = F64.one;
  pow_two_nan : pow F64.two F64.nan = F64.nan;
  pow_two_one : pow F64.two F64.one = F64.two;
  pow_two_minus_one : pow F64.two (F64.opp F64.one) = F64.half
}.

(** A power function that is exact where the result is a power of two or
    fixed by Annex F, and NaN elsewhere; it instantiates [pow] in the
    examples. *)
Definition pow_exact (x y : float) : float :=
  match y with
  | S754_zero _ => F64.one
  | S754_nan => if SFeqb x F64.one then F64.one else F64.nan
  | _ =>
      if SFeqb x F64.two then
        match F64.to_Z y with
        | Some n => SFldexp F64.prec F64.emax F64.one n
        | None => F64.nan
        end
      else F64.nan
  end.

Definition num (z : Z) : float := F64.of_Z z.

(** A finite number of moderate size: exponent field at most 400, hence a
    magnitude below 2^453.  Sums and sums of squares of fewer than 2^53 such
    numbers stay far from overflow, whatever the order of the operations. *)
Definition is_moderate (x : float) : bool :=
  match x with
  | S754_zero _ => true
  | S754_finite _ _ e => (e <=? 400)%Z
  | _ => false
  end.

(** The first of the two group-by keys that a frame does not have. *)
Definition first_missing_key (df : DataFrame) : option string :=
  find (fun c => negb (existsb (String.eqb c) (columns df)))
       ["sample"; "target"]%string.

(** Zero, a positive finite number or plus infinity. *)
Definition is_nonneg (x : float) : bool :=
  match x with
  | S754_zero _ | S754_finite false _ _ | S754_infinity false => true
  | _ => false
  end.

(** The first of the three column labels, in the order the code looks them
    up, that a frame does not have. *)
Definition first_missing_column (df : DataFrame) : option string :=
  find (fun c => negb (existsb (String.eqb c) (columns df)))
       ["sample"; "target"; "cq"]%string.

(* ------------------------------------------------------------------ *)
(** ** Floats as real numbers

    The values of mean, std and mean_ic are stated up to rounding: pandas
    fixes the quantity an aggregation computes, not the order of the
    binary64 operations inside it.  The notions below give a float its real
    value and name the quantities the aggregations approximate. *)

(** 2^e *)
Definition bpow (e : Z) : R := powerRZ 2 e.

Arguments bpow : simpl never.

Definition sign_of (s : bool) : R := if s then (-1)%R else 1%R.

(** The real number a finite float denotes (0 is written for the other
    floats, which the statements exclude). *)
Definition F2R (x : float) : R :=
  match x with
  | S754_finite s m e => (sign_of s * (IZR (Zpos m) * bpow e))%R
  | _ => 0%R
  end.

(** A zero or a finite number whose exponent field is at most [E]. *)
Definition exp_le (E : Z) (x : float) : Prop :=
  match x with
  | S754_zero _ => True
  | S754_finite _ _ e => (e <= E)%Z
  | _ => False
  end.

(** Zero or a finite number of magnitude below 2^V. *)
Definition magnitude_below (V : Z) (x : float) : bool :=
  match x with
  | S754_zero _ => true
  | S754_finite _ m e => (Zpos (digits2_pos m) + e <=? V)%Z
  | _ => false
  end.

(** The arithmetic mean and the sample variance (denominator n - 1) of the
    real values of a list of floats. *)
Definition Rsum (xs : list R) : R := fold_right Rplus 0%R xs.

Definition real_mean (xs : list float) : R :=
  (Rsum (map F2R xs) / INR (List.length xs))%R.

Definition real_variance (xs : list float) : R :=
  (Rsum (map (fun x => (F2R x - real_mean xs) * (F2R x - real_mean xs)) xs)
   / INR (List.length xs - 1))%R.

(** The bounds on the error of one operation, relative and absolute, that
    the rounding lemmas establish. *)
Definition rel_err : R := bpow (-51).
Definition abs_err : R := bpow (-1073).

(** The position of a real number [t] of [0, 1) with respect to 1/2, as the
    round and sticky bits of a shifted mantissa record it. *)
Definition frac_loc (t : R) (r s : bool) : Prop :=
  match r, s with
  | false, false => t = 0%R
  | false, true => (0 < t < / 2)%R
  | true, false => t = (/ 2)%R
  | true, true => (/ 2 < t < 1)%R
  end.

Definition loc_frac (t : R) (l : location) : Prop :=
  frac_loc t (shr_r (shr_record_of_loc 0 l)) (shr_s (shr_record_of_loc 0 l)).

(** [z] lies between the mantissa of [mrs] and its successor, where the
    bits of [mrs] say. *)
Definition located (z : R) (mrs : shr_record) : Prop :=
  (0 <= shr_m mrs)%Z /\
  exists t, frac_loc t (shr_r mrs) (shr_s mrs) /\ z = (IZR (shr_m mrs) + t)%R.

(** [x] lies in the slot of [mrs] at exponent [e]. *)
Definition located_at (x : R) (e : Z) (mrs : shr_record) : Prop :=
  located (x * bpow (- e))%R mrs.

(** What [binary_round_aux] builds from its last mantissa and exponent. *)
Definition round_result (sx : bool) (m e : Z) : float :=
  match m with
  | Z0 => S754_zero sx
  | Zpos p => if (e <=? 971)%Z then S754_finite sx p e else S754_infinity sx
  | Zneg _ => S754_nan
  end.

(* ------------------------------------------------------------------ *)
(** ** Example tables *)

(** Replicates of three pairs, interleaved, the pairs not in sorted order. *)
Definition shuffled : DataFrame :=
  readings
    [ mkReading "S2" "GeneX" (num 25); mkReading "S1" "GeneX" (num 24);
      mkReading "S2" "GeneX" (num 26); mkReading "S1" "Actin" (num 20);
      mkReading "S1" "GeneX" (num 23); mkReading "S1" "Actin" (num 21) ].

(** The worked scenario: duplicate readings of two targets in a sample and
    in the calibrator. *)
Definition worked : DataFrame :=
  readings
    [ mkReading "S1" "Actin" (num 20); mkReading "S1" "Actin" (num 20);
      mkReading "S1" "GeneX" (num 25); mkReading "S1" "GeneX" (num 25);
      mkReading "Cal" "Actin" (num 19); mkReading "Cal" "Actin" (num 19);
      mkReading "Cal" "GeneX" (num 24); mkReading "Cal" "GeneX" (num 24) ].

(** A target of interest whose only reaction failed, beside a measured
    internal control. *)
Definition failed_target : DataFrame :=
  readings
    [ mkReading "S1" "Actin" (num 20); mkReading "S1" "GeneX" F64.nan ].

(** One failed replicate beside a valid one. *)
Definition failed_replicate : DataFrame :=
  readings
    [ mkReading "S1" "T1" (num 20); mkReading "S1" "T1" F64.nan ].

(** Two valid replicates and a failed one. *)
Definition two_valid_one_failed : DataFrame :=
  readings
    [ mkReading "S1" "T1" (num 20); mkReading "S1" "T1" (num 22);
      mkReading "S1" "T1" F64.nan ].

(** Two internal controls with one and three replicates. *)
Definition uneven_controls : DataFrame :=
  readings
    [ mkReading "S1" "Actin" (num 10); mkReading "S1" "Gapdh" (num 20);
      mkReading "S1" "Gapdh" (num 20); mkReading "S1" "Gapdh" (num 20);
      mkReading "S1" "GeneX" (num 25) ].

(** A calibrator measured on a target of interest only. *)
Definition calibrator_without_control : DataFrame :=
  readings [ mkReading "Cal" "GeneX" (num 24) ].

(** Two internal controls, the only reaction of one of them failed. *)
Definition failed_control : DataFrame :=
  readings
    [ mkReading "S1" "Actin" F64.nan; mkReading "S1" "Gapdh" (num 20);
      mkReading "S1" "GeneX" (num 25) ].

(** Two samples and a calibrator, one reading per pair: the target of
    interest is one cycle earlier than in the calibrator in S1 and one cycle
    later in S2. *)
Definition fold_changes : DataFrame :=
  readings
    [ mkReading "S1" "Actin" (num 20); mkReading "S1" "GeneX" (num 24);
      mkReading "S2" "Actin" (num 20); mkReading "S2" "GeneX" (num 26);
      mkReading "Cal" "Actin" (num 19); mkReading "Cal" "GeneX" (num 24) ].

(** A frame without the sample column. *)
Definition no_sample_column : DataFrame :=
  mkDataFrame ["target"; "cq"]%string [].

(* ------------------------------------------------------------------ *)
(** * Properties *)

(** ** Lists with a decidable key *)

Section ListFacts.

Variable K : Type.
Variable eqb : K -> K -> bool.
Hypothesis eqb_eq : forall a b, eqb a b = true <-> a = b.

Lemma existsb_eqb_In (x : K) (l : list K) :
  existsb (eqb x) l = true <-> In x l.
Proof.
  rewrite existsb_exists. split.
  - intros [y [Hy Hxy]]. apply eqb_eq in Hxy. now subst.
  - intros H. exists x. split; [assumption | now apply eqb_eq].
Qed.

Lemma existsb_eqb_not_In (x : K) (l : list K) :
  existsb (eqb x) l = false <-> ~ In x l.
Proof.
  rewrite <- existsb_eqb_In. destruct (existsb (eqb x) l); intuition congruence.
Qed.

Lemma eqb_refl (x : K) : eqb x x = true.
Proof. now apply eqb_eq. Qed.

Lemma eqb_neq (x y : K) : eqb x y = false <-> x <> y.
Proof.
  rewrite <- eqb_eq. destruct (eqb x y); intuition congruence.
Qed.

(** *** drop_duplicates *)

Lemma drop_duplicates_from_In (l seen : list K) (x : K) :
  In x (drop_duplicates_from eqb seen l) <-> In x l /\ ~ In x seen.
Proof.
  revert seen. induction l as [|y t IH]; intros seen; simpl.
  - tauto.
  - destruct (existsb (eqb y) seen) eqn:E.
    + apply existsb_eqb_In in E. rewrite IH.
      split; [tauto|]. intros [[->|H] Hn]; tauto.
    + apply existsb_eqb_not_In in E. simpl. rewrite IH. simpl.
      split.
      * intros [->|[H Hn]]; tauto.
      * intros [[->|H] Hn]; [tauto|].
        destruct (eqb y x) eqn:Eyx.
        -- apply eqb_eq in Eyx. tauto.
        -- apply eqb_neq in Eyx. tauto.
Qed.

Lemma drop_duplicates_from_NoDup (l seen : list K) :
  NoDup (drop_duplicates_from eqb seen l).
Proof.
  revert seen. induction l as [|y t IH]; intros seen; simpl.
  - constructor.
  - destruct (existsb (eqb y) seen); [apply IH|].
    constructor; [|apply IH].
    rewrite drop_duplicates_from_In. simpl. tauto.
Qed.

Lemma drop_duplicates_In (l : list K) (x : K) :
  In x (drop_duplicates eqb l) <-> In x l.
Proof.
  unfold drop_duplicates. rewrite drop_duplicates_from_In. simpl. tauto.
Qed.

Lemma drop_duplicates_NoDup (l : list K) : NoDup (drop_duplicates eqb l).
Proof. apply drop_duplicates_from_NoDup. Qed.

(** *** First-occurrence order *)

Lemma first_index_app_not_In (x : K) (pre l : list K) :
  ~ In x pre ->
  first_index eqb x (pre ++ l) = List.length pre + first_index eqb x l.
Proof.
  induction pre as [|y pre IH]; simpl; intros Hn; [reflexivity|].
  destruct (eqb y x) eqn:E.
  - apply eqb_eq in E. tauto.
  - rewrite IH by tauto. reflexivity.
Qed.

Lemma first_index_head (x : K) (l : list K) : first_index eqb x (x :: l) = 0.
Proof. simpl. now rewrite eqb_refl. Qed.

Lemma first_index_tail (x y : K) (l : list K) :
  x <> y -> first_index eqb y (x :: l) = S (first_index eqb y l).
Proof.
  intros H. simpl. apply eqb_neq in H. now rewrite H.
Qed.

Lemma ordered_by_nth (R : K -> K -> Prop) (ks : list K) :
  ordered_by R ks ->
  forall i j a b,
    nth_error ks i = Some a -> nth_error ks j = Some b -> i < j -> R a b.
Proof.
  induction ks as [|k t IH]; intros Hs i j a b Hi Hj Hlt.
  - destruct i; discriminate.
  - destruct Hs as [Hall Hs]. destruct j as [|j]; [lia|].
    simpl in Hj. destruct i as [|i]; simpl in Hi.
    + injection Hi as <-. rewrite Forall_forall in Hall.
      apply Hall. eapply nth_error_In; eassumption.
    + eapply IH; try eassumption. lia.
Qed.

Lemma drop_duplicates_from_ordered (l pre seen : list K) :
  (forall x, In x seen <-> In x pre) ->
  ordered_by
    (fun a b => first_index eqb a (pre ++ l) < first_index eqb b (pre ++ l))
    (drop_duplicates_from eqb seen l).
Proof.
  revert pre seen. induction l as [|y t IH]; intros pre seen Hseen; simpl.
  - exact I.
  - assert (Happ : pre ++ y :: t = (pre ++ [y]) ++ t)
      by (rewrite <- app_assoc; reflexivity).
    destruct (existsb (eqb y) seen) eqn:E.
    + apply existsb_eqb_In in E. rewrite Happ. apply IH.
      intros x. rewrite in_app_iff, Hseen. simpl.
      split; [tauto|]. intros [H|[<-|[]]]; [assumption|]. now apply Hseen.
    + apply existsb_eqb_not_In in E. split.
      * apply Forall_forall. intros z Hz.
        apply drop_duplicates_from_In in Hz. destruct Hz as [Hzt Hzn].
        simpl in Hzn.
        assert (Hy : ~ In y pre) by (rewrite <- Hseen; assumption).
        assert (Hzpre : ~ In z pre) by (rewrite <- Hseen; tauto).
        assert (Hyz : y <> z) by tauto.
        rewrite !first_index_app_not_In by assumption.
        rewrite first_index_head, (first_index_tail _ Hyz). lia.
      * rewrite Happ. apply IH.
        intros x. rewrite in_app_iff. simpl. rewrite Hseen. tauto.
Qed.

Lemma drop_duplicates_first_occurrence_order (l : list K) :
  in_first_occurrence_order eqb l (drop_duplicates eqb l).
Proof.
  unfold in_first_occurrence_order. intros i j a b Hi Hj Hlt.
  pose proof (@drop_duplicates_from_ordered l [] [] (fun x => iff_refl _)) as H.
  simpl in H. exact (@ordered_by_nth _ _ H i j a b Hi Hj Hlt).
Qed.

(** *** Sorted group keys *)

Variable leb : K -> K -> bool.

Lemma insert_sorted_perm (x : K) (l : list K) :
  Permutation (insert_sorted leb x l) (x :: l).
Proof.
  induction l as [|y t IH]; simpl.
  - apply Permutation_refl.
  - destruct (leb x y).
    + apply Permutation_refl.
    + eapply perm_trans; [apply perm_skip, IH | apply perm_swap].
Qed.

Lemma sort_keys_perm (l : list K) : Permutation (sort_keys leb l) l.
Proof.
  induction l as [|x t IH]; simpl.
  - apply perm_nil.
  - eapply perm_trans; [apply insert_sorted_perm | apply perm_skip, IH].
Qed.

Lemma group_keys_In (l : list K) (x : K) :
  In x (group_keys eqb leb l) <-> In x l.
Proof.
  unfold group_keys. split; intros H.
  - apply drop_duplicates_In.
    eapply Permutation_in; [apply sort_keys_perm | exact H].
  - eapply Permutation_in; [apply Permutation_sym, sort_keys_perm |].
    now apply drop_duplicates_In.
Qed.

Lemma group_keys_NoDup (l : list K) : NoDup (group_keys eqb leb l).
Proof.
  unfold group_keys.
  eapply Permutation_NoDup;
    [apply Permutation_sym, sort_keys_perm | apply drop_duplicates_NoDup].
Qed.

End ListFacts.

(** *** Selecting the rows of one key *)

Section KeyedRows.

Variables (K X : Type).
Variable eqb : K -> K -> bool.
Hypothesis eqb_eq : forall a b, eqb a b = true <-> a = b.
Variable key : X -> K.

Lemma filter_key_none (k : K) (l : list X) :
  ~ In k (map key l) -> filter (fun y => eqb k (key y)) l = [].
Proof.
  induction l as [|y t IH]; simpl; intros Hn; [reflexivity|].
  destruct (eqb k (key y)) eqn:E.
  - apply eqb_eq in E. exfalso. apply Hn. left. now symmetry.
  - apply IH. tauto.
Qed.

Lemma filter_key_unique (x : X) (l : list X) :
  NoDup (map key l) -> In x l ->
  filter (fun y => eqb (key x) (key y)) l = [x].
Proof.
  induction l as [|y t IH]; simpl; intros Hnd Hin; [contradiction|].
  inversion Hnd as [|? ? Hy Hnd']; subst.
  destruct Hin as [->|Hin].
  - rewrite (proj2 (eqb_eq _ _) eq_refl). f_equal.
    now apply filter_key_none.
  - destruct (eqb (key x) (key y)) eqn:E.
    + apply eqb_eq in E. exfalso. apply Hy. rewrite <- E. now apply in_map.
    + now apply IH.
Qed.

End KeyedRows.

(* ------------------------------------------------------------------ *)
(** ** Left merges against a table with one row per key *)

Lemma pair_eqb_eq (a b : string * string) : pair_eqb a b = true <-> a = b.
Proof.
  destruct a as [a1 a2], b as [b1 b2]. unfold pair_eqb. simpl.
  rewrite andb_true_iff, !String.eqb_eq. split.
  - intros [-> ->]. reflexivity.
  - intros H. injection H as -> ->. split; reflexivity.
Qed.

Section MergeLeft.

Variables (L R O K : Type).
Variable eqb : K -> K -> bool.
Hypothesis eqb_eq : forall a b, eqb a b = true <-> a = b.
Variable lkey : L -> K.
Variable rkey : R -> K.
Variable join : L -> option R -> O.

Lemma filter_key_find (k : K) (right : list R) :
  NoDup (map rkey right) ->
  filter (fun r => eqb k (rkey r)) right =
  match find (fun r => eqb k (rkey r)) right with
  | Some r => [r]
  | None => []
  end.
Proof.
  induction right as [|y t IH]; simpl; intros Hnd; [reflexivity|].
  inversion Hnd as [|? ? Hy Hnd']; subst.
  destruct (eqb k (rkey y)) eqn:E.
  - apply eqb_eq in E. subst k. f_equal.
    now apply (filter_key_none eqb eqb_eq).
  - now apply IH.
Qed.

Lemma merge_left_cons (same_key : L -> R -> bool) (l : L) (left : list L)
    (right : list R) :
  merge_left same_key join (l :: left) right =
  match filter (same_key l) right with
  | [] => [join l None]
  | ms => map (fun r => join l (Some r)) ms
  end ++ merge_left same_key join left right.
Proof. reflexivity. Qed.

(** With at most one right row per key, a left merge is a look-up. *)
Lemma merge_left_find (left : list L) (right : list R) :
  NoDup (map rkey right) ->
  merge_left (fun l r => eqb (lkey l) (rkey r)) join left right =
  map (fun l => join l (find (fun r => eqb (lkey l) (rkey r)) right)) left.
Proof.
  intros Hnd. induction left as [|l t IH]; [reflexivity|].
  rewrite merge_left_cons, IH, (@filter_key_find (lkey l) right Hnd). simpl.
  destruct (find (fun r => eqb (lkey l) (rkey r)) right); reflexivity.
Qed.

(** Looking a key up in a table computed from its list of keys. *)
Lemma find_map_key (g : K -> R) (k : K) (ks : list K) :
  (forall k', rkey (g k') = k') ->
  find (fun r => eqb k (rkey r)) (map g ks) =
  if existsb (eqb k) ks then Some (g k) else None.
Proof.
  intros Hg. induction ks as [|y t IH]; simpl; [reflexivity|].
  rewrite Hg. destruct (eqb k y) eqn:E; simpl.
  - apply eqb_eq in E. now subst.
  - exact IH.
Qed.

End MergeLeft.

(* ------------------------------------------------------------------ *)
(** ** What the first two stages return *)

Lemma column_lookup_ok (df : DataFrame) :
  has_required_columns df = true ->
  column_lookup "sample" df = Ok tt
  /\ column_lookup "target" df = Ok tt
  /\ column_lookup "cq" df = Ok tt.
Proof.
  unfold has_required_columns, column_lookup.
  rewrite !andb_true_iff. intros [[-> ->] ->]. repeat split.
Qed.

Lemma avg_key_aggregate_group (rs : list Reading)
    (ks : list (string * string)) :
  map avg_key (map (aggregate_group rs) ks) = ks.
Proof.
  rewrite map_map. rewrite <- (map_id ks) at 2.
  apply map_ext. intros [s t]. reflexivity.
Qed.

(** Stage 1 returns the aggregate of every distinct pair, the pairs in the
    order [drop_duplicates] leaves them in. *)
Lemma calculate_avg_cqs_rows (df : DataFrame) :
  has_required_columns df = true ->
  calculate_avg_cqs (PyDataFrame df) =
  Ok (map (aggregate_group (rows df))
          (drop_duplicates pair_eqb (map key_of (rows df)))).
Proof.
  intros Hcols. destruct (column_lookup_ok df Hcols) as (Hs & Ht & Hc).
  unfold calculate_avg_cqs. rewrite Hs, Ht, Hc. simpl. f_equal.
  unfold merge_on_sample_target, groupby_sample_target.
  set (rs := rows df). set (gs := group_keys pair_eqb pair_leb (map key_of rs)).
  rewrite (merge_left_find pair_eqb pair_eqb_eq (fun k => k) avg_key).
  - apply map_ext_in. intros k Hk.
    rewrite (find_map_key pair_eqb pair_eqb_eq avg_key (aggregate_group rs)).
    + assert (Hin : existsb (pair_eqb k) gs = true).
      { apply (existsb_eqb_In pair_eqb pair_eqb_eq).
        apply (group_keys_In pair_eqb pair_eqb_eq).
        exact (proj1 (drop_duplicates_In pair_eqb pair_eqb_eq _ _) Hk). }
      rewrite Hin. reflexivity.
    + intros [s t]. reflexivity.
  - rewrite avg_key_aggregate_group.
    apply (group_keys_NoDup pair_eqb pair_eqb_eq).
Qed.

Lemma filter_sample_none (s : string) (l : list AvgRow) :
  ~ In s (map a_sample l) -> filter (fun r => (a_sample r =? s)%string) l = [].
Proof.
  induction l as [|y t IH]; simpl; intros Hn; [reflexivity|].
  destruct (a_sample y =? s)%string eqn:E.
  - apply String.eqb_eq in E. tauto.
  - apply IH. tauto.
Qed.

(** The mean_ic of a sample: the group mean of the stage-1 means of its
    internal-control rows (NaN when it has none). *)
Lemma merge_on_sample_rows (ics : list string) (avg_cqs : list AvgRow) :
  merge_on_sample avg_cqs (groupby_sample_ic ics avg_cqs) =
  map (fun r =>
         (r, groupby_mean (map mean (control_rows ics (a_sample r) avg_cqs))))
      avg_cqs.
Proof.
  unfold merge_on_sample, groupby_sample_ic.
  set (ic_rows := filter (fun r => isin (a_target r) ics) avg_cqs).
  set (g := fun s : string =>
              (s, groupby_mean
                    (map mean
                       (filter (fun r => (a_sample r =? s)%string) ic_rows)))).
  set (ks := group_keys String.eqb String.leb (map a_sample ic_rows)).
  assert (Hfst : map fst (map g ks) = ks).
  { rewrite map_map. simpl. apply map_id. }
  rewrite (merge_left_find String.eqb String.eqb_eq a_sample
             (@fst string float)).
  - apply map_ext. intros r. f_equal.
    rewrite (find_map_key String.eqb String.eqb_eq (@fst string float) g)
      by reflexivity.
    destruct (existsb (String.eqb (a_sample r)) ks) eqn:E.
    + reflexivity.
    + apply (existsb_eqb_not_In String.eqb String.eqb_eq) in E.
      unfold ks in E. rewrite (group_keys_In String.eqb String.eqb_eq) in E.
      unfold control_rows. fold ic_rows.
      rewrite (filter_sample_none _ _ E). reflexivity.
  - rewrite Hfst. apply (group_keys_NoDup String.eqb String.eqb_eq).
Qed.

(** Stage 2 keeps the stage-1 rows, in order, and extends each of them. *)
Lemma calculate_d_cqs_rows (df : DataFrame) (ics : list string)
    (avg_cqs : list AvgRow) :
  calculate_avg_cqs (PyDataFrame df) = Ok avg_cqs ->
  calculate_d_cqs (PyDataFrame df) (PyList ics) =
  Ok (map (fun r =>
             delta_cq ics
               (r, groupby_mean
                     (map mean (control_rows ics (a_sample r) avg_cqs))))
          avg_cqs).
Proof.
  intros Havg. unfold calculate_d_cqs. rewrite Havg. simpl.
  rewrite merge_on_sample_rows, map_map. reflexivity.
Qed.

(* ------------------------------------------------------------------ *)
(** ** Stage 1: one row per pair, in first-occurrence order *)

(** C1.  For a table with the three required columns, [calculate_avg_cqs]
    returns a table whose (sample, target) pairs are pairwise distinct and
    are exactly the pairs of the input, so that every pair of the input
    selects exactly one row, and the rows are listed in the order of the
    first occurrence of their pairs in the input. *)
Theorem calculate_avg_cqs_one_row_per_pair (df : DataFrame) :
  has_required_columns df = true ->
  exists avg_cqs,
    calculate_avg_cqs (PyDataFrame df) = Ok avg_cqs
    /\ NoDup (map avg_key avg_cqs)
    /\ (forall k, In k (map avg_key avg_cqs) <-> In k (map key_of (rows df)))
    /\ (forall k,
          In k (map key_of (rows df)) ->
          exists r, filter (fun y => pair_eqb k (avg_key y)) avg_cqs = [r])
    /\ in_first_occurrence_order pair_eqb (map key_of (rows df))
         (map avg_key avg_cqs).
Proof.
  intros Hcols. eexists. split; [apply calculate_avg_cqs_rows, Hcols|].
  pose proof (drop_duplicates_NoDup pair_eqb pair_eqb_eq
                (map key_of (rows df))) as Hnd.
  pose proof (drop_duplicates_In pair_eqb pair_eqb_eq
                (map key_of (rows df))) as Hin.
  split; [now rewrite avg_key_aggregate_group|].
  split; [now rewrite avg_key_aggregate_group|].
  split; [|rewrite avg_key_aggregate_group;
           apply (drop_duplicates_first_occurrence_order pair_eqb pair_eqb_eq)].
  intros [s t] Hk. exists (aggregate_group (rows df) (s, t)).
  apply (filter_key_unique pair_eqb pair_eqb_eq avg_key
           (aggregate_group (rows df) (s, t))).
  - now rewrite avg_key_aggregate_group.
  - apply in_map. now apply Hin.
Qed.

Lemma calculate_avg_cqs_one_row_per_pair_witness :
  has_required_columns shuffled = true
  /\ exists avg_cqs,
       calculate_avg_cqs (PyDataFrame shuffled) = Ok avg_cqs
       /\ NoDup (map avg_key avg_cqs)
       /\ (forall k,
             In k (map avg_key avg_cqs) <-> In k (map key_of (rows shuffled)))
       /\ (forall k,
             In k (map key_of (rows shuffled)) ->
             exists r, filter (fun y => pair_eqb k (avg_key y)) avg_cqs = [r])
       /\ in_first_occurrence_order pair_eqb (map key_of (rows shuffled))
            (map avg_key avg_cqs).
Proof.
  split; [reflexivity|].
  apply (calculate_avg_cqs_one_row_per_pair shuffled). reflexivity.
Defined.

(** On [shuffled] the group-by lists the pairs sorted, the result lists them
    as the input first shows them. *)
Example shuffled_order :
  map avg_key (groupby_sample_target (rows shuffled))
  = [("S1", "Actin"); ("S1", "GeneX"); ("S2", "GeneX")]%string
  /\ (exists avg_cqs,
        calculate_avg_cqs (PyDataFrame shuffled) = Ok avg_cqs
        /\ map avg_key avg_cqs
           = [("S2", "GeneX"); ("S1", "GeneX"); ("S1", "Actin")]%string).
Proof.
  split; [reflexivity|]. eexists. split; reflexivity.
Qed.

(* ------------------------------------------------------------------ *)
(** ** Facts of binary64 arithmetic *)

Section Rounding.

Variables prec emax : Z.

Lemma iter_pos_invariant (A : Type) (P : A -> Prop) (f : A -> A) :
  (forall x, P x -> P (f x)) ->
  forall (n : positive) (x : A), P x -> P (iter_pos f n x).
Proof.
  intros Hf. induction n as [n IH|n IH|]; intros x Hx; simpl.
  - apply IH, IH, Hf, Hx.
  - apply IH, IH, Hx.
  - apply Hf, Hx.
Qed.

Lemma shr_1_nonneg (mrs : shr_record) :
  (0 <= shr_m mrs)%Z -> (0 <= shr_m (shr_1 mrs))%Z.
Proof.
  destruct mrs as [m r s]. simpl. intros Hm.
  destruct m as [|[p|p|]|p]; simpl; lia.
Qed.

Lemma shr_fexp_nonneg (m e : Z) (l : location) :
  (0 <= m)%Z -> (0 <= shr_m (fst (shr_fexp prec emax m e l)))%Z.
Proof.
  intros Hm. unfold shr_fexp, shr.
  assert (H0 : (0 <= shr_m (shr_record_of_loc m l))%Z)
    by (destruct l as [|[ | | ]]; exact Hm).
  destruct (fexp prec emax (Zdigits2 m + e) - e)%Z; simpl; try exact H0.
  apply iter_pos_invariant; [apply shr_1_nonneg | exact H0].
Qed.

Lemma round_nearest_even_nonneg (m : Z) (l : location) :
  (0 <= m)%Z -> (0 <= round_nearest_even m l)%Z.
Proof.
  intros Hm. destruct l as [|[ | | ]]; simpl; try lia.
  destruct (Z.even m); lia.
Qed.

(** Rounding a non-negative mantissa gives a zero, a finite number or an
    infinity. *)
Lemma binary_round_aux_not_nan (sx : bool) (mx ex : Z) (lx : location) :
  (0 <= mx)%Z -> F64.isnan (binary_round_aux prec emax sx mx ex lx) = false.
Proof.
  intros Hm. unfold binary_round_aux.
  pose proof (shr_fexp_nonneg ex lx Hm) as H1.
  destruct (shr_fexp prec emax mx ex lx) as [mrs' e']. simpl in H1.
  pose proof (shr_fexp_nonneg e' loc_Exact
                (round_nearest_even_nonneg (loc_of_shr_record mrs') H1)) as H2.
  destruct (shr_fexp prec emax
              (round_nearest_even (shr_m mrs') (loc_of_shr_record mrs')) e'
              loc_Exact) as [mrs'' e'']. simpl in H2.
  destruct (shr_m mrs'') as [|p|p]; [reflexivity | | lia].
  destruct (e'' <=? emax - prec)%Z; reflexivity.
Qed.

Lemma binary_normalize_not_nan (m e : Z) (s : bool) :
  F64.isnan (binary_normalize prec emax m e s) = false.
Proof.
  destruct m as [|p|p]; simpl; [reflexivity | |];
    unfold binary_round;
    destruct (shl_align p e (fexp prec emax (Z.pos (digits2_pos p) + e)));
    now apply binary_round_aux_not_nan.
Qed.

End Rounding.

Lemma sub_nan_l (y : float) : F64.sub F64.nan y = F64.nan.
Proof. reflexivity. Qed.

Lemma sub_nan_r (x : float) : F64.sub x F64.nan = F64.nan.
Proof. destruct x; reflexivity. Qed.

(** The difference of two finite numbers is a number. *)
Lemma sub_finite_not_nan (x y : float) :
  F64.is_finite x = true -> F64.is_finite y = true ->
  F64.isnan (F64.sub x y) = false.
Proof.
  destruct x as [sx|sx| |sx mx ex], y as [sy|sy| |sy my ey];
    simpl; try discriminate; intros _ _.
  - destruct sx, sy; reflexivity.
  - reflexivity.
  - reflexivity.
  - apply binary_normalize_not_nan.
Qed.

(** A finite number minus itself is [+0.0]. *)
Lemma sub_diag (x : float) : F64.is_finite x = true -> F64.sub x x = F64.zero.
Proof.
  destruct x as [sx|sx| |sx mx ex]; simpl; try discriminate; intros _.
  - destruct sx; reflexivity.
  - unfold F64.sub, SFsub. rewrite Z.sub_diag. reflexivity.
Qed.

(* ------------------------------------------------------------------ *)
(** ** Stage 2: mean_ic and d_cq *)

Lemma in_delta_rows (ics : list string) (avg_cqs : list AvgRow) (r : DeltaRow) :
  In r (map (fun a =>
               delta_cq ics
                 (a, groupby_mean
                       (map mean (control_rows ics (a_sample a) avg_cqs))))
            avg_cqs) ->
  In (d_avg r) avg_cqs
  /\ mean_ic r = groupby_mean (map mean (control_rows ics (a_sample r) avg_cqs))
  /\ d_cq r = if negb (isin (a_target r) ics)
              then F64.sub (mean r) (mean_ic r) else F64.nan.
Proof.
  rewrite in_map_iff. intros [a [<- Ha]]. simpl. auto.
Qed.

(** With one replicate of one control at 10 and three of another at 20,
    mean_ic is 15, the mean of the two control means, and not 17.5, the mean
    of the four replicates. *)
Example mean_ic_uneven_controls :
  exists d_cqs,
    calculate_d_cqs (PyDataFrame uneven_controls)
      (PyList ["Actin"; "Gapdh"]%string) = Ok d_cqs
    /\ map mean_ic d_cqs = [num 15; num 15; num 15]
    /\ groupby_mean [num 10; num 20; num 20; num 20] = F64.div (num 35) (num 2).
Proof.
  eexists. split; [reflexivity|]. split; reflexivity.
Qed.

Lemma filter_isin_nil (avg_cqs : list AvgRow) :
  filter (fun r => isin (a_target r) []) avg_cqs = [].
Proof.
  induction avg_cqs as [|a t IH]; simpl; [reflexivity | exact IH].
Qed.

(** C10.  With an empty list of internal controls and a table with the
    three required columns, [calculate_d_cqs] returns: its table has the
    stage-1 rows, in order, and mean_ic and d_cq are NaN on every row. *)
Theorem calculate_d_cqs_empty_controls (df : DataFrame) :
  has_required_columns df = true ->
  exists avg_cqs d_cqs,
    calculate_avg_cqs (PyDataFrame df) = Ok avg_cqs
    /\ calculate_d_cqs (PyDataFrame df) (PyList []) = Ok d_cqs
    /\ map d_avg d_cqs = avg_cqs
    /\ (forall r : DeltaRow,
          In r d_cqs -> mean_ic r = F64.nan /\ d_cq r = F64.nan).
Proof.
  intros Hcols. pose proof (calculate_avg_cqs_rows df Hcols) as Havg.
  eexists. eexists. split; [exact Havg|].
  split; [apply (calculate_d_cqs_rows df [] Havg)|]. split.
  - rewrite map_map. simpl. apply map_id.
  - intros r Hr. apply in_delta_rows in Hr. destruct Hr as (_ & Hm & Hd).
    unfold control_rows in Hm. rewrite filter_isin_nil in Hm. simpl in Hm.
    split; [exact Hm|]. rewrite Hd, Hm. simpl. apply sub_nan_r.
Qed.

Lemma calculate_d_cqs_empty_controls_witness :
  has_required_columns worked = true
  /\ exists avg_cqs d_cqs,
       calculate_avg_cqs (PyDataFrame worked) = Ok avg_cqs
       /\ calculate_d_cqs (PyDataFrame worked) (PyList []) = Ok d_cqs
       /\ map d_avg d_cqs = avg_cqs
       /\ (forall r : DeltaRow,
             In r d_cqs -> mean_ic r = F64.nan /\ d_cq r = F64.nan).
Proof.
  split; [reflexivity|].
  apply (calculate_d_cqs_empty_controls worked). reflexivity.
Defined.

(** C2, at [failed_target].  The row of GeneX is not a control row and its
    mean_ic is defined (20.0), yet its d_cq is NaN: the mean of a group
    whose replicates all failed is NaN. *)
Lemma d_cq_nan_beside_defined_mean_ic :
  exists (d_cqs : list DeltaRow) (r : DeltaRow),
    calculate_d_cqs (PyDataFrame failed_target) (PyList ["Actin"%string])
    = Ok d_cqs
    /\ In r d_cqs
    /\ isin (a_target r) ["Actin"%string] = false
    /\ mean_ic r = num 20
    /\ F64.isnan (mean_ic r) = false
    /\ F64.isnan (d_cq r) = true.
Proof.
  eexists. eexists. split; [reflexivity|].
  split; [right; left; reflexivity|]. repeat split.
Qed.

(** C2, amended.  In the table [calculate_d_cqs] returns, d_cq is
    mean - mean_ic on every row whose target is not an internal control and
    NaN on every row whose target is one; on a row of the first kind it is
    not NaN whenever mean and mean_ic are both finite. *)
Theorem d_cq_of_rows (df : DataFrame) (ics : list string) :
  has_required_columns df = true ->
  exists d_cqs,
    calculate_d_cqs (PyDataFrame df) (PyList ics) = Ok d_cqs
    /\ forall r : DeltaRow,
         In r d_cqs ->
         (isin (a_target r) ics = false ->
          d_cq r = F64.sub (mean r) (mean_ic r))
         /\ (isin (a_target r) ics = true -> d_cq r = F64.nan)
         /\ (isin (a_target r) ics = false ->
             F64.is_finite (mean r) = true ->
             F64.is_finite (mean_ic r) = true ->
             F64.isnan (d_cq r) = false).
Proof.
  intros Hcols. pose proof (calculate_avg_cqs_rows df Hcols) as Havg.
  eexists. split; [apply (calculate_d_cqs_rows df ics Havg)|].
  intros r Hr. apply in_delta_rows in Hr. destruct Hr as (_ & _ & Hd).
  repeat split.
  - intros Hic. rewrite Hd, Hic. reflexivity.
  - intros Hic. rewrite Hd, Hic. reflexivity.
  - intros Hic Hm Hmic. rewrite Hd, Hic. simpl.
    now apply sub_finite_not_nan.
Qed.

Lemma d_cq_of_rows_witness :
  has_required_columns worked = true
  /\ exists d_cqs,
       calculate_d_cqs (PyDataFrame worked) (PyList ["Actin"%string]) = Ok d_cqs
       /\ forall r : DeltaRow,
            In r d_cqs ->
            (isin (a_target r) ["Actin"%string] = false ->
             d_cq r = F64.sub (mean r) (mean_ic r))
            /\ (isin (a_target r) ["Actin"%string] = true -> d_cq r = F64.nan)
            /\ (isin (a_target r) ["Actin"%string] = false ->
                F64.is_finite (mean r) = true ->
                F64.is_finite (mean_ic r) = true ->
                F64.isnan (d_cq r) = false).
Proof.
  split; [reflexivity|].
  apply (d_cq_of_rows worked). reflexivity.
Defined.

(** The worked scenario at stage 2: mean_ic is 20 for S1 and 19 for Cal,
    d_cq is 5 for GeneX in both and NaN for Actin. *)
Example worked_d_cqs :
  exists d_cqs,
    calculate_d_cqs (PyDataFrame worked) (PyList ["Actin"%string]) = Ok d_cqs
    /\ map (fun r : DeltaRow => (avg_key r, mean_ic r, d_cq r)) d_cqs
       = [ ("S1", "Actin", num 20, F64.nan); ("S1", "GeneX", num 20, num 5);
           ("Cal", "Actin", num 19, F64.nan); ("Cal", "GeneX", num 19, num 5)
         ]%string.
Proof.
  eexists. split; reflexivity.
Qed.

(* ------------------------------------------------------------------ *)
(** ** Stage 1: the aggregates and the failed replicates *)

Lemma in_avg_rows (rs : list Reading) (ks : list (string * string))
    (r : AvgRow) :
  In r (map (aggregate_group rs) ks) ->
  mean r = groupby_mean (replicates (avg_key r) rs)
  /\ std r = groupby_std (replicates (avg_key r) rs).
Proof.
  rewrite in_map_iff. intros [[s t] [<- _]]. split; reflexivity.
Qed.


(** Replicates 20.0 and 22.0 have mean 21.0 and std sqrt 2; a single
    replicate has no std. *)
Example replicates_20_22 :
  calculate_avg_cqs
    (PyDataFrame
       (readings [mkReading "S1" "T1" (num 20); mkReading "S1" "T1" (num 22)]))
  = Ok [mkAvgRow "S1" "T1" (num 21) (F64.sqrt (num 2))]
  /\ calculate_avg_cqs
       (PyDataFrame (readings [mkReading "S1" "T1" (num 20)]))
     = Ok [mkAvgRow "S1" "T1" (num 20) F64.nan].
Proof. split; reflexivity. Qed.

(** C4, at [failed_replicate].  The group of (S1, T1) holds a NaN cq value
    beside 20.0, and its mean is 20.0, not NaN. *)
Lemma failed_replicate_does_not_poison_mean :
  exists (avg_cqs : list AvgRow) (r : AvgRow),
    calculate_avg_cqs (PyDataFrame failed_replicate) = Ok avg_cqs
    /\ In r avg_cqs
    /\ In F64.nan (replicates (avg_key r) (rows failed_replicate))
    /\ mean r = num 20
    /\ F64.isnan (mean r) = false.
Proof.
  eexists. eexists. split; [reflexivity|].
  split; [left; reflexivity|]. split; [right; left; reflexivity|].
  split; reflexivity.
Qed.

Section DropDuplicatesRemove.

Variable K : Type.
Variable eqb : K -> K -> bool.
Hypothesis eqb_eq : forall a b, eqb a b = true <-> a = b.

(** A value met before is dropped wherever it comes again. *)
Lemma drop_duplicates_from_remove (pre post seen : list K) (k : K) :
  In k seen \/ In k pre ->
  drop_duplicates_from eqb seen (pre ++ k :: post)
  = drop_duplicates_from eqb seen (pre ++ post).
Proof.
  revert seen. induction pre as [|y t IH]; intros seen Hk; simpl.
  - destruct Hk as [Hk|[]].
    apply (existsb_eqb_In eqb eqb_eq) in Hk. now rewrite Hk.
  - destruct (existsb (eqb y) seen) eqn:E.
    + apply IH. destruct Hk as [Hk|[<-|Hk]]; auto.
      left. now apply (existsb_eqb_In eqb eqb_eq).
    + f_equal. apply IH. simpl. destruct Hk as [Hk|[<-|Hk]]; auto.
Qed.

End DropDuplicatesRemove.

Lemma notna_app (xs ys : list float) : notna (xs ++ ys) = notna xs ++ notna ys.
Proof. apply filter_app. Qed.

Lemma notna_replicates_remove (k : string * string) (rs1 rs2 : list Reading)
    (r : Reading) :
  F64.isnan (cq r) = true ->
  notna (replicates k (rs1 ++ r :: rs2)) = notna (replicates k (rs1 ++ rs2)).
Proof.
  intros Hnan. unfold replicates.
  rewrite !filter_app, !map_app, !notna_app. f_equal. simpl.
  destruct (pair_eqb (key_of r) k); [|reflexivity].
  simpl. unfold notna at 1. simpl. now rewrite Hnan.
Qed.

Lemma groupby_mean_notna (xs ys : list float) :
  notna xs = notna ys -> groupby_mean xs = groupby_mean ys.
Proof. unfold groupby_mean. now intros ->. Qed.

Lemma groupby_std_notna (xs ys : list float) :
  notna xs = notna ys -> groupby_std xs = groupby_std ys.
Proof. unfold groupby_std, groupby_var. now intros ->. Qed.

(** C4, amended.  NaN cq replicates are filtered out of the aggregation:
    a NaN replicate of a pair that has an earlier row leaves the table
    [calculate_avg_cqs] returns as it is without that replicate, so it does
    not turn the mean or the std of its group into NaN. *)
Theorem nan_replicate_filtered_out (cols : list string)
    (rs1 rs2 : list Reading) (r : Reading) :
  has_required_columns (mkDataFrame cols (rs1 ++ r :: rs2)) = true ->
  F64.isnan (cq r) = true ->
  In (key_of r) (map key_of rs1) ->
  exists avg_cqs,
    calculate_avg_cqs (PyDataFrame (mkDataFrame cols (rs1 ++ r :: rs2)))
    = Ok avg_cqs
    /\ calculate_avg_cqs (PyDataFrame (mkDataFrame cols (rs1 ++ rs2)))
       = Ok avg_cqs.
Proof.
  intros Hcols Hnan Hin. eexists.
  split; [apply calculate_avg_cqs_rows, Hcols|].
  rewrite (calculate_avg_cqs_rows (mkDataFrame cols (rs1 ++ rs2)) Hcols).
  simpl. f_equal. rewrite !map_app. simpl.
  unfold drop_duplicates.
  rewrite (drop_duplicates_from_remove pair_eqb pair_eqb_eq
             (map key_of rs1) (map key_of rs2) [] (key_of r) (or_intror Hin)).
  rewrite <- map_app. apply map_ext. intros k. unfold aggregate_group.
  rewrite (groupby_mean_notna _ _ (notna_replicates_remove k rs1 rs2 r Hnan)).
  rewrite (groupby_std_notna _ _ (notna_replicates_remove k rs1 rs2 r Hnan)).
  reflexivity.
Qed.

Lemma nan_replicate_filtered_out_witness :
  has_required_columns
    (mkDataFrame ["sample"; "target"; "cq"]%string
       ([mkReading "S1" "T1" (num 20)] ++ mkReading "S1" "T1" F64.nan :: []))
  = true
  /\ F64.isnan (cq (mkReading "S1" "T1" F64.nan)) = true
  /\ In (key_of (mkReading "S1" "T1" F64.nan))
       (map key_of [mkReading "S1" "T1" (num 20)])
  /\ exists avg_cqs,
       calculate_avg_cqs
         (PyDataFrame
            (mkDataFrame ["sample"; "target"; "cq"]%string
               ([mkReading "S1" "T1" (num 20)]
                ++ mkReading "S1" "T1" F64.nan :: [])))
       = Ok avg_cqs
       /\ calculate_avg_cqs
            (PyDataFrame
               (mkDataFrame ["sample"; "target"; "cq"]%string
                  ([mkReading "S1" "T1" (num 20)] ++ [])))
          = Ok avg_cqs.
Proof.
  split; [reflexivity|]. split; [reflexivity|].
  split; [left; reflexivity|].
  apply (nan_replicate_filtered_out ["sample"; "target"; "cq"]%string
           [mkReading "S1" "T1" (num 20)] [] (mkReading "S1" "T1" F64.nan)).
  - reflexivity.
  - reflexivity.
  - left. reflexivity.
Defined.

(* ------------------------------------------------------------------ *)
(** ** The argument checks *)

(** C6, at [no_sample_column].  A frame that lacks the sample column passes
    the argument checks: [calculate_avg_cqs] and [calculate_d_cqs] fail in
    the group-by with a [KeyError], [calculate_dd_cqs] with the [NameError]
    of its first statement; none raises the error of the checks. *)
Lemma missing_column_not_rejected_by_checks :
  is_dataframe (PyDataFrame no_sample_column) = true
  /\ has_required_columns no_sample_column = false
  /\ calculate_avg_cqs (PyDataFrame no_sample_column)
     = Raise (KeyError "sample")
  /\ calculate_d_cqs (PyDataFrame no_sample_column) (PyList ["Actin"%string])
     = Raise (KeyError "sample")
  /\ calculate_dd_cqs pow_exact (PyDataFrame no_sample_column)
       (PyList ["Actin"%string]) (PyStr "Cal")
     = Raise (NameError "q").
Proof. repeat split. Qed.

(** C6, amended.  An argument of the wrong type is rejected by the checks
    each function starts with, in the order cqs, internal_controls,
    calibrator: a [cqs] that is not a data frame, an [internal_controls]
    that is not a list and a [calibrator] that is not a str make every
    function that takes the argument raise the [TypeError] of that check. *)
Theorem wrong_type_raises_type_error (pow : float -> float -> float)
    (cqs internal_controls calibrator : pyval) :
  (is_dataframe cqs = false ->
   calculate_avg_cqs cqs = Raise cqs_type_error
   /\ calculate_d_cqs cqs internal_controls = Raise cqs_type_error
   /\ calculate_dd_cqs pow cqs internal_controls calibrator
      = Raise cqs_type_error)
  /\ (is_dataframe cqs = true -> is_list internal_controls = false ->
      calculate_d_cqs cqs internal_controls = Raise internal_controls_type_error
      /\ calculate_dd_cqs pow cqs internal_controls calibrator
         = Raise internal_controls_type_error)
  /\ (is_dataframe cqs = true -> is_list internal_controls = true ->
      is_str calibrator = false ->
      calculate_dd_cqs pow cqs internal_controls calibrator
      = Raise calibrator_type_error).
Proof.
  repeat split.
  - destruct cqs; simpl in *; congruence.
  - destruct cqs; simpl in *; congruence.
  - destruct cqs; simpl in *; congruence.
  - destruct cqs; try discriminate.
    destruct internal_controls; simpl in *; congruence.
  - destruct cqs; try discriminate.
    destruct internal_controls; simpl in *; congruence.
  - destruct cqs; try discriminate.
    destruct internal_controls; try discriminate.
    destruct calibrator; simpl in *; congruence.
Qed.

Lemma wrong_type_raises_type_error_witness :
  (is_dataframe (PyList ["S1"%string]) = false
   /\ calculate_avg_cqs (PyList ["S1"%string]) = Raise cqs_type_error
   /\ calculate_d_cqs (PyList ["S1"%string]) (PyList ["Actin"%string])
      = Raise cqs_type_error
   /\ calculate_dd_cqs pow_exact (PyList ["S1"%string])
        (PyList ["Actin"%string]) (PyStr "Cal")
      = Raise cqs_type_error)
  /\ (is_list (PyTuple ["Actin"%string]) = false
      /\ calculate_d_cqs (PyDataFrame worked) (PyTuple ["Actin"%string])
         = Raise internal_controls_type_error
      /\ calculate_dd_cqs pow_exact (PyDataFrame worked)
           (PyTuple ["Actin"%string]) (PyStr "Cal")
         = Raise internal_controls_type_error)
  /\ (is_str (PyInt 1) = false
      /\ calculate_dd_cqs pow_exact (PyDataFrame worked)
           (PyList ["Actin"%string]) (PyInt 1)
         = Raise calibrator_type_error).
Proof.
  split; [|split].
  - split; [reflexivity|].
    exact (proj1 (wrong_type_raises_type_error pow_exact (PyList ["S1"%string])
                    (PyList ["Actin"%string]) (PyStr "Cal")) eq_refl).
  - split; [reflexivity|].
    exact (proj1 (proj2 (wrong_type_raises_type_error pow_exact
                           (PyDataFrame worked) (PyTuple ["Actin"%string])
                           (PyStr "Cal"))) eq_refl eq_refl).
  - split; [reflexivity|].
    exact (proj2 (proj2 (wrong_type_raises_type_error pow_exact
                           (PyDataFrame worked) (PyList ["Actin"%string])
                           (PyInt 1))) eq_refl eq_refl eq_refl).
Defined.

(* ------------------------------------------------------------------ *)
(** ** calculate_dd_cqs as the module has it *)

(** C9.  Whatever the data frame, the list and the str it is called with,
    [calculate_dd_cqs] raises the [NameError] of the name [q] and returns no
    table. *)
Theorem calculate_dd_cqs_name_error (pow : float -> float -> float)
    (df : DataFrame) (internal_controls : list string) (calibrator : string) :
  calculate_dd_cqs pow (PyDataFrame df) (PyList internal_controls)
    (PyStr calibrator)
  = Raise (NameError "q").
Proof. reflexivity. Qed.

(** C3, at [fold_changes] with the internal control Actin and the
    calibrator "Cal".  The call raises the [NameError] of the name [q] and
    returns no table; with [q] bound to the module the same call returns the
    six rows, fc = 2^(-dd_cq) on each: dd_cq -1 and fc 2 in S1, dd_cq 1 and
    fc 0.5 in S2, dd_cq 0 and fc 1 on the calibrator's own row, NaN on the
    rows of the internal control. *)
Theorem fold_changes_name_error :
  calculate_dd_cqs pow_exact (PyDataFrame fold_changes)
    (PyList ["Actin"%string]) (PyStr "Cal")
  = Raise (NameError "q")
  /\ exists dd_cqs,
       calculate_dd_cqs_with pow_exact (Some qpycr) (PyDataFrame fold_changes)
         (PyList ["Actin"%string]) (PyStr "Cal")
       = Ok dd_cqs
       /\ map (fun r : DeltaDeltaRow => (avg_key r, dd_cq r, fc r)) dd_cqs
          = [ ("S1", "Actin", F64.nan, F64.nan);
              ("S1", "GeneX", num (-1), F64.two);
              ("S2", "Actin", F64.nan, F64.nan);
              ("S2", "GeneX", num 1, F64.half);
              ("Cal", "Actin", F64.nan, F64.nan);
              ("Cal", "GeneX", F64.zero, F64.one) ]%string.
Proof.
  split; [reflexivity|]. eexists. split; reflexivity.
Qed.

(* ------------------------------------------------------------------ *)
(** ** Stage 3, once the name [q] is bound to the module *)

Lemma NoDup_map_filter (X Y : Type) (f : X -> Y) (P : X -> bool) (l : list X) :
  NoDup (map f l) -> NoDup (map f (filter P l)).
Proof.
  induction l as [|y t IH]; simpl; intros Hnd; [constructor|].
  inversion Hnd as [|? ? Hy Hnd']; subst.
  destruct (P y); simpl; [|now apply IH].
  constructor; [|now apply IH].
  intros Hin. apply Hy. apply in_map_iff in Hin.
  destruct Hin as [x [Hx Hin]]. apply filter_In in Hin.
  rewrite <- Hx. apply in_map. tauto.
Qed.

(** Rows of one sample with distinct pairs have distinct targets. *)
Lemma NoDup_targets_of_sample (s : string) (l : list DeltaRow) :
  (forall r : DeltaRow, In r l -> a_sample r = s) ->
  NoDup (map (fun r : DeltaRow => avg_key r) l) ->
  NoDup (map (fun r : DeltaRow => a_target r) l).
Proof.
  induction l as [|y t IH]; simpl; intros Hs Hnd; [constructor|].
  inversion Hnd as [|? ? Hy Hnd']; subst.
  constructor; [|apply IH; auto].
  intros Hin. apply Hy. apply in_map_iff in Hin.
  destruct Hin as [x [Hx Hin]]. apply in_map_iff. exists x.
  split; [|exact Hin]. unfold avg_key.
  rewrite Hx, (Hs x (or_intror Hin)), (Hs y (or_introl eq_refl)). reflexivity.
Qed.

Lemma calibrator_d_cqs_NoDup (ics : list string) (cal : string)
    (d_cqs : list DeltaRow) :
  NoDup (map (fun r : DeltaRow => avg_key r) d_cqs) ->
  NoDup (map fst (calibrator_d_cqs ics cal d_cqs)).
Proof.
  intros Hnd. unfold calibrator_d_cqs. rewrite map_map. simpl.
  apply NoDup_targets_of_sample with (s := cal).
  - intros r Hr. apply filter_In in Hr. destruct Hr as [_ Hr].
    apply andb_true_iff in Hr. now apply String.eqb_eq.
  - now apply NoDup_map_filter.
Qed.

Lemma merge_on_target_rows (ics : list string) (cal : string)
    (d_cqs : list DeltaRow) :
  NoDup (map (fun r : DeltaRow => avg_key r) d_cqs) ->
  merge_on_target d_cqs (calibrator_d_cqs ics cal d_cqs)
  = map (fun r => (r, baseline_of ics cal d_cqs r)) d_cqs.
Proof.
  intros Hnd. unfold merge_on_target.
  rewrite (merge_left_find String.eqb String.eqb_eq
             (fun r : DeltaRow => a_target r) (@fst string float)).
  - reflexivity.
  - now apply calibrator_d_cqs_NoDup.
Qed.

(** A row of the calibrator on a target of interest is its own baseline. *)
Lemma baseline_of_calibrator_row (ics : list string) (cal : string)
    (d_cqs : list DeltaRow) (r : DeltaRow) :
  NoDup (map (fun r : DeltaRow => avg_key r) d_cqs) ->
  In r d_cqs -> a_sample r = cal -> isin (a_target r) ics = false ->
  baseline_of ics cal d_cqs r = d_cq r.
Proof.
  intros Hnd Hin Hs Hic. unfold baseline_of.
  pose proof (calibrator_d_cqs_NoDup ics cal d_cqs Hnd) as Hnd'.
  pose proof (filter_key_find String.eqb String.eqb_eq (@fst string float)
                (a_target r) _ Hnd') as Hfind.
  assert (Hrow : In (a_target r, d_cq r) (calibrator_d_cqs ics cal d_cqs)).
  { unfold calibrator_d_cqs.
    apply (in_map (fun x : DeltaRow => (a_target x, d_cq x))).
    apply filter_In. split; [exact Hin|].
    rewrite Hs, String.eqb_refl, Hic. reflexivity. }
  pose proof (filter_key_unique String.eqb String.eqb_eq (@fst string float)
                (a_target r, d_cq r) _ Hnd' Hrow) as Huniq.
  simpl in Huniq. rewrite Huniq in Hfind.
  destruct (find (fun g => (a_target r =? fst g)%string)
              (calibrator_d_cqs ics cal d_cqs)) as [g|]; [|discriminate].
  injection Hfind as <-. reflexivity.
Qed.

(** No row of the calibrator, no baseline. *)
Lemma baseline_of_absent_calibrator (ics : list string) (cal : string)
    (d_cqs : list DeltaRow) (r : DeltaRow) :
  (forall x : DeltaRow, In x d_cqs -> a_sample x <> cal) ->
  baseline_of ics cal d_cqs r = F64.nan.
Proof.
  intros Habs. unfold baseline_of, calibrator_d_cqs.
  assert (Hnil : filter (fun x : DeltaRow =>
                           (a_sample x =? cal)%string
                           && negb (isin (a_target x) ics)) d_cqs = []).
  { induction d_cqs as [|y t IH]; simpl; [reflexivity|].
    assert (Hy : (a_sample y =? cal)%string = false)
      by (apply String.eqb_neq, Habs; now left).
    rewrite Hy. simpl. apply IH. intros x Hx. apply Habs. now right. }
  rewrite Hnil. reflexivity.
Qed.

Lemma calculate_d_cqs_distinct_pairs (df : DataFrame) (ics : list string) :
  has_required_columns df = true ->
  exists d_cqs,
    calculate_d_cqs (PyDataFrame df) (PyList ics) = Ok d_cqs
    /\ NoDup (map (fun r : DeltaRow => avg_key r) d_cqs).
Proof.
  intros Hcols. pose proof (calculate_avg_cqs_rows df Hcols) as Havg.
  eexists. split; [apply (calculate_d_cqs_rows df ics Havg)|].
  rewrite map_map.
  rewrite (map_ext _ avg_key) by reflexivity.
  rewrite avg_key_aggregate_group.
  apply (drop_duplicates_NoDup pair_eqb pair_eqb_eq).
Qed.

Section DeltaDeltaFacts.

Variable pow : float -> float -> float.

(** What stage 3 returns when [q] is the module: the stage-2 rows, in
    order, each with its baseline, its dd_cq and its fc. *)
Lemma calculate_dd_cqs_with_rows (df : DataFrame) (ics : list string)
    (cal : string) (d_cqs : list DeltaRow) :
  calculate_d_cqs (PyDataFrame df) (PyList ics) = Ok d_cqs ->
  NoDup (map (fun r : DeltaRow => avg_key r) d_cqs) ->
  calculate_dd_cqs_with pow (Some qpycr) (PyDataFrame df) (PyList ics)
    (PyStr cal)
  = Ok (map (fun r => fold_change pow (r, baseline_of ics cal d_cqs r)) d_cqs).
Proof.
  intros Hd Hnd. unfold calculate_dd_cqs_with.
  change (ns_calculate_d_cqs qpycr) with calculate_d_cqs.
  rewrite Hd. simpl. rewrite merge_on_target_rows by exact Hnd.
  rewrite map_map.
  reflexivity.
Qed.

Hypothesis pow_facts : pow_base_two pow.

Lemma fold_change_values (r : DeltaRow) (c : float) :
  let row := fold_change pow (r, c) in
  fc row = pow F64.two (F64.opp (dd_cq row))
  /\ (F64.is_zero (dd_cq row) = true -> fc row = F64.one)
  /\ (dd_cq row = F64.opp F64.one -> fc row = F64.two)
  /\ (dd_cq row = F64.one -> fc row = F64.half)
  /\ (dd_cq row = F64.nan -> fc row = F64.nan).
Proof.
  simpl. destruct pow_facts as [Hzero Hnan Hone Hminus]. repeat split.
  - intros Hz. destruct (F64.sub (d_cq r) c); try discriminate. apply Hzero.
  - intros ->. exact Hone.
  - intros ->. exact Hminus.
  - intros ->. exact Hnan.
Qed.

End DeltaDeltaFacts.

(** A calibrator without a reading of the internal control, [q] bound to
    the module: the d_cq of its row on GeneX is NaN, and so are the dd_cq and
    the fc of that row. *)
Example calibrator_row_not_zero :
  calculate_dd_cqs pow_exact (PyDataFrame calibrator_without_control)
    (PyList ["Actin"%string]) (PyStr "Cal")
  = Raise (NameError "q")
  /\ exists (dd_cqs : list DeltaDeltaRow) (r : DeltaDeltaRow),
       calculate_dd_cqs_with pow_exact (Some qpycr)
         (PyDataFrame calibrator_without_control)
         (PyList ["Actin"%string]) (PyStr "Cal")
       = Ok dd_cqs
       /\ In r dd_cqs
       /\ a_sample r = "Cal"%string
       /\ isin (a_target r) ["Actin"%string] = false
       /\ dd_cq r = F64.nan
       /\ fc r = F64.nan.
Proof.
  split; [reflexivity|]. eexists. eexists. split; [reflexivity|].
  split; [left; reflexivity|]. repeat split.
Qed.

(** X16.  Let the name [q] be bound to the module and [pow] have its exact
    values at base 2.  Then, for a table with the three required columns,
    [calculate_dd_cqs] returns a table in which fc is 2 to the power -dd_cq
    on every row (1 at dd_cq = 0, 2 at dd_cq = -1, 0.5 at dd_cq = 1, NaN at
    dd_cq = NaN), and in which every row of the calibrator sample on a
    target that is no internal control and whose d_cq is finite has
    dd_cq = 0 and fc = 1. *)
Theorem fold_change_of_rows (pow : float -> float -> float) (df : DataFrame)
    (ics : list string) (cal : string) :
  pow_base_two pow ->
  has_required_columns df = true ->
  exists dd_cqs,
    calculate_dd_cqs_with pow (Some qpycr) (PyDataFrame df) (PyList ics)
      (PyStr cal)
    = Ok dd_cqs
    /\ forall r : DeltaDeltaRow,
         In r dd_cqs ->
         fc r = pow F64.two (F64.opp (dd_cq r))
         /\ (F64.is_zero (dd_cq r) = true -> fc r = F64.one)
         /\ (dd_cq r = F64.opp F64.one -> fc r = F64.two)
         /\ (dd_cq r = F64.one -> fc r = F64.half)
         /\ (dd_cq r = F64.nan -> fc r = F64.nan)
         /\ (a_sample r = cal -> isin (a_target r) ics = false ->
             F64.is_finite (d_cq r) = true ->
             dd_cq r = F64.zero /\ fc r = F64.one).
Proof.
  intros Hpow Hcols.
  destruct (calculate_d_cqs_distinct_pairs df ics Hcols) as (d_cqs & Hd & Hnd).
  eexists. split; [apply calculate_dd_cqs_with_rows; eassumption|].
  intros r Hr. apply in_map_iff in Hr. destruct Hr as (d & <- & Hin).
  destruct (@fold_change_values pow Hpow d (baseline_of ics cal d_cqs d))
    as (H1 & H2 & H3 & H4 & H5).
  do 5 (split; [assumption|]).
  intros Hs Hic Hfin.
  assert (Hdd : dd_cq (fold_change pow (d, baseline_of ics cal d_cqs d))
                = F64.zero).
  { simpl. rewrite baseline_of_calibrator_row by assumption.
    now apply sub_diag. }
  split; [exact Hdd|]. apply H2. now rewrite Hdd.
Qed.

Lemma pow_exact_base_two : pow_base_two pow_exact.
Proof. constructor; [intros s; reflexivity | reflexivity ..]. Qed.

Lemma fold_change_of_rows_witness :
  pow_base_two pow_exact
  /\ has_required_columns worked = true
  /\ exists dd_cqs,
       calculate_dd_cqs_with pow_exact (Some qpycr) (PyDataFrame worked)
         (PyList ["Actin"%string]) (PyStr "Cal")
       = Ok dd_cqs
       /\ forall r : DeltaDeltaRow,
            In r dd_cqs ->
            fc r = pow_exact F64.two (F64.opp (dd_cq r))
            /\ (F64.is_zero (dd_cq r) = true -> fc r = F64.one)
            /\ (dd_cq r = F64.opp F64.one -> fc r = F64.two)
            /\ (dd_cq r = F64.one -> fc r = F64.half)
            /\ (dd_cq r = F64.nan -> fc r = F64.nan)
            /\ (a_sample r = "Cal"%string ->
                isin (a_target r) ["Actin"%string] = false ->
                F64.is_finite (d_cq r) = true ->
                dd_cq r = F64.zero /\ fc r = F64.one).
Proof.
  split; [constructor; [intros s; reflexivity | reflexivity ..]|].
  split; [reflexivity|].
  apply (fold_change_of_rows (pow := pow_exact) worked ["Actin"%string] "Cal").
  - constructor; [intros s; reflexivity | reflexivity ..].
  - reflexivity.
Defined.

(** The worked scenario at stage 3, [q] bound to the module: the baseline of
    GeneX is the calibrator's d_cq, 5, and both GeneX rows have dd_cq 0 and
    fc 1; the rows of the internal control have no baseline. *)
Example worked_dd_cqs :
  exists dd_cqs,
    calculate_dd_cqs_with pow_exact (Some qpycr) (PyDataFrame worked)
      (PyList ["Actin"%string]) (PyStr "Cal")
    = Ok dd_cqs
    /\ map (fun r : DeltaDeltaRow => (avg_key r, d_cq_ic r, dd_cq r, fc r))
         dd_cqs
       = [ ("S1", "Actin", F64.nan, F64.nan, F64.nan);
           ("S1", "GeneX", num 5, F64.zero, F64.one);
           ("Cal", "Actin", F64.nan, F64.nan, F64.nan);
           ("Cal", "GeneX", num 5, F64.zero, F64.one) ]%string.
Proof.
  eexists. split; reflexivity.
Qed.

(* ------------------------------------------------------------------ *)
(** ** A calibrator that names no sample *)

(** C7, at [worked] with the calibrator "Absent".  The call raises the
    [NameError] of the name [q]; with [q] bound to the module the same call
    returns the four rows, dd_cq and fc NaN on each. *)
Theorem absent_calibrator_name_error :
  calculate_dd_cqs pow_exact (PyDataFrame worked) (PyList ["Actin"%string])
    (PyStr "Absent")
  = Raise (NameError "q")
  /\ exists dd_cqs,
       calculate_dd_cqs_with pow_exact (Some qpycr) (PyDataFrame worked)
         (PyList ["Actin"%string]) (PyStr "Absent")
       = Ok dd_cqs
       /\ map (fun r : DeltaDeltaRow => (avg_key r, dd_cq r, fc r)) dd_cqs
          = [ ("S1", "Actin", F64.nan, F64.nan);
              ("S1", "GeneX", F64.nan, F64.nan);
              ("Cal", "Actin", F64.nan, F64.nan);
              ("Cal", "GeneX", F64.nan, F64.nan) ]%string.
Proof.
  split; [reflexivity|]. eexists. split; reflexivity.
Qed.

(** With [q] bound to the module, a calibrator that names no sample gives a
    table with one row per stage-2 row and dd_cq and fc NaN on every row. *)
Lemma absent_calibrator_all_nan (pow : float -> float -> float)
    (df : DataFrame) (ics : list string) (cal : string) :
  pow_base_two pow ->
  has_required_columns df = true ->
  (forall rd : Reading, In rd (rows df) -> sample rd <> cal) ->
  exists d_cqs dd_cqs,
    calculate_d_cqs (PyDataFrame df) (PyList ics) = Ok d_cqs
    /\ calculate_dd_cqs_with pow (Some qpycr) (PyDataFrame df) (PyList ics)
         (PyStr cal)
       = Ok dd_cqs
    /\ map dd_delta dd_cqs = d_cqs
    /\ forall r : DeltaDeltaRow,
         In r dd_cqs -> dd_cq r = F64.nan /\ fc r = F64.nan.
Proof.
  intros Hpow Hcols Habs.
  pose proof (calculate_avg_cqs_rows df Hcols) as Havg.
  pose proof (calculate_d_cqs_rows df ics Havg) as Hd.
  destruct (calculate_d_cqs_distinct_pairs df ics Hcols) as (d_cqs & Hd' & Hnd).
  assert (Hrows : d_cqs
                  = map (fun r =>
                           delta_cq ics
                             (r, groupby_mean
                                   (map mean
                                      (control_rows ics (a_sample r)
                                         (map (aggregate_group (rows df))
                                            (drop_duplicates pair_eqb
                                               (map key_of (rows df))))))))
                        (map (aggregate_group (rows df))
                           (drop_duplicates pair_eqb (map key_of (rows df)))))
    by congruence.
  exists d_cqs. eexists. split; [exact Hd'|].
  split; [apply calculate_dd_cqs_with_rows; eassumption|]. split.
  - rewrite map_map. simpl. apply map_id.
  - assert (Hsamples : forall x : DeltaRow, In x d_cqs -> a_sample x <> cal).
    { intros x Hx. rewrite Hrows in Hx. apply in_map_iff in Hx.
      destruct Hx as (a & <- & Ha). apply in_map_iff in Ha.
      destruct Ha as ([s t] & <- & Hk). simpl.
      apply (proj1 (drop_duplicates_In pair_eqb pair_eqb_eq _ _)) in Hk.
      apply in_map_iff in Hk. destruct Hk as (rd & Hrd & Hin).
      injection Hrd as <- _. now apply Habs. }
    intros r Hr. apply in_map_iff in Hr. destruct Hr as (d & <- & Hin).
    assert (Hdd : dd_cq (fold_change pow (d, baseline_of ics cal d_cqs d))
                  = F64.nan).
    { simpl. rewrite baseline_of_absent_calibrator by exact Hsamples.
      apply sub_nan_r. }
    split; [exact Hdd|].
    now apply (fold_change_values Hpow d (baseline_of ics cal d_cqs d)).
Qed.

(* ------------------------------------------------------------------ *)
(** * Further properties of the three functions *)

(** ** Frames that lack a column *)

Lemma first_missing_column_none (df : DataFrame) :
  first_missing_column df = None <-> has_required_columns df = true.
Proof.
  unfold first_missing_column, has_required_columns. cbn [find].
  destruct (existsb (String.eqb "sample") (columns df));
    destruct (existsb (String.eqb "target") (columns df));
    destruct (existsb (String.eqb "cq") (columns df));
    cbn [negb andb]; split; intros H; try reflexivity; discriminate.
Qed.

Lemma calculate_avg_cqs_missing_column (df : DataFrame) (c : string) :
  first_missing_column df = Some c ->
  calculate_avg_cqs (PyDataFrame df) = Raise (KeyError c).
Proof.
  unfold first_missing_column, calculate_avg_cqs, column_lookup. cbn [find].
  destruct (existsb (String.eqb "sample") (columns df));
    destruct (existsb (String.eqb "target") (columns df));
    destruct (existsb (String.eqb "cq") (columns df));
    cbn [negb bind]; intros H; try discriminate; injection H as <-;
    reflexivity.
Qed.

Lemma first_missing_key_column (df : DataFrame) (c : string) :
  first_missing_key df = Some c -> first_missing_column df = Some c.
Proof.
  unfold first_missing_key, first_missing_column. cbn [find].
  destruct (existsb (String.eqb "sample") (columns df));
    destruct (existsb (String.eqb "target") (columns df));
    cbn [negb]; intros H; try discriminate; exact H.
Qed.

(** X1.  A frame that lacks the sample or the target column makes the
    group-by of [calculate_avg_cqs] raise the [KeyError] of the first of the
    two keys it lacks, and [calculate_d_cqs], called with a list, lets the
    same error through. *)
Theorem missing_column_key_error (df : DataFrame) (ics : list string)
    (c : string) :
  first_missing_key df = Some c ->
  calculate_avg_cqs (PyDataFrame df) = Raise (KeyError c)
  /\ calculate_d_cqs (PyDataFrame df) (PyList ics) = Raise (KeyError c).
Proof.
  intros Hc. apply first_missing_key_column in Hc.
  pose proof (calculate_avg_cqs_missing_column df Hc) as Havg.
  split; [exact Havg|].
  unfold calculate_d_cqs. rewrite Havg. reflexivity.
Qed.

Lemma missing_column_key_error_witness :
  first_missing_key (mkDataFrame ["sample"; "cq"]%string [])
  = Some "target"%string
  /\ calculate_avg_cqs (PyDataFrame (mkDataFrame ["sample"; "cq"]%string []))
     = Raise (KeyError "target")
  /\ calculate_d_cqs (PyDataFrame (mkDataFrame ["sample"; "cq"]%string []))
       (PyList ["Actin"%string])
     = Raise (KeyError "target").
Proof.
  split; [reflexivity|].
  apply (missing_column_key_error (mkDataFrame ["sample"; "cq"]%string [])
           ["Actin"%string]).
  reflexivity.
Defined.

Lemma calculate_avg_cqs_ok_columns (df : DataFrame) (avg_cqs : list AvgRow) :
  calculate_avg_cqs (PyDataFrame df) = Ok avg_cqs ->
  has_required_columns df = true.
Proof.
  intros Hok. apply first_missing_column_none.
  destruct (first_missing_column df) as [c|] eqn:E; [|reflexivity].
  rewrite (calculate_avg_cqs_missing_column df E) in Hok. discriminate.
Qed.

(** ** Stage 1: shape of the table *)

(** Every row of stage 1 carries the pair of some row of the input. *)
Lemma in_avg_rows_reading (rs : list Reading) (a : AvgRow) :
  In a (map (aggregate_group rs)
            (drop_duplicates pair_eqb (map key_of rs))) ->
  exists rd, In rd rs /\ sample rd = a_sample a /\ target rd = a_target a.
Proof.
  intros Ha. apply in_map_iff in Ha. destruct Ha as ([s t] & <- & Hk).
  apply (proj1 (drop_duplicates_In pair_eqb pair_eqb_eq _ _)) in Hk.
  apply in_map_iff in Hk. destruct Hk as (rd & Hrd & Hin).
  injection Hrd as Hs Ht. exists rd. simpl. auto.
Qed.

(** X2.  The merge of [calculate_avg_cqs] only reorders the group-by table:
    every pair of the left table has its group, no row is filled with
    missing values for lack of a match, and no group is lost. *)
Theorem calculate_avg_cqs_reorders_groupby (df : DataFrame) :
  has_required_columns df = true ->
  exists avg_cqs,
    calculate_avg_cqs (PyDataFrame df) = Ok avg_cqs
    /\ Permutation (groupby_sample_target (rows df)) avg_cqs.
Proof.
  intros Hcols. eexists. split; [apply calculate_avg_cqs_rows, Hcols|].
  unfold groupby_sample_target, group_keys.
  apply Permutation_map. apply sort_keys_perm.
Qed.

Lemma calculate_avg_cqs_reorders_groupby_witness :
  has_required_columns shuffled = true
  /\ exists avg_cqs,
       calculate_avg_cqs (PyDataFrame shuffled) = Ok avg_cqs
       /\ Permutation (groupby_sample_target (rows shuffled)) avg_cqs.
Proof.
  split; [reflexivity|].
  apply (calculate_avg_cqs_reorders_groupby shuffled). reflexivity.
Defined.

Section DropDuplicatesShape.

Variable K : Type.
Variable eqb : K -> K -> bool.
Hypothesis eqb_eq : forall a b, eqb a b = true <-> a = b.

Lemma drop_duplicates_from_length (l seen : list K) :
  List.length (drop_duplicates_from eqb seen l) <= List.length l.
Proof.
  revert seen. induction l as [|x t IH]; intros seen; simpl; [lia|].
  destruct (existsb (eqb x) seen); simpl.
  - specialize (IH seen). lia.
  - specialize (IH (x :: seen)). lia.
Qed.

(** What is kept of a list is kept of every list it starts. *)
Lemma drop_duplicates_from_app (l1 l2 seen : list K) :
  exists rest,
    drop_duplicates_from eqb seen (l1 ++ l2)
    = drop_duplicates_from eqb seen l1 ++ rest.
Proof.
  revert seen. induction l1 as [|x t IH]; intros seen; simpl.
  - eexists. reflexivity.
  - destruct (existsb (eqb x) seen).
    + apply IH.
    + destruct (IH (x :: seen)) as [rest Hrest].
      exists rest. rewrite Hrest. reflexivity.
Qed.

(** A list without repetition is kept as it is. *)
Lemma drop_duplicates_from_NoDup_id (l seen : list K) :
  NoDup l -> (forall x, In x l -> ~ In x seen) ->
  drop_duplicates_from eqb seen l = l.
Proof.
  revert seen. induction l as [|x t IH]; intros seen Hnd Hseen; simpl;
    [reflexivity|].
  inversion Hnd as [|? ? Hx Hnd']; subst.
  assert (E : existsb (eqb x) seen = false).
  { apply (existsb_eqb_not_In eqb eqb_eq). apply Hseen. now left. }
  rewrite E. f_equal. apply IH; [exact Hnd'|].
  intros y Hy [<-|Hin]; [contradiction|].
  apply (Hseen y); [now right | exact Hin].
Qed.

End DropDuplicatesShape.

(** X3.  The table of [calculate_avg_cqs] has no more rows than the input,
    and it has no row exactly when the input has none. *)
Theorem calculate_avg_cqs_row_count (df : DataFrame) :
  has_required_columns df = true ->
  exists avg_cqs,
    calculate_avg_cqs (PyDataFrame df) = Ok avg_cqs
    /\ List.length avg_cqs <= List.length (rows df)
    /\ (avg_cqs = [] <-> rows df = []).
Proof.
  intros Hcols. eexists. split; [apply calculate_avg_cqs_rows, Hcols|].
  split.
  - rewrite length_map. unfold drop_duplicates.
    rewrite <- (length_map key_of (rows df)).
    apply drop_duplicates_from_length.
  - destruct (rows df) as [|rd t]; simpl.
    + split; reflexivity.
    + split; discriminate.
Qed.

Lemma calculate_avg_cqs_row_count_witness :
  has_required_columns shuffled = true
  /\ exists avg_cqs,
       calculate_avg_cqs (PyDataFrame shuffled) = Ok avg_cqs
       /\ List.length avg_cqs <= List.length (rows shuffled)
       /\ (avg_cqs = [] <-> rows shuffled = []).
Proof.
  split; [reflexivity|].
  apply (calculate_avg_cqs_row_count shuffled). reflexivity.
Defined.

(** X4.  Readings appended to a table leave the rows of the pairs it already
    has where they are: the pairs of the old table start the pairs of the
    new one. *)
Theorem appended_readings_keep_row_order (cols : list string)
    (rs1 rs2 : list Reading) :
  has_required_columns (mkDataFrame cols rs1) = true ->
  exists avg_cqs1 avg_cqs12 rest,
    calculate_avg_cqs (PyDataFrame (mkDataFrame cols rs1)) = Ok avg_cqs1
    /\ calculate_avg_cqs (PyDataFrame (mkDataFrame cols (rs1 ++ rs2)))
       = Ok avg_cqs12
    /\ map avg_key avg_cqs12 = map avg_key avg_cqs1 ++ rest.
Proof.
  intros Hcols.
  destruct (drop_duplicates_from_app pair_eqb (map key_of rs1)
              (map key_of rs2) []) as [rest Hrest].
  eexists. eexists. exists rest.
  split; [apply calculate_avg_cqs_rows, Hcols|].
  split; [apply (calculate_avg_cqs_rows (mkDataFrame cols (rs1 ++ rs2))),
          Hcols|].
  rewrite !avg_key_aggregate_group. simpl. rewrite map_app. exact Hrest.
Qed.

Lemma appended_readings_keep_row_order_witness :
  has_required_columns
    (mkDataFrame ["sample"; "target"; "cq"]%string (rows shuffled)) = true
  /\ exists avg_cqs1 avg_cqs12 rest,
       calculate_avg_cqs
         (PyDataFrame
            (mkDataFrame ["sample"; "target"; "cq"]%string (rows shuffled)))
       = Ok avg_cqs1
       /\ calculate_avg_cqs
            (PyDataFrame
               (mkDataFrame ["sample"; "target"; "cq"]%string
                  (rows shuffled ++ rows worked)))
          = Ok avg_cqs12
       /\ map avg_key avg_cqs12 = map avg_key avg_cqs1 ++ rest.
Proof.
  split; [reflexivity|].
  apply (appended_readings_keep_row_order ["sample"; "target"; "cq"]%string
           (rows shuffled) (rows worked)).
  reflexivity.
Defined.

Lemma replicates_not_In (k : string * string) (rs : list Reading) :
  ~ In k (map key_of rs) -> replicates k rs = [].
Proof.
  unfold replicates. induction rs as [|rd t IH]; simpl; intros Hn;
    [reflexivity|].
  destruct (pair_eqb (key_of rd) k) eqn:E.
  - apply pair_eqb_eq in E. tauto.
  - apply IH. tauto.
Qed.

Lemma replicates_NoDup_length (k : string * string) (rs : list Reading) :
  NoDup (map key_of rs) -> List.length (replicates k rs) <= 1.
Proof.
  induction rs as [|rd t IH]; simpl; intros Hnd;
    [unfold replicates; simpl; lia|].
  inversion Hnd as [|? ? Hrd Hnd']; subst.
  unfold replicates. simpl. destruct (pair_eqb (key_of rd) k) eqn:E.
  - apply pair_eqb_eq in E. subst k. simpl.
    fold (replicates (key_of rd) t). rewrite (replicates_not_In _ _ Hrd).
    simpl. lia.
  - apply IH, Hnd'.
Qed.

Lemma notna_length (xs : list float) :
  List.length (notna xs) <= List.length xs.
Proof. apply filter_length_le. Qed.

Lemma groupby_std_few (xs : list float) :
  List.length (notna xs) <= 1 -> groupby_std xs = F64.nan.
Proof.
  intros Hle. unfold groupby_std, groupby_var.
  apply Nat.leb_le in Hle. rewrite Hle. reflexivity.
Qed.

(** X5.  A table with one reading per pair comes back row for row, in the same
    order, and without technical replicates every std is NaN. *)
Theorem single_readings_keep_rows (df : DataFrame) :
  has_required_columns df = true ->
  NoDup (map key_of (rows df)) ->
  exists avg_cqs,
    calculate_avg_cqs (PyDataFrame df) = Ok avg_cqs
    /\ map avg_key avg_cqs = map key_of (rows df)
    /\ forall r, In r avg_cqs -> std r = F64.nan.
Proof.
  intros Hcols Hnd. eexists. split; [apply calculate_avg_cqs_rows, Hcols|].
  split.
  - rewrite avg_key_aggregate_group. unfold drop_duplicates.
    apply (drop_duplicates_from_NoDup_id pair_eqb pair_eqb_eq); [exact Hnd|].
    intros x _ [].
  - intros r Hr. apply in_avg_rows in Hr. destruct Hr as [_ ->].
    apply groupby_std_few.
    eapply Nat.le_trans; [apply notna_length|].
    now apply replicates_NoDup_length.
Qed.

Lemma single_readings_keep_rows_witness :
  has_required_columns failed_target = true
  /\ NoDup (map key_of (rows failed_target))
  /\ exists avg_cqs,
       calculate_avg_cqs (PyDataFrame failed_target) = Ok avg_cqs
       /\ map avg_key avg_cqs = map key_of (rows failed_target)
       /\ forall r, In r avg_cqs -> std r = F64.nan.
Proof.
  assert (Hnd : NoDup (map key_of (rows failed_target))).
  { simpl. constructor.
    - intros [H|[]]. discriminate H.
    - constructor; [intros [] | constructor]. }
  split; [reflexivity|]. split; [exact Hnd|].
  apply (single_readings_keep_rows failed_target); [reflexivity | exact Hnd].
Defined.

Lemma notna_all_nan (xs : list float) :
  (forall x, In x xs -> F64.isnan x = true) -> notna xs = [].
Proof.
  induction xs as [|x t IH]; simpl; intros Hall; [reflexivity|].
  rewrite (Hall x (or_introl eq_refl)). simpl. apply IH.
  intros y Hy. apply Hall. now right.
Qed.

(** X6.  A pair whose reactions all failed has mean NaN and std NaN, and at
    stage 2 its d_cq is NaN whatever the internal controls are. *)
Theorem all_failed_pair_nan (df : DataFrame) (ics : list string) :
  has_required_columns df = true ->
  exists avg_cqs d_cqs,
    calculate_avg_cqs (PyDataFrame df) = Ok avg_cqs
    /\ calculate_d_cqs (PyDataFrame df) (PyList ics) = Ok d_cqs
    /\ (forall r,
          In r avg_cqs ->
          (forall x, In x (replicates (avg_key r) (rows df)) ->
                     F64.isnan x = true) ->
          mean r = F64.nan /\ std r = F64.nan)
    /\ (forall r : DeltaRow,
          In r d_cqs ->
          (forall x, In x (replicates (avg_key r) (rows df)) ->
                     F64.isnan x = true) ->
          d_cq r = F64.nan).
Proof.
  intros Hcols. pose proof (calculate_avg_cqs_rows df Hcols) as Havg.
  eexists. eexists. split; [exact Havg|].
  split; [apply (calculate_d_cqs_rows df ics Havg)|].
  assert (Hrow : forall r,
             In r (map (aggregate_group (rows df))
                       (drop_duplicates pair_eqb (map key_of (rows df)))) ->
             (forall x, In x (replicates (avg_key r) (rows df)) ->
                        F64.isnan x = true) ->
             mean r = F64.nan /\ std r = F64.nan).
  { intros r Hr Hall. apply in_avg_rows in Hr. destruct Hr as [-> ->].
    split.
    - unfold groupby_mean. now rewrite (notna_all_nan _ Hall).
    - apply groupby_std_few. rewrite (notna_all_nan _ Hall). simpl. lia. }
  split; [exact Hrow|].
  intros r Hr Hall. apply in_delta_rows in Hr. destruct Hr as (Hin & _ & ->).
  destruct (Hrow (d_avg r) Hin Hall) as [-> _].
  destruct (negb (isin (a_target r) ics)); reflexivity.
Qed.

Lemma all_failed_pair_nan_witness :
  has_required_columns failed_target = true
  /\ exists avg_cqs d_cqs,
       calculate_avg_cqs (PyDataFrame failed_target) = Ok avg_cqs
       /\ calculate_d_cqs (PyDataFrame failed_target)
            (PyList ["Actin"%string]) = Ok d_cqs
       /\ (forall r,
             In r avg_cqs ->
             (forall x, In x (replicates (avg_key r) (rows failed_target)) ->
                        F64.isnan x = true) ->
             mean r = F64.nan /\ std r = F64.nan)
       /\ (forall r : DeltaRow,
             In r d_cqs ->
             (forall x, In x (replicates (avg_key r) (rows failed_target)) ->
                        F64.isnan x = true) ->
             d_cq r = F64.nan).
Proof.
  split; [reflexivity|].
  apply (all_failed_pair_nan failed_target ["Actin"%string]). reflexivity.
Defined.

(** ** Stage 2: rows, controls *)

(** X9.  [calculate_d_cqs] returns one row per row of [calculate_avg_cqs], in
    the same order and with the same sample, target, mean and std, whatever
    the list of internal controls: its merge on sample duplicates no row. *)
Theorem calculate_d_cqs_keeps_stage1_rows (df : DataFrame) (ics : list string) :
  has_required_columns df = true ->
  exists avg_cqs d_cqs,
    calculate_avg_cqs (PyDataFrame df) = Ok avg_cqs
    /\ calculate_d_cqs (PyDataFrame df) (PyList ics) = Ok d_cqs
    /\ map d_avg d_cqs = avg_cqs.
Proof.
  intros Hcols. pose proof (calculate_avg_cqs_rows df Hcols) as Havg.
  eexists. eexists. split; [exact Havg|].
  split; [apply (calculate_d_cqs_rows df ics Havg)|].
  rewrite map_map. simpl. apply map_id.
Qed.

Lemma calculate_d_cqs_keeps_stage1_rows_witness :
  has_required_columns uneven_controls = true
  /\ exists avg_cqs d_cqs,
       calculate_avg_cqs (PyDataFrame uneven_controls) = Ok avg_cqs
       /\ calculate_d_cqs (PyDataFrame uneven_controls)
            (PyList ["Actin"; "Gapdh"]%string) = Ok d_cqs
       /\ map d_avg d_cqs = avg_cqs.
Proof.
  split; [reflexivity|].
  apply (calculate_d_cqs_keeps_stage1_rows uneven_controls). reflexivity.
Defined.

Lemma filter_all_false (X : Type) (f : X -> bool) (l : list X) :
  (forall x, In x l -> f x = false) -> filter f l = [].
Proof.
  induction l as [|y t IH]; simpl; intros Hall; [reflexivity|].
  rewrite (Hall y (or_introl eq_refl)). apply IH.
  intros x Hx. apply Hall. now right.
Qed.

(** X10.  In a sample none of whose readings is of an internal control, mean_ic
    and d_cq are NaN on every row; nothing is raised. *)
Theorem sample_without_control_nan (df : DataFrame) (ics : list string)
    (s : string) :
  has_required_columns df = true ->
  (forall rd,
     In rd (rows df) -> sample rd = s -> isin (target rd) ics = false) ->
  exists d_cqs,
    calculate_d_cqs (PyDataFrame df) (PyList ics) = Ok d_cqs
    /\ forall r : DeltaRow,
         In r d_cqs -> a_sample r = s ->
         mean_ic r = F64.nan /\ d_cq r = F64.nan.
Proof.
  intros Hcols Hnone. pose proof (calculate_avg_cqs_rows df Hcols) as Havg.
  eexists. split; [apply (calculate_d_cqs_rows df ics Havg)|].
  intros r Hr Hs. apply in_delta_rows in Hr. destruct Hr as (_ & Hm & Hd).
  assert (Hnil : control_rows ics (a_sample r)
                   (map (aggregate_group (rows df))
                      (drop_duplicates pair_eqb (map key_of (rows df)))) = []).
  { unfold control_rows. apply filter_all_false. intros a Ha.
    apply filter_In in Ha. destruct Ha as [Ha Hic].
    apply in_avg_rows_reading in Ha. destruct Ha as (rd & Hin & Hsa & Hta).
    apply String.eqb_neq. intros Heq.
    rewrite <- Hta, (Hnone rd Hin) in Hic; [discriminate|].
    now rewrite Hsa, Heq. }
  rewrite Hnil in Hm. simpl in Hm. split; [exact Hm|].
  rewrite Hd, Hm. destruct (negb (isin (a_target r) ics)); [|reflexivity].
  apply sub_nan_r.
Qed.

Lemma sample_without_control_nan_witness :
  has_required_columns calibrator_without_control = true
  /\ (forall rd,
        In rd (rows calibrator_without_control) -> sample rd = "Cal"%string ->
        isin (target rd) ["Actin"%string] = false)
  /\ exists d_cqs,
       calculate_d_cqs (PyDataFrame calibrator_without_control)
         (PyList ["Actin"%string]) = Ok d_cqs
       /\ forall r : DeltaRow,
            In r d_cqs -> a_sample r = "Cal"%string ->
            mean_ic r = F64.nan /\ d_cq r = F64.nan.
Proof.
  assert (H : forall rd,
             In rd (rows calibrator_without_control) ->
             sample rd = "Cal"%string ->
             isin (target rd) ["Actin"%string] = false).
  { intros rd [<-|[]] _. reflexivity. }
  split; [reflexivity|]. split; [exact H|].
  apply (sample_without_control_nan calibrator_without_control
           ["Actin"%string] (s := "Cal")); [reflexivity | exact H].
Defined.

(** X11.  The list of internal controls counts only through which targets of the
    table it holds: two lists that agree on every target of the table (a
    list reordered, with repeated names, or with names no reading has) give
    the same result. *)
Theorem internal_controls_by_membership (df : DataFrame)
    (ics1 ics2 : list string) :
  (forall rd, In rd (rows df) ->
              isin (target rd) ics1 = isin (target rd) ics2) ->
  calculate_d_cqs (PyDataFrame df) (PyList ics1)
  = calculate_d_cqs (PyDataFrame df) (PyList ics2).
Proof.
  intros Hsame.
  destruct (calculate_avg_cqs (PyDataFrame df)) as [avg_cqs|e] eqn:Havg.
  - pose proof (calculate_avg_cqs_ok_columns df Havg) as Hcols.
    pose proof (calculate_avg_cqs_rows df Hcols) as Hrows.
    rewrite (calculate_d_cqs_rows df ics1 Hrows),
            (calculate_d_cqs_rows df ics2 Hrows).
    f_equal.
    assert (Hisin : forall a,
               In a (map (aggregate_group (rows df))
                       (drop_duplicates pair_eqb (map key_of (rows df)))) ->
               isin (a_target a) ics1 = isin (a_target a) ics2).
    { intros a Ha. apply in_avg_rows_reading in Ha.
      destruct Ha as (rd & Hin & _ & <-). now apply Hsame. }
    apply map_ext_in. intros a Ha.
    assert (Hctl : control_rows ics1 (a_sample a)
                     (map (aggregate_group (rows df))
                        (drop_duplicates pair_eqb (map key_of (rows df))))
                   = control_rows ics2 (a_sample a)
                       (map (aggregate_group (rows df))
                          (drop_duplicates pair_eqb (map key_of (rows df))))).
    { unfold control_rows. f_equal. apply filter_ext_in. exact Hisin. }
    rewrite Hctl. unfold delta_cq. now rewrite (Hisin a Ha).
  - unfold calculate_d_cqs. rewrite Havg. reflexivity.
Qed.

Lemma internal_controls_by_membership_witness :
  (forall rd,
     In rd (rows failed_target) ->
     isin (target rd) ["Actin"%string]
     = isin (target rd) ["Gapdh"; "Actin"; "Actin"]%string)
  /\ calculate_d_cqs (PyDataFrame failed_target) (PyList ["Actin"%string])
     = calculate_d_cqs (PyDataFrame failed_target)
         (PyList ["Gapdh"; "Actin"; "Actin"]%string).
Proof.
  assert (H : forall rd,
             In rd (rows failed_target) ->
             isin (target rd) ["Actin"%string]
             = isin (target rd) ["Gapdh"; "Actin"; "Actin"]%string).
  { intros rd [<-|[<-|[]]]; reflexivity. }
  split; [exact H|].
  apply (internal_controls_by_membership failed_target
           ["Actin"%string] ["Gapdh"; "Actin"; "Actin"]%string H).
Defined.

(** ** The steps of calculate_dd_cqs after its first call *)

Lemma in_delta_delta_rows (pow : float -> float -> float) (ics : list string)
    (cal : string) (d_cqs : list DeltaRow) (r : DeltaDeltaRow) :
  In r (map (fun d => fold_change pow (d, baseline_of ics cal d_cqs d))
            d_cqs) ->
  In (dd_delta r) d_cqs
  /\ d_cq_ic r = baseline_of ics cal d_cqs r
  /\ dd_cq r = F64.sub (d_cq r) (d_cq_ic r)
  /\ fc r = pow F64.two (F64.opp (dd_cq r)).
Proof.
  rewrite in_map_iff. intros (d & <- & Hd). simpl. auto.
Qed.

(** X12.  With [q] bound to the module, [calculate_dd_cqs] returns one row per
    row of [calculate_d_cqs], in the same order and with the same six
    columns, whatever the calibrator: the calibrator has at most one row
    per target, so the merge on target duplicates no row. *)
Theorem calculate_dd_cqs_keeps_stage2_rows (pow : float -> float -> float)
    (df : DataFrame) (ics : list string) (cal : string) :
  has_required_columns df = true ->
  exists d_cqs dd_cqs,
    calculate_d_cqs (PyDataFrame df) (PyList ics) = Ok d_cqs
    /\ calculate_dd_cqs_with pow (Some qpycr) (PyDataFrame df) (PyList ics)
         (PyStr cal)
       = Ok dd_cqs
    /\ map dd_delta dd_cqs = d_cqs.
Proof.
  intros Hcols.
  destruct (calculate_d_cqs_distinct_pairs df ics Hcols) as (d_cqs & Hd & Hnd).
  exists d_cqs. eexists. split; [exact Hd|].
  split; [apply calculate_dd_cqs_with_rows; eassumption|].
  rewrite map_map. simpl. apply map_id.
Qed.

Lemma calculate_dd_cqs_keeps_stage2_rows_witness :
  has_required_columns worked = true
  /\ exists d_cqs dd_cqs,
       calculate_d_cqs (PyDataFrame worked) (PyList ["Actin"%string]) = Ok d_cqs
       /\ calculate_dd_cqs_with pow_exact (Some qpycr) (PyDataFrame worked)
            (PyList ["Actin"%string]) (PyStr "Cal")
          = Ok dd_cqs
       /\ map dd_delta dd_cqs = d_cqs.
Proof.
  split; [reflexivity|].
  apply (calculate_dd_cqs_keeps_stage2_rows pow_exact worked
           ["Actin"%string] "Cal").
  reflexivity.
Defined.

Lemma baseline_of_same_target (ics : list string) (cal : string)
    (d_cqs : list DeltaRow) (r1 r2 : DeltaRow) :
  a_target r1 = a_target r2 ->
  baseline_of ics cal d_cqs r1 = baseline_of ics cal d_cqs r2.
Proof. unfold baseline_of. now intros ->. Qed.

(** X13.  With [q] bound to the module, d_cq_ic is looked up by target alone:
    rows of the same target carry the same d_cq_ic, in every sample, and it
    is the d_cq of the calibrator's row of that target when the target is no
    internal control; dd_cq is then the row's d_cq minus the calibrator's. *)
Theorem d_cq_ic_by_target (pow : float -> float -> float) (df : DataFrame)
    (ics : list string) (cal : string) :
  has_required_columns df = true ->
  exists dd_cqs,
    calculate_dd_cqs_with pow (Some qpycr) (PyDataFrame df) (PyList ics)
      (PyStr cal)
    = Ok dd_cqs
    /\ (forall r1 r2 : DeltaDeltaRow,
          In r1 dd_cqs -> In r2 dd_cqs -> a_target r1 = a_target r2 ->
          d_cq_ic r1 = d_cq_ic r2)
    /\ (forall r c : DeltaDeltaRow,
          In r dd_cqs -> In c dd_cqs ->
          a_sample c = cal -> isin (a_target c) ics = false ->
          a_target r = a_target c ->
          d_cq_ic r = d_cq c /\ dd_cq r = F64.sub (d_cq r) (d_cq c)).
Proof.
  intros Hcols.
  destruct (calculate_d_cqs_distinct_pairs df ics Hcols) as (d_cqs & Hd & Hnd).
  eexists. split; [apply calculate_dd_cqs_with_rows; eassumption|]. split.
  - intros r1 r2 H1 H2 Ht.
    apply in_delta_delta_rows in H1. apply in_delta_delta_rows in H2.
    destruct H1 as (_ & -> & _), H2 as (_ & -> & _).
    now apply baseline_of_same_target.
  - intros r c Hr Hc Hs Hic Ht.
    apply in_delta_delta_rows in Hr. apply in_delta_delta_rows in Hc.
    destruct Hr as (_ & Hbr & Hddr & _), Hc as (Hinc & _).
    assert (Hb : d_cq_ic r = d_cq c).
    { rewrite Hbr.
      rewrite (baseline_of_same_target ics cal d_cqs r c Ht).
      now apply baseline_of_calibrator_row. }
    split; [exact Hb|]. now rewrite Hddr, Hb.
Qed.

Lemma d_cq_ic_by_target_witness :
  has_required_columns worked = true
  /\ exists dd_cqs,
       calculate_dd_cqs_with pow_exact (Some qpycr) (PyDataFrame worked)
         (PyList ["Actin"%string]) (PyStr "Cal")
       = Ok dd_cqs
       /\ (forall r1 r2 : DeltaDeltaRow,
             In r1 dd_cqs -> In r2 dd_cqs -> a_target r1 = a_target r2 ->
             d_cq_ic r1 = d_cq_ic r2)
       /\ (forall r c : DeltaDeltaRow,
             In r dd_cqs -> In c dd_cqs ->
             a_sample c = "Cal"%string ->
             isin (a_target c) ["Actin"%string] = false ->
             a_target r = a_target c ->
             d_cq_ic r = d_cq c /\ dd_cq r = F64.sub (d_cq r) (d_cq c)).
Proof.
  split; [reflexivity|].
  apply (d_cq_ic_by_target pow_exact worked ["Actin"%string] "Cal").
  reflexivity.
Defined.

Lemma find_calibrator_control (ics : list string) (cal t : string)
    (d_cqs : list DeltaRow) :
  isin t ics = true ->
  find (fun g => (t =? fst g)%string) (calibrator_d_cqs ics cal d_cqs) = None.
Proof.
  intros Hic. unfold calibrator_d_cqs.
  induction d_cqs as [|y l IH]; simpl; [reflexivity|].
  destruct ((a_sample y =? cal)%string && negb (isin (a_target y) ics)) eqn:E;
    [|exact IH].
  simpl. destruct (t =? a_target y)%string eqn:Et; [|exact IH].
  apply String.eqb_eq in Et. subst t.
  apply andb_true_iff in E. destruct E as [_ E].
  rewrite Hic in E. discriminate.
Qed.

(** X14.  With [q] bound to the module, the rows of the internal controls
    take no part in the second normalisation: their d_cq_ic, dd_cq and fc
    are NaN, in the calibrator as in every other sample. *)
Theorem control_rows_have_no_fold_change (pow : float -> float -> float)
    (df : DataFrame) (ics : list string) (cal : string) :
  pow F64.two F64.nan = F64.nan ->
  has_required_columns df = true ->
  exists dd_cqs,
    calculate_dd_cqs_with pow (Some qpycr) (PyDataFrame df) (PyList ics)
      (PyStr cal)
    = Ok dd_cqs
    /\ forall r : DeltaDeltaRow,
         In r dd_cqs -> isin (a_target r) ics = true ->
         d_cq_ic r = F64.nan /\ dd_cq r = F64.nan /\ fc r = F64.nan.
Proof.
  intros Hpow Hcols. pose proof (calculate_avg_cqs_rows df Hcols) as Havg.
  pose proof (calculate_d_cqs_rows df ics Havg) as Hd.
  destruct (calculate_d_cqs_distinct_pairs df ics Hcols) as (d_cqs & Hd' & Hnd).
  eexists. split; [apply calculate_dd_cqs_with_rows; eassumption|].
  intros r Hr Hic. apply in_delta_delta_rows in Hr.
  destruct Hr as (Hin & Hb & Hdd & Hfc).
  assert (Hdcq : d_cq r = F64.nan).
  { rewrite Hd in Hd'. injection Hd' as <-.
    apply in_delta_rows in Hin. destruct Hin as (_ & _ & ->).
    now rewrite Hic. }
  assert (Hbn : d_cq_ic r = F64.nan).
  { rewrite Hb. unfold baseline_of.
    now rewrite (find_calibrator_control ics cal (a_target r) d_cqs Hic). }
  assert (Hddn : dd_cq r = F64.nan) by (now rewrite Hdd, Hdcq).
  repeat split; try assumption. now rewrite Hfc, Hddn.
Qed.

Lemma control_rows_have_no_fold_change_witness :
  pow_exact F64.two F64.nan = F64.nan
  /\ has_required_columns worked = true
  /\ exists dd_cqs,
       calculate_dd_cqs_with pow_exact (Some qpycr) (PyDataFrame worked)
         (PyList ["Actin"%string]) (PyStr "Cal")
       = Ok dd_cqs
       /\ forall r : DeltaDeltaRow,
            In r dd_cqs -> isin (a_target r) ["Actin"%string] = true ->
            d_cq_ic r = F64.nan /\ dd_cq r = F64.nan /\ fc r = F64.nan.
Proof.
  split; [reflexivity|]. split; [reflexivity|].
  apply (control_rows_have_no_fold_change pow_exact worked
           ["Actin"%string] "Cal"); reflexivity.
Defined.

(** Every row of stage 2 carries the pair of some row of the input. *)
Lemma in_d_cqs_reading (df : DataFrame) (ics : list string)
    (d_cqs : list DeltaRow) (x : DeltaRow) :
  calculate_d_cqs (PyDataFrame df) (PyList ics) = Ok d_cqs ->
  In x d_cqs ->
  exists rd,
    In rd (rows df) /\ sample rd = a_sample x /\ target rd = a_target x.
Proof.
  intros Hd Hx.
  assert (Havg : exists avg_cqs,
             calculate_avg_cqs (PyDataFrame df) = Ok avg_cqs).
  { unfold calculate_d_cqs in Hd.
    destruct (calculate_avg_cqs (PyDataFrame df)) as [avg_cqs|e];
      [eauto | discriminate]. }
  destruct Havg as [avg_cqs Havg].
  pose proof (calculate_avg_cqs_ok_columns df Havg) as Hcols.
  pose proof (calculate_avg_cqs_rows df Hcols) as Hrows.
  rewrite (calculate_d_cqs_rows df ics Hrows) in Hd. injection Hd as <-.
  apply in_delta_rows in Hx. destruct Hx as (Hin & _).
  now apply in_avg_rows_reading in Hin.
Qed.

(** X15.  With [q] bound to the module, a calibrator that names no sample
    of the table raises nothing: every row of stage 2 is returned, with
    d_cq_ic, dd_cq and fc NaN. *)
Theorem absent_calibrator_no_baseline (pow : float -> float -> float)
    (df : DataFrame) (ics : list string) (cal : string) :
  pow F64.two F64.nan = F64.nan ->
  has_required_columns df = true ->
  (forall rd : Reading, In rd (rows df) -> sample rd <> cal) ->
  exists d_cqs dd_cqs,
    calculate_d_cqs (PyDataFrame df) (PyList ics) = Ok d_cqs
    /\ calculate_dd_cqs_with pow (Some qpycr) (PyDataFrame df) (PyList ics)
         (PyStr cal)
       = Ok dd_cqs
    /\ map dd_delta dd_cqs = d_cqs
    /\ forall r : DeltaDeltaRow,
         In r dd_cqs ->
         d_cq_ic r = F64.nan /\ dd_cq r = F64.nan /\ fc r = F64.nan.
Proof.
  intros Hpow Hcols Habs.
  destruct (calculate_d_cqs_distinct_pairs df ics Hcols) as (d_cqs & Hd & Hnd).
  exists d_cqs. eexists. split; [exact Hd|].
  split; [apply calculate_dd_cqs_with_rows; eassumption|]. split.
  - rewrite map_map. simpl. apply map_id.
  - assert (Hsamples : forall x : DeltaRow, In x d_cqs -> a_sample x <> cal).
    { intros x Hx.
      destruct (@in_d_cqs_reading df ics d_cqs x Hd Hx) as (rd & Hin & <- & _).
      now apply Habs. }
    intros r Hr. apply in_delta_delta_rows in Hr.
    destruct Hr as (_ & Hb & Hdd & Hfc).
    assert (Hbn : d_cq_ic r = F64.nan).
    { rewrite Hb. now apply baseline_of_absent_calibrator. }
    assert (Hddn : dd_cq r = F64.nan).
    { rewrite Hdd, Hbn. apply sub_nan_r. }
    repeat split; try assumption. now rewrite Hfc, Hddn.
Qed.

Lemma absent_calibrator_no_baseline_witness :
  pow_exact F64.two F64.nan = F64.nan
  /\ has_required_columns failed_target = true
  /\ (forall rd : Reading,
        In rd (rows failed_target) -> sample rd <> "Absent"%string)
  /\ exists d_cqs dd_cqs,
       calculate_d_cqs (PyDataFrame failed_target) (PyList ["Actin"%string])
       = Ok d_cqs
       /\ calculate_dd_cqs_with pow_exact (Some qpycr)
            (PyDataFrame failed_target) (PyList ["Actin"%string])
            (PyStr "Absent")
          = Ok dd_cqs
       /\ map dd_delta dd_cqs = d_cqs
       /\ forall r : DeltaDeltaRow,
            In r dd_cqs ->
            d_cq_ic r = F64.nan /\ dd_cq r = F64.nan /\ fc r = F64.nan.
Proof.
  assert (Habs : forall rd : Reading,
             In rd (rows failed_target) -> sample rd <> "Absent"%string).
  { intros rd [<-|[<-|[]]]; discriminate. }
  split; [reflexivity|]. split; [reflexivity|]. split; [exact Habs|].
  apply (@absent_calibrator_no_baseline pow_exact failed_target
           ["Actin"%string] "Absent" eq_refl eq_refl Habs).
Defined.

(* ------------------------------------------------------------------ *)
(** ** When the mean of a pair is NaN *)

Lemma add_finite_not_nan (a x : float) :
  F64.isnan a = false -> F64.is_finite x = true ->
  F64.isnan (F64.add a x) = false.
Proof.
  destruct a as [sa|sa| |sa ma ea], x as [sx|sx| |sx mx ex];
    simpl; try discriminate; intros _ _; try reflexivity.
  - destruct sa, sx; reflexivity.
  - apply binary_normalize_not_nan.
Qed.

Lemma fold_add_not_nan (xs : list float) (a : float) :
  F64.isnan a = false ->
  (forall x, In x xs -> F64.is_finite x = true) ->
  F64.isnan (fold_left F64.add xs a) = false.
Proof.
  revert a. induction xs as [|x t IH]; intros a Ha Hall; simpl; [exact Ha|].
  apply IH.
  - apply add_finite_not_nan; [exact Ha | apply Hall; now left].
  - intros y Hy. apply Hall. now right.
Qed.

(** Dividing a number by a positive finite number gives a number. *)
Lemma div_by_positive_not_nan (x : float) (m : positive) (e : Z) :
  F64.isnan x = false ->
  F64.isnan (F64.div x (S754_finite false m e)) = false.
Proof.
  destruct x as [sx|sx| |sx mx ex]; simpl; try discriminate; intros _;
    try reflexivity.
  unfold F64.div, SFdiv, SFdiv_core_binary.
  set (e' := Z.min _ _). set (s := (ex - e - e')%Z).
  set (m' := match s with
             | 0%Z => Z.pos mx
             | Z.pos _ => Z.shiftl (Z.pos mx) s
             | Z.neg _ => 0%Z
             end).
  assert (Hm' : (0 <= m')%Z).
  { unfold m'. destruct s; try lia. apply Z.shiftl_nonneg. lia. }
  destruct (Z.div_eucl m' (Z.pos m)) as [q r] eqn:E.
  assert (Hq : (0 <= q)%Z).
  { assert (Hdiv : q = (m' / Z.pos m)%Z) by (unfold Z.div; now rewrite E).
    rewrite Hdiv. apply Z.div_pos; lia. }
  now apply binary_round_aux_not_nan.
Qed.

Lemma digits2_pos_iter_xO (p k : positive) :
  digits2_pos (Pos.iter xO p k) = (digits2_pos p + k)%positive.
Proof.
  induction k as [|k IH] using Pos.peano_ind.
  - simpl. now rewrite Pos.add_1_r.
  - rewrite Pos.iter_succ. simpl. rewrite IH. now rewrite Pos.add_succ_r.
Qed.

Lemma digits2_pos_size (p : positive) : digits2_pos p = Pos.size p.
Proof. induction p as [p IH|p IH|]; simpl; now rewrite ?IH. Qed.

Lemma digits2_pos_bound (p : positive) :
  (Z.pos p < 2 ^ 53)%Z -> (Z.pos (digits2_pos p) <= 53)%Z.
Proof.
  intros Hp. rewrite digits2_pos_size.
  destruct (Z_le_gt_dec (Z.pos (Pos.size p)) 53) as [Hle|Hgt]; [exact Hle|].
  exfalso.
  pose proof (Pos.size_le p) as Hs.
  assert (H2 : (2 ^ Z.pos (Pos.size p) <= 2 * Z.pos p)%Z).
  { rewrite <- Pos2Z.inj_pow. change (2 * Z.pos p)%Z with (Z.pos p~0).
    apply Pos2Z.pos_le_pos. exact Hs. }
  assert (H3 : (2 ^ 54 <= 2 ^ Z.pos (Pos.size p))%Z)
    by (apply Z.pow_le_mono_r; lia).
  change (2 ^ 54)%Z with (2 * 2 ^ 53)%Z in H3. lia.
Qed.

(** A canonical mantissa is left as it is by the rounding. *)
Lemma binary_round_aux_canonical (sx : bool) (m : positive) (e : Z) :
  fexp F64.prec F64.emax (Z.pos (digits2_pos m) + e) = e ->
  binary_round_aux F64.prec F64.emax sx (Z.pos m) e loc_Exact
  = if (e <=? F64.emax - F64.prec)%Z then S754_finite sx m e
    else S754_infinity sx.
Proof.
  intros Hc. unfold binary_round_aux, shr_fexp.
  cbn [Zdigits2 shr_record_of_loc]. rewrite Hc, Z.sub_diag.
  cbn [shr shr_m loc_of_shr_record round_nearest_even Zdigits2
       shr_record_of_loc].
  rewrite Hc, Z.sub_diag. reflexivity.
Qed.

(** The count of a group is a positive float, below 2^53 rows. *)
Lemma of_nat_positive_finite (n : nat) :
  0 < n -> (Z.of_nat n < 2 ^ 53)%Z ->
  exists m e, F64.of_nat n = S754_finite false m e.
Proof.
  intros Hn Hlt. unfold F64.of_nat, F64.of_Z.
  destruct (Z.of_nat n) as [|p|p] eqn:E; try lia.
  cbn [binary_normalize]. unfold binary_round.
  pose proof (digits2_pos_bound Hlt) as Hd.
  assert (Hfexp : fexp F64.prec F64.emax (Z.pos (digits2_pos p) + 0)
                  = (Z.pos (digits2_pos p) - 53)%Z).
  { unfold fexp, emin, F64.prec, F64.emax. lia. }
  rewrite Hfexp. unfold shl_align.
  destruct (Z.pos (digits2_pos p) - 53 - 0)%Z as [|k|k] eqn:Ek; try lia.
  - rewrite binary_round_aux_canonical.
    + unfold F64.emax, F64.prec. simpl. eauto.
    + rewrite Hfexp. lia.
  - rewrite binary_round_aux_canonical.
    + destruct (Z.pos (digits2_pos p) - 53 <=? F64.emax - F64.prec)%Z eqn:El.
      * eauto.
      * apply Z.leb_gt in El. unfold F64.emax, F64.prec in El. lia.
    + rewrite digits2_pos_iter_xO, Pos2Z.inj_add.
      unfold fexp, emin, F64.prec, F64.emax. lia.
Qed.

Lemma notna_In (x : float) (xs : list float) :
  In x (notna xs) <-> In x xs /\ F64.isnan x = false.
Proof.
  unfold notna. rewrite filter_In. rewrite negb_true_iff. reflexivity.
Qed.

Lemma groupby_mean_not_nan (xs : list float) :
  (forall x, In x xs -> F64.isnan x = true \/ F64.is_finite x = true) ->
  (Z.of_nat (List.length xs) < 2 ^ 53)%Z ->
  notna xs <> [] ->
  F64.isnan (groupby_mean xs) = false.
Proof.
  intros Hall Hlen Hne. unfold groupby_mean.
  destruct (notna xs) as [|y ys] eqn:E; [contradiction|].
  pose proof (notna_length xs) as Hle. rewrite E in Hle.
  destruct (@of_nat_positive_finite (List.length (y :: ys)))
    as (m & e & Hcount);
    [simpl; lia | lia |].
  rewrite Hcount. apply div_by_positive_not_nan.
  apply fold_add_not_nan; [reflexivity|].
  intros x Hx. rewrite <- E in Hx. apply notna_In in Hx.
  destruct Hx as [Hin Hnan].
  destruct (Hall x Hin) as [H|H]; [congruence|exact H].
Qed.

Lemma replicates_In (k : string * string) (rs : list Reading) (x : float) :
  In x (replicates k rs) -> exists rd, In rd rs /\ cq rd = x.
Proof.
  unfold replicates. rewrite in_map_iff. intros (rd & Hx & Hin).
  apply filter_In in Hin. exists rd. tauto.
Qed.

Lemma replicates_length (k : string * string) (rs : list Reading) :
  List.length (replicates k rs) <= List.length rs.
Proof.
  unfold replicates. rewrite length_map. apply filter_length_le.
Qed.

Lemma notna_nil_all_nan (xs : list float) :
  notna xs = [] -> forall x, In x xs -> F64.isnan x = true.
Proof.
  intros Hnil x Hx. destruct (F64.isnan x) eqn:E; [reflexivity|].
  assert (Hin : In x (notna xs)) by (apply notna_In; auto).
  rewrite Hnil in Hin. contradiction.
Qed.

Lemma is_moderate_finite (x : float) :
  is_moderate x = true -> F64.is_finite x = true.
Proof. destruct x; simpl; try discriminate; reflexivity. Qed.

(** X7.  In a table of fewer than 2^53 rows whose cq values are NaN or
    finite numbers of moderate size, the mean of a pair is NaN exactly when
    all the reactions of the pair failed: one valid replicate is enough for
    a mean. *)
Theorem mean_nan_iff_all_failed (df : DataFrame) :
  has_required_columns df = true ->
  (forall rd, In rd (rows df) ->
              F64.isnan (cq rd) = true \/ is_moderate (cq rd) = true) ->
  (Z.of_nat (List.length (rows df)) < 2 ^ 53)%Z ->
  exists avg_cqs,
    calculate_avg_cqs (PyDataFrame df) = Ok avg_cqs
    /\ forall r,
         In r avg_cqs ->
         (F64.isnan (mean r) = true <->
          forall x, In x (replicates (avg_key r) (rows df)) ->
                    F64.isnan x = true).
Proof.
  intros Hcols Hvals Hlen. eexists.
  split; [apply calculate_avg_cqs_rows, Hcols|].
  intros r Hr. apply in_avg_rows in Hr. destruct Hr as [-> _]. split.
  - intros Hnan. apply notna_nil_all_nan.
    destruct (notna (replicates (avg_key r) (rows df))) as [|y ys] eqn:E;
      [reflexivity|].
    rewrite groupby_mean_not_nan in Hnan; [discriminate| | |].
    + intros x Hx. apply replicates_In in Hx. destruct Hx as (rd & Hin & <-).
      destruct (Hvals rd Hin) as [H|H]; [now left|].
      right. now apply is_moderate_finite.
    + pose proof (replicates_length (avg_key r) (rows df)). lia.
    + rewrite E. discriminate.
  - intros Hall. unfold groupby_mean. now rewrite (notna_all_nan _ Hall).
Qed.

Lemma mean_nan_iff_all_failed_witness :
  has_required_columns failed_replicate = true
  /\ (forall rd, In rd (rows failed_replicate) ->
                 F64.isnan (cq rd) = true \/ is_moderate (cq rd) = true)
  /\ (Z.of_nat (List.length (rows failed_replicate)) < 2 ^ 53)%Z
  /\ exists avg_cqs,
       calculate_avg_cqs (PyDataFrame failed_replicate) = Ok avg_cqs
       /\ forall r,
            In r avg_cqs ->
            (F64.isnan (mean r) = true <->
             forall x, In x (replicates (avg_key r) (rows failed_replicate)) ->
                       F64.isnan x = true).
Proof.
  assert (Hvals : forall rd, In rd (rows failed_replicate) ->
                    F64.isnan (cq rd) = true \/ is_moderate (cq rd) = true).
  { intros rd [<-|[<-|[]]]; [right | left]; reflexivity. }
  split; [reflexivity|]. split; [exact Hvals|]. split; [reflexivity|].
  apply (mean_nan_iff_all_failed failed_replicate eq_refl Hvals).
  reflexivity.
Defined.

(* ------------------------------------------------------------------ *)
(** ** When the std of a pair is NaN *)

Lemma is_nonneg_not_nan (x : float) :
  is_nonneg x = true -> F64.isnan x = false.
Proof. destruct x as [s|s| |s m e]; simpl; try discriminate; reflexivity. Qed.

Section RoundingSign.

Variables prec emax : Z.

Lemma binary_round_aux_nonneg (mx ex : Z) (lx : location) :
  (0 <= mx)%Z -> is_nonneg (binary_round_aux prec emax false mx ex lx) = true.
Proof.
  intros Hm. unfold binary_round_aux.
  pose proof (shr_fexp_nonneg prec emax ex lx Hm) as H1.
  destruct (shr_fexp prec emax mx ex lx) as [mrs' e']. simpl in H1.
  pose proof (shr_fexp_nonneg prec emax e' loc_Exact
                (round_nearest_even_nonneg (loc_of_shr_record mrs') H1)) as H2.
  destruct (shr_fexp prec emax
              (round_nearest_even (shr_m mrs') (loc_of_shr_record mrs')) e'
              loc_Exact) as [mrs'' e'']. simpl in H2.
  destruct (shr_m mrs'') as [|p|p]; [reflexivity | | lia].
  destruct (e'' <=? emax - prec)%Z; reflexivity.
Qed.

End RoundingSign.

Lemma square_nonneg (x : float) :
  F64.isnan x = false -> is_nonneg (square x) = true.
Proof.
  destruct x as [s|s| |s m e]; simpl; try discriminate; intros _.
  - reflexivity.
  - destruct s; reflexivity.
  - unfold square, F64.mul, SFmul. rewrite xorb_nilpotent.
    apply binary_round_aux_nonneg. lia.
Qed.

Lemma add_nonneg (a x : float) :
  is_nonneg a = true -> is_nonneg x = true -> is_nonneg (F64.add a x) = true.
Proof.
  destruct a as [sa|[|]| |[|] ma ea], x as [sx|[|]| |[|] mx ex];
    simpl; try discriminate; intros _ _; try reflexivity.
  - destruct sa, sx; reflexivity.
  - unfold binary_round. destruct (shl_align _ _ _).
    apply binary_round_aux_nonneg. lia.
Qed.

Lemma fold_add_nonneg (xs : list float) (a : float) :
  is_nonneg a = true ->
  (forall x, In x xs -> is_nonneg x = true) ->
  is_nonneg (fold_left F64.add xs a) = true.
Proof.
  revert a. induction xs as [|x t IH]; intros a Ha Hall; simpl; [exact Ha|].
  apply IH.
  - apply add_nonneg; [exact Ha | apply Hall; now left].
  - intros y Hy. apply Hall. now right.
Qed.

Lemma div_nonneg_by_positive (x : float) (m : positive) (e : Z) :
  is_nonneg x = true ->
  is_nonneg (F64.div x (S754_finite false m e)) = true.
Proof.
  destruct x as [sx|[|]| |[|] mx ex]; simpl; try discriminate; intros _;
    try reflexivity.
  unfold F64.div, SFdiv, SFdiv_core_binary.
  set (e' := Z.min _ _). set (s := (ex - e - e')%Z).
  set (m' := match s with
             | 0%Z => Z.pos mx
             | Z.pos _ => Z.shiftl (Z.pos mx) s
             | Z.neg _ => 0%Z
             end).
  assert (Hm' : (0 <= m')%Z).
  { unfold m'. destruct s; try lia. apply Z.shiftl_nonneg. lia. }
  destruct (Z.div_eucl m' (Z.pos m)) as [q r] eqn:E.
  assert (Hq : (0 <= q)%Z).
  { assert (Hdiv : q = (m' / Z.pos m)%Z) by (unfold Z.div; now rewrite E).
    rewrite Hdiv. apply Z.div_pos; lia. }
  simpl. now apply binary_round_aux_nonneg.
Qed.

Lemma sqrt_nonneg_not_nan (x : float) :
  is_nonneg x = true -> F64.isnan (F64.sqrt x) = false.
Proof.
  destruct x as [sx|[|]| |[|] mx ex]; simpl; try discriminate; intros _;
    try reflexivity.
  unfold F64.sqrt, SFsqrt, SFsqrt_core_binary.
  set (e' := Z.min _ _). set (s := (ex - 2 * e')%Z).
  set (m' := match s with
             | 0%Z => Z.pos mx
             | Z.pos _ => Z.shiftl (Z.pos mx) s
             | Z.neg _ => 0%Z
             end).
  assert (Hm' : (0 <= m')%Z).
  { unfold m'. destruct s; try lia. apply Z.shiftl_nonneg. lia. }
  pose proof (Z.sqrtrem_spec m' Hm') as Hspec.
  destruct (Z.sqrtrem m') as [q r].
  apply binary_round_aux_not_nan. lia.
Qed.

(** The difference between a finite number and a number is a number. *)
Lemma sub_finite_number_not_nan (y m : float) :
  F64.is_finite y = true -> F64.isnan m = false ->
  F64.isnan (F64.sub y m) = false.
Proof.
  intros Hy Hm. destruct (F64.is_finite m) eqn:Hf.
  - now apply sub_finite_not_nan.
  - destruct y as [sy|sy| |sy my ey], m as [sm|sm| |sm mm em];
      simpl in *; try discriminate; reflexivity.
Qed.

Lemma groupby_std_not_nan (xs : list float) :
  (forall x, In x xs -> F64.isnan x = true \/ F64.is_finite x = true) ->
  (Z.of_nat (List.length xs) < 2 ^ 53)%Z ->
  2 <= List.length (notna xs) ->
  F64.isnan (groupby_std xs) = false.
Proof.
  intros Hall Hlen Hge. unfold groupby_std, groupby_var.
  pose proof (notna_length xs) as Hle.
  assert (Hfin : forall y, In y (notna xs) -> F64.is_finite y = true).
  { intros y Hy. apply notna_In in Hy. destruct Hy as [Hin Hnan].
    destruct (Hall y Hin) as [H|H]; [congruence | exact H]. }
  set (ys := notna xs) in *.
  assert (Hleb : (List.length ys <=? 1) = false) by (apply Nat.leb_gt; lia).
  rewrite Hleb.
  destruct (@of_nat_positive_finite (List.length ys)) as (m & e & Hcount);
    [lia | lia |].
  destruct (@of_nat_positive_finite (List.length ys - 1))
    as (m1 & e1 & Hcount1);
    [lia | lia |].
  rewrite Hcount, Hcount1.
  apply sqrt_nonneg_not_nan, div_nonneg_by_positive.
  apply fold_add_nonneg; [reflexivity|].
  intros sq Hsq. apply in_map_iff in Hsq. destruct Hsq as (y & <- & Hy).
  apply square_nonneg, sub_finite_number_not_nan; [now apply Hfin|].
  apply div_by_positive_not_nan, fold_add_not_nan; [reflexivity | exact Hfin].
Qed.

(** X8.  In a table of fewer than 2^53 rows whose cq values are NaN or
    finite numbers of moderate size, the std of a pair is NaN exactly when
    fewer than two of its reactions succeeded. *)
Theorem std_nan_iff_few_valid (df : DataFrame) :
  has_required_columns df = true ->
  (forall rd, In rd (rows df) ->
              F64.isnan (cq rd) = true \/ is_moderate (cq rd) = true) ->
  (Z.of_nat (List.length (rows df)) < 2 ^ 53)%Z ->
  exists avg_cqs,
    calculate_avg_cqs (PyDataFrame df) = Ok avg_cqs
    /\ forall r,
         In r avg_cqs ->
         (F64.isnan (std r) = true <->
          List.length (notna (replicates (avg_key r) (rows df))) < 2).
Proof.
  intros Hcols Hvals Hlen. eexists.
  split; [apply calculate_avg_cqs_rows, Hcols|].
  intros r Hr. apply in_avg_rows in Hr. destruct Hr as [_ ->]. split.
  - intros Hnan.
    destruct (Nat.lt_ge_cases
                (List.length (notna (replicates (avg_key r) (rows df)))) 2)
      as [Hlt|Hge]; [exact Hlt|].
    rewrite groupby_std_not_nan in Hnan; [discriminate| | |exact Hge].
    + intros x Hx. apply replicates_In in Hx. destruct Hx as (rd & Hin & <-).
      destruct (Hvals rd Hin) as [H|H]; [now left|].
      right. now apply is_moderate_finite.
    + pose proof (replicates_length (avg_key r) (rows df)). lia.
  - intros Hlt. rewrite groupby_std_few by lia. reflexivity.
Qed.

Lemma std_nan_iff_few_valid_witness :
  has_required_columns two_valid_one_failed = true
  /\ (forall rd, In rd (rows two_valid_one_failed) ->
                 F64.isnan (cq rd) = true \/ is_moderate (cq rd) = true)
  /\ (Z.of_nat (List.length (rows two_valid_one_failed)) < 2 ^ 53)%Z
  /\ exists avg_cqs,
       calculate_avg_cqs (PyDataFrame two_valid_one_failed) = Ok avg_cqs
       /\ forall r,
            In r avg_cqs ->
            (F64.isnan (std r) = true <->
             List.length
               (notna (replicates (avg_key r) (rows two_valid_one_failed)))
             < 2).
Proof.
  assert (Hvals : forall rd, In rd (rows two_valid_one_failed) ->
                    F64.isnan (cq rd) = true \/ is_moderate (cq rd) = true).
  { intros rd [<-|[<-|[<-|[]]]]; [right | right | left]; reflexivity. }
  split; [reflexivity|]. split; [exact Hvals|]. split; [reflexivity|].
  apply (std_nan_iff_few_valid two_valid_one_failed eq_refl Hvals).
  reflexivity.
Defined.

(* ------------------------------------------------------------------ *)
(** * The values of the aggregates, up to rounding *)

Section RoundingError.

Local Open Scope R_scope.

(** ** Powers of two *)

Lemma bpow_pos (e : Z) : 0 < bpow e.
Proof. apply powerRZ_lt; lra. Qed.

Lemma bpow_add (a b : Z) : bpow (a + b) = bpow a * bpow b.
Proof. apply powerRZ_add; lra. Qed.

Lemma bpow_0 : bpow 0 = 1.
Proof. reflexivity. Qed.

Lemma bpow_1 : bpow 1 = 2.
Proof. unfold bpow; simpl; lra. Qed.

Lemma bpow_m1 : bpow (-1) = / 2.
Proof. unfold bpow; simpl; f_equal; lra. Qed.

Lemma bpow_succ (e : Z) : bpow (e + 1) = 2 * bpow e.
Proof. rewrite bpow_add, bpow_1; lra. Qed.

Lemma bpow_ge_1 (e : Z) : (0 <= e)%Z -> 1 <= bpow e.
Proof.
  intros He. unfold bpow.
  rewrite <- (Z2Nat.id e) by assumption.
  rewrite <- pow_powerRZ.
  apply pow_R1_Rle; lra.
Qed.

Lemma bpow_le (a b : Z) : (a <= b)%Z -> bpow a <= bpow b.
Proof.
  intros H. replace b with (a + (b - a))%Z by lia.
  rewrite bpow_add.
  assert (1 <= bpow (b - a)) by (apply bpow_ge_1; lia).
  pose proof (bpow_pos a). nra.
Qed.

Lemma bpow_lt (a b : Z) : (a < b)%Z -> bpow a < bpow b.
Proof.
  intros H.
  apply Rlt_le_trans with (bpow (a + 1)).
  - rewrite bpow_succ. pose proof (bpow_pos a). lra.
  - apply bpow_le; lia.
Qed.

Lemma bpow_lt_inv (a b : Z) : bpow a < bpow b -> (a < b)%Z.
Proof.
  intros H. destruct (Z_lt_le_dec a b) as [Hlt|Hle]; [assumption|].
  apply bpow_le in Hle. lra.
Qed.

Lemma bpow_le_inv (a b : Z) : bpow a <= bpow b -> (a <= b)%Z.
Proof.
  intros H. destruct (Z_le_gt_dec a b) as [Hle|Hgt]; [assumption|].
  assert (bpow b < bpow a) by (apply bpow_lt; lia). lra.
Qed.

Lemma bpow_opp_r (x : R) (e : Z) : x * bpow (- e) * bpow e = x.
Proof.
  rewrite Rmult_assoc, <- bpow_add.
  replace (- e + e)%Z with 0%Z by lia. rewrite bpow_0. lra.
Qed.

Lemma bpow_3 : bpow 3 = 8.
Proof.
  replace 3%Z with (1 + (1 + 1))%Z by lia.
  rewrite !bpow_add, bpow_1. lra.
Qed.

Lemma bpow_4 : bpow 4 = 16.
Proof.
  replace 4%Z with (1 + 3)%Z by lia. rewrite bpow_add, bpow_1, bpow_3. lra.
Qed.

Lemma bpow_m3 : bpow (-3) = / 8.
Proof.
  replace (-3)%Z with (-1 + (-1 + -1))%Z by lia.
  rewrite !bpow_add, bpow_m1. lra.
Qed.

Lemma bpow_m51 : bpow (-51) = 2 * bpow (-52).
Proof. rewrite <- bpow_succ. reflexivity. Qed.

Lemma bpow_m1073 : bpow (-1073) = 2 * bpow (-1074).
Proof. rewrite <- bpow_succ. reflexivity. Qed.

Lemma bpow_m52_le_1 : bpow (-52) <= 1.
Proof. rewrite <- bpow_0. apply bpow_le. lia. Qed.

Lemma IZR_pow2 (s : Z) : (0 <= s)%Z -> IZR (2 ^ s) = bpow s.
Proof.
  intros Hs. destruct s as [|p|p]; try lia.
  - reflexivity.
  - change (2 ^ Zpos p)%Z with (Z.pow_pos 2 p).
    rewrite Zpower_pos_powerRZ. reflexivity.
Qed.

Lemma INR_le_bpow (n : nat) (k : Z) :
  (0 <= k)%Z -> (Z.of_nat n <= 2 ^ k)%Z -> INR n <= bpow k.
Proof.
  intros Hk H. rewrite INR_IZR_INZ, <- IZR_pow2 by assumption.
  now apply IZR_le.
Qed.

(** ** Absolute values and sums *)

Lemma Rabs_le_bounds (a b : R) : Rabs a <= b -> - b <= a <= b.
Proof.
  intros H. pose proof (Rle_abs a) as H1. pose proof (Rle_abs (- a)) as H2.
  rewrite Rabs_Ropp in H2. lra.
Qed.

Lemma Rabs_between (a b c : R) : Rabs (a - c) <= Rabs (a - b) + Rabs (b - c).
Proof.
  replace (a - c) with ((a - b) + (b - c)) by lra. apply Rabs_triang.
Qed.

Lemma Rabs_le_add (a b : R) : Rabs a <= Rabs (a - b) + Rabs b.
Proof.
  replace a with ((a - b) + b) at 1 by lra. apply Rabs_triang.
Qed.

Lemma Rabs_sq_diff (d a : R) :
  Rabs (d * d - a * a) <= Rabs (d - a) * (Rabs d + Rabs a).
Proof.
  replace (d * d - a * a) with ((d - a) * (d + a)) by ring.
  rewrite Rabs_mult.
  apply Rmult_le_compat_l; [apply Rabs_pos|apply Rabs_triang].
Qed.

Lemma Rle_div_r' (a b c : R) : 0 < c -> a * c <= b -> a <= b / c.
Proof.
  intros Hc H. apply Rmult_le_reg_r with c; [exact Hc|].
  unfold Rdiv. rewrite Rmult_assoc, Rinv_l by lra. lra.
Qed.

Lemma Rsum_cons (x : R) (l : list R) : Rsum (x :: l) = x + Rsum l.
Proof. reflexivity. Qed.

Lemma Rsum_abs_le (Y : R) (l : list R) :
  (forall x, In x l -> Rabs x <= Y) ->
  Rabs (Rsum l) <= INR (List.length l) * Y.
Proof.
  induction l as [|x t IH]; intros H.
  - simpl. rewrite Rabs_R0. lra.
  - rewrite Rsum_cons. cbn [List.length]. rewrite S_INR.
    apply Rle_trans with (1 := Rabs_triang _ _).
    assert (Rabs x <= Y) by (apply H; now left).
    assert (Rabs (Rsum t) <= INR (List.length t) * Y)
      by (apply IH; intros z Hz; apply H; now right).
    lra.
Qed.

Lemma Rsum_map_diff (A : Type) (f g : A -> R) (k : R) (l : list A) :
  (forall x, In x l -> Rabs (f x - g x) <= k) ->
  Rabs (Rsum (map f l) - Rsum (map g l)) <= INR (List.length l) * k.
Proof.
  induction l as [|x t IH]; intros H.
  - simpl. rewrite Rminus_diag, Rabs_R0. lra.
  - cbn [map List.length]. rewrite !Rsum_cons, S_INR.
    replace (f x + Rsum (map f t) - (g x + Rsum (map g t)))
      with ((f x - g x) + (Rsum (map f t) - Rsum (map g t))) by lra.
    apply Rle_trans with (1 := Rabs_triang _ _).
    assert (Rabs (f x - g x) <= k) by (apply H; now left).
    assert (Rabs (Rsum (map f t) - Rsum (map g t)) <= INR (List.length t) * k)
      by (apply IH; intros z Hz; apply H; now right).
    lra.
Qed.

(** ** The digits of a mantissa *)

Lemma IZR_xO (p : positive) : IZR (Zpos p~0) = 2 * IZR (Zpos p).
Proof. rewrite Pos2Z.inj_xO, mult_IZR; reflexivity. Qed.

Lemma IZR_xI (p : positive) : IZR (Zpos p~1) = 2 * IZR (Zpos p) + 1.
Proof. rewrite Pos2Z.inj_xI, plus_IZR, mult_IZR; reflexivity. Qed.

Lemma IZR_pos_ge_1 (p : positive) : 1 <= IZR (Zpos p).
Proof. apply IZR_le; lia. Qed.

Lemma IZR_iter_xO (p d : positive) :
  IZR (Zpos (Pos.iter xO p d)) = IZR (Zpos p) * bpow (Zpos d).
Proof.
  induction d as [|d IH] using Pos.peano_ind.
  - cbn [Pos.iter]. rewrite IZR_xO, bpow_1. lra.
  - rewrite Pos.iter_succ, IZR_xO, IH, Pos2Z.inj_succ. unfold Z.succ.
    rewrite bpow_succ. lra.
Qed.

(** A mantissa of d digits lies in [2^(d-1), 2^d - 1]. *)
Lemma digits2_lower (p : positive) :
  bpow (Zpos (digits2_pos p) - 1) <= IZR (Zpos p).
Proof.
  induction p as [p IH|p IH|]; cbn [digits2_pos].
  - rewrite Pos2Z.inj_succ, IZR_xI.
    replace (Z.succ (Zpos (digits2_pos p)) - 1)%Z
      with ((Zpos (digits2_pos p) - 1) + 1)%Z by lia.
    rewrite bpow_succ. lra.
  - rewrite Pos2Z.inj_succ, IZR_xO.
    replace (Z.succ (Zpos (digits2_pos p)) - 1)%Z
      with ((Zpos (digits2_pos p) - 1) + 1)%Z by lia.
    rewrite bpow_succ. lra.
  - change (bpow 0 <= 1). rewrite bpow_0. lra.
Qed.

Lemma digits2_upper (p : positive) :
  IZR (Zpos p) + 1 <= bpow (Zpos (digits2_pos p)).
Proof.
  induction p as [p IH|p IH|]; cbn [digits2_pos].
  - rewrite Pos2Z.inj_succ, IZR_xI. unfold Z.succ. rewrite bpow_succ. lra.
  - rewrite Pos2Z.inj_succ, IZR_xO. unfold Z.succ. rewrite bpow_succ. lra.
  - rewrite bpow_1. lra.
Qed.

(** The unit in the last place of a number is at most 2^-52 times the
    number, or the unit of the subnormal numbers. *)
Lemma fexp_bpow (m e : Z) :
  (0 < m)%Z ->
  bpow (fexp 53 1024 (Zdigits2 m + e))
  <= bpow (-52) * (IZR m * bpow e) + bpow (-1074).
Proof.
  intros Hm. destruct m as [|p|p]; try lia. cbn [Zdigits2].
  pose proof (digits2_lower p) as Hd.
  pose proof (bpow_pos e) as He. pose proof (bpow_pos (-52)) as H52.
  pose proof (bpow_pos (-1074)) as Hη.
  assert (Hp : 0 < IZR (Zpos p)) by (apply IZR_lt; lia).
  unfold fexp, emin.
  destruct (Z.max_spec (Zpos (digits2_pos p) + e - 53) (3 - 1024 - 53))
    as [[_ ->]|[_ ->]].
  - change (3 - 1024 - 53)%Z with (-1074)%Z.
    assert (0 <= bpow (-52) * (IZR (Zpos p) * bpow e)) by
      (apply Rmult_le_pos; [lra|apply Rmult_le_pos; lra]).
    lra.
  - replace (Zpos (digits2_pos p) + e - 53)%Z
      with (-52 + ((Zpos (digits2_pos p) - 1) + e))%Z by lia.
    rewrite !bpow_add.
    assert (bpow (-52) * (bpow (Zpos (digits2_pos p) - 1) * bpow e)
            <= bpow (-52) * (IZR (Zpos p) * bpow e)).
    { apply Rmult_le_compat_l; [lra|]. apply Rmult_le_compat_r; lra. }
    lra.
Qed.

Lemma fexp_le_of_value (m e W : Z) :
  (0 < m)%Z -> IZR m * bpow e < bpow (W + 1) ->
  (fexp 53 1024 (Zdigits2 m + e) <= Z.max (W - 52) (-1074))%Z.
Proof.
  intros Hm Hv. destruct m as [|p|p]; try lia. cbn [Zdigits2].
  pose proof (digits2_lower p) as Hd.
  pose proof (bpow_pos e) as He.
  assert (Hlt : bpow ((Zpos (digits2_pos p) - 1) + e) < bpow (W + 1)).
  { rewrite bpow_add.
    apply Rle_lt_trans with (IZR (Zpos p) * bpow e); [|exact Hv].
    apply Rmult_le_compat_r; lra. }
  apply bpow_lt_inv in Hlt.
  unfold fexp, emin. lia.
Qed.

(** ** Shifting a mantissa to the right

    [shr_1] drops the last bit of a mantissa and keeps in the round and
    sticky bits where the number lay: a real number in the slot of a
    record stays, halved, in the slot of the shifted record. *)

Lemma frac_loc_range (t : R) (r s : bool) : frac_loc t r s -> 0 <= t < 1.
Proof. destruct r, s; simpl; lra. Qed.

Lemma shr_m_record_of_loc (m : Z) (l : location) :
  shr_m (shr_record_of_loc m l) = m.
Proof. destruct l as [|[]]; reflexivity. Qed.

Lemma located_exact (m : Z) :
  (0 <= m)%Z -> located (IZR m) (shr_record_of_loc m loc_Exact).
Proof. intros H. split; [exact H|]. exists 0. simpl. split; lra. Qed.

Lemma located_bounds (z : R) (mrs : shr_record) :
  located z mrs -> 0 <= z - IZR (shr_m mrs) < 1.
Proof.
  intros [_ [t [Ht Hz]]]. apply frac_loc_range in Ht. lra.
Qed.

Lemma located_of_loc_frac (z t : R) (m : Z) (l : location) :
  (0 <= m)%Z -> loc_frac t l -> z = IZR m + t ->
  located z (shr_record_of_loc m l).
Proof.
  intros Hm Ht Hz. split.
  - rewrite shr_m_record_of_loc. exact Hm.
  - exists t. rewrite shr_m_record_of_loc. split; [|exact Hz].
    destruct l as [|[]]; exact Ht.
Qed.

Lemma located_at_lower (x : R) (e : Z) (mrs : shr_record) :
  located_at x e mrs ->
  IZR (shr_m mrs) * bpow e <= x < (IZR (shr_m mrs) + 1) * bpow e.
Proof.
  intros H. apply located_bounds in H.
  pose proof (bpow_pos e). pose proof (bpow_opp_r x e) as Hx.
  set (z := x * bpow (- e)) in *. rewrite <- Hx. split; nra.
Qed.

Lemma shr_1_located (z : R) (mrs : shr_record) :
  located z mrs -> located (z / 2) (shr_1 mrs).
Proof.
  destruct mrs as [m r s]. intros [Hm [t [Ht Hz]]]. simpl in Hm, Ht, Hz.
  destruct m as [|p|p]; [| |lia].
  - split; [simpl; lia|]. exists (t / 2).
    destruct r, s; simpl in *; split; lra.
  - destruct p as [p|p|].
    + split; [simpl; lia|]. exists ((1 + t) / 2).
      rewrite IZR_xI in Hz.
      destruct r, s; simpl in *; split; lra.
    + split; [simpl; lia|]. exists (t / 2).
      rewrite IZR_xO in Hz.
      destruct r, s; simpl in *; split; lra.
    + split; [simpl; lia|]. exists ((1 + t) / 2).
      destruct r, s; simpl in *; split; lra.
Qed.

Lemma iter_pos_shr_1_located (p : positive) :
  forall (z : R) (mrs : shr_record),
    located z mrs -> located (z * bpow (- Zpos p)) (iter_pos shr_1 p mrs).
Proof.
  induction p as [p IH|p IH|]; intros z mrs H; cbn [iter_pos].
  - replace (z * bpow (- Zpos p~1))
      with (z / 2 * bpow (- Zpos p) * bpow (- Zpos p)).
    + apply IH, IH, shr_1_located, H.
    + replace (- Zpos p~1)%Z with (-1 + (- Zpos p + - Zpos p))%Z by lia.
      rewrite !bpow_add, bpow_m1. lra.
  - replace (z * bpow (- Zpos p~0))
      with (z * bpow (- Zpos p) * bpow (- Zpos p)).
    + apply IH, IH, H.
    + replace (- Zpos p~0)%Z with (- Zpos p + - Zpos p)%Z by lia.
      rewrite !bpow_add. lra.
  - cbn [Z.opp]. rewrite bpow_m1. apply shr_1_located, H.
Qed.

Lemma shr_located_at (x : R) (mrs : shr_record) (e n : Z) :
  located_at x e mrs ->
  located_at x (snd (shr mrs e n)) (fst (shr mrs e n)) /\
  snd (shr mrs e n) = Z.max e (e + n) /\
  ((n <= 0)%Z -> fst (shr mrs e n) = mrs).
Proof.
  intros H. unfold shr. destruct n as [|p|p]; simpl.
  - split; [assumption|split; [lia|reflexivity]].
  - split; [|split; [lia|intros; lia]].
    unfold located_at in *.
    replace (- (e + Zpos p))%Z with (- e + - Zpos p)%Z by lia.
    rewrite bpow_add, <- Rmult_assoc.
    apply iter_pos_shr_1_located, H.
  - split; [assumption|split; [lia|reflexivity]].
Qed.

(** ** One rounding

    [binary_round_aux] shifts the mantissa to the precision, rounds it to
    nearest even and shifts once more if the rounding carried.  Away from
    overflow the result is within 2^-51 times the number, plus 2^-1073
    below the normal range, of the number it was given. *)

Lemma round_nearest_even_located (z : R) (mrs : shr_record) :
  located z mrs ->
  (0 <= round_nearest_even (shr_m mrs) (loc_of_shr_record mrs))%Z /\
  Rabs (IZR (round_nearest_even (shr_m mrs) (loc_of_shr_record mrs)) - z)
  <= / 2 /\
  (shr_r mrs = false -> shr_s mrs = false ->
   IZR (round_nearest_even (shr_m mrs) (loc_of_shr_record mrs)) = z).
Proof.
  destruct mrs as [m r s]. intros [Hm [t [Ht Hz]]]. simpl in Hm, Ht, Hz.
  destruct r, s; simpl in *.
  - split; [lia|]. split; [|discriminate].
    rewrite plus_IZR. apply Rabs_le. lra.
  - destruct (Z.even m).
    + split; [lia|]. split; [|discriminate]. apply Rabs_le. lra.
    + split; [lia|]. split; [|discriminate].
      rewrite plus_IZR. apply Rabs_le. lra.
  - split; [lia|]. split; [|discriminate]. apply Rabs_le. lra.
  - split; [lia|]. split; [|intros; lra]. apply Rabs_le. lra.
Qed.

Lemma round_result_spec (sx : bool) (m e E : Z) :
  (0 <= m)%Z -> (e <= E)%Z -> (E <= 971)%Z ->
  exp_le E (round_result sx m e) /\
  F2R (round_result sx m e) = sign_of sx * (IZR m * bpow e).
Proof.
  intros Hm He HE. destruct m as [|p|p]; try lia; simpl.
  - split; [exact I|]. lra.
  - replace (e <=? 971)%Z with true by (symmetry; apply Z.leb_le; lia).
    simpl. split; [exact He|reflexivity].
Qed.

Lemma binary_round_aux_core (sx : bool) (mx ex : Z) (lx : location) (x : R) :
  located_at x ex (shr_record_of_loc mx lx) ->
  exists m1 m2 e1 e2 : Z,
    e1 = Z.max ex (fexp 53 1024 (Zdigits2 mx + ex)) /\
    e2 = Z.max e1 (fexp 53 1024 (Zdigits2 m1 + e1)) /\
    (0 <= m1)%Z /\ (0 <= m2)%Z /\
    Rabs (IZR m1 * bpow e1 - x) <= bpow e1 / 2 /\
    (lx = loc_Exact -> e1 = ex -> IZR m1 * bpow e1 = x) /\
    0 <= IZR m1 * bpow e1 - IZR m2 * bpow e2 < bpow e2 /\
    (e2 = e1 -> m2 = m1) /\
    binary_round_aux 53 1024 sx mx ex lx = round_result sx m2 e2.
Proof.
  intros H. unfold binary_round_aux, shr_fexp.
  set (n1 := (fexp 53 1024 (Zdigits2 mx + ex) - ex)%Z).
  destruct (@shr_located_at x (shr_record_of_loc mx lx) ex n1 H)
    as (H1 & He1 & Hfix1).
  destruct (shr (shr_record_of_loc mx lx) ex n1) as [mrs1 e1] eqn:E1.
  simpl in H1, He1, Hfix1.
  destruct (@round_nearest_even_located _ _ H1) as (Hm1 & Hr1 & Hex1).
  set (m1 := round_nearest_even (shr_m mrs1) (loc_of_shr_record mrs1)) in *.
  set (n2 := (fexp 53 1024 (Zdigits2 m1 + e1) - e1)%Z).
  assert (H2 : located_at (IZR m1 * bpow e1) e1
                 (shr_record_of_loc m1 loc_Exact)).
  { unfold located_at.
    replace (IZR m1 * bpow e1 * bpow (- e1)) with (IZR m1).
    - apply located_exact, Hm1.
    - rewrite Rmult_assoc, <- bpow_add.
      replace (e1 + - e1)%Z with 0%Z by lia. rewrite bpow_0. lra. }
  destruct (@shr_located_at _ _ e1 n2 H2) as (H3 & He2 & Hfix2).
  destruct (shr (shr_record_of_loc m1 loc_Exact) e1 n2) as [mrs2 e2] eqn:E2.
  simpl in H3, He2, Hfix2.
  exists m1, (shr_m mrs2), e1, e2.
  assert (Hb1 : 0 < bpow e1) by apply bpow_pos.
  assert (Hb2 : 0 < bpow e2) by apply bpow_pos.
  split; [subst n1; lia|]. split; [subst n2; lia|].
  split; [exact Hm1|]. split; [apply H3|].
  split.
  { rewrite <- (bpow_opp_r x e1) at 1.
    rewrite <- Rmult_minus_distr_r, Rabs_mult, (Rabs_pos_eq (bpow e1)) by lra.
    apply Rle_trans with (/ 2 * bpow e1); [|lra].
    apply Rmult_le_compat_r; [lra|exact Hr1]. }
  split.
  { intros Hl He. subst lx.
    assert (Hn : (n1 <= 0)%Z) by (subst n1; lia).
    specialize (Hfix1 Hn). subst mrs1.
    rewrite <- (bpow_opp_r x e1) at 1. f_equal.
    apply Hex1; reflexivity. }
  split.
  { apply located_bounds in H3.
    pose proof (bpow_opp_r (IZR m1 * bpow e1) e2) as Hv.
    unfold located_at in H3.
    set (z := IZR m1 * bpow e1 * bpow (- e2)) in *.
    rewrite <- Hv. split; nra. }
  split.
  { intros He. assert (Hn : (n2 <= 0)%Z) by (subst n2; lia).
    rewrite (Hfix2 Hn). reflexivity. }
  reflexivity.
Qed.

(** The value [binary_round_aux] returns, away from overflow. *)
Lemma binary_round_aux_error (sx : bool) (mx ex : Z) (lx : location) (x : R)
    (E W : Z) :
  located_at x ex (shr_record_of_loc mx lx) ->
  lx = loc_Exact \/ bpow ex <= bpow (-52) * x + bpow (-1074) ->
  x <= bpow W -> (ex <= E)%Z -> (W - 52 <= E)%Z -> (-1074 <= W)%Z ->
  (-1074 <= E <= 971)%Z ->
  exists v : R,
    0 <= v /\
    exp_le E (binary_round_aux 53 1024 sx mx ex lx) /\
    F2R (binary_round_aux 53 1024 sx mx ex lx) = sign_of sx * v /\
    Rabs (v - x) <= bpow (-51) * x + bpow (-1073).
Proof.
  intros Hloc Hgood Hx Hex HWE HW HE.
  destruct (@binary_round_aux_core sx mx ex lx x Hloc)
    as (m1 & m2 & e1 & e2 & He1 & He2 & Hm1 & Hm2 & Herr1 & Hexact & Herr2
        & Hsame & ->).
  pose proof (@located_at_lower _ _ _ Hloc) as Hlow.
  rewrite shr_m_record_of_loc in Hlow.
  assert (Hmx : (0 <= mx)%Z).
  { destruct Hloc as [Hm _]. rewrite shr_m_record_of_loc in Hm. exact Hm. }
  pose proof (bpow_pos ex) as Hbex. pose proof (bpow_pos e1) as Hbe1.
  pose proof (bpow_pos e2) as Hbe2. pose proof (bpow_pos (-52)) as Hb52.
  pose proof (bpow_pos (-1074)) as Hbη. pose proof bpow_m52_le_1 as Hb52'.
  pose proof (bpow_pos W) as HbW.
  assert (Hx0 : 0 <= x).
  { apply Rle_trans with (IZR mx * bpow ex); [|lra].
    apply Rmult_le_pos; [apply IZR_le; lia|lra]. }
  assert (Hδx : 0 <= bpow (-52) * x) by (apply Rmult_le_pos; lra).
  set (v1 := IZR m1 * bpow e1) in *.
  set (v2 := IZR m2 * bpow e2) in *.
  assert (Hv1 : 0 <= v1).
  { apply Rmult_le_pos; [apply IZR_le; lia|lra]. }
  assert (Hv2 : 0 <= v2).
  { apply Rmult_le_pos; [apply IZR_le; lia|lra]. }
  (* first rounding *)
  assert (HA : Rabs (v1 - x) <= (bpow (-52) * x + bpow (-1074)) / 2).
  { destruct (Z.eq_dec e1 ex) as [Heq|Hne].
    - destruct Hgood as [Hl|Hg].
      + rewrite (Hexact Hl Heq). rewrite Rminus_diag, Rabs_R0. lra.
      + rewrite Heq in Herr1. lra.
    - assert (Hf : e1 = fexp 53 1024 (Zdigits2 mx + ex)) by lia.
      assert (bpow e1 <= bpow (-52) * x + bpow (-1074)); [|lra].
      destruct (Z.eq_dec mx 0) as [H0|H0].
      + subst mx. cbn [Zdigits2] in Hf.
        assert (e1 = (-1074)%Z) by (unfold fexp, emin in Hf; lia).
        subst e1. rewrite H. lra.
      + rewrite Hf.
        apply Rle_trans with (bpow (-52) * (IZR mx * bpow ex) + bpow (-1074)).
        * apply fexp_bpow; lia.
        * assert (bpow (-52) * (IZR mx * bpow ex) <= bpow (-52) * x)
            by (apply Rmult_le_compat_l; lra).
          lra. }
  (* second shift *)
  assert (HB : Rabs (v2 - v1) <= bpow (-52) * v1 + bpow (-1074)).
  { assert (Hδv : 0 <= bpow (-52) * v1) by (apply Rmult_le_pos; lra).
    destruct (Z.eq_dec e2 e1) as [Heq|Hne].
    - unfold v2. rewrite (Hsame Heq), Heq. fold v1.
      rewrite Rminus_diag, Rabs_R0. lra.
    - assert (Hf : e2 = fexp 53 1024 (Zdigits2 m1 + e1)) by lia.
      rewrite Rabs_minus_sym, Rabs_pos_eq by lra.
      destruct (Z.eq_dec m1 0) as [H0|H0].
      + assert (v1 = 0) by (unfold v1; rewrite H0; lra). lra.
      + assert (bpow e2 <= bpow (-52) * v1 + bpow (-1074)); [|lra].
        rewrite Hf. apply fexp_bpow. lia. }
  assert (Hv1x : v1 <= x + (bpow (-52) * x + bpow (-1074)) / 2).
  { apply Rabs_le_bounds in HA. lra. }
  exists v2. split; [exact Hv2|].
  assert (He2E : (e2 <= E)%Z).
  { assert (H1 : (fexp 53 1024 (Zdigits2 mx + ex) <= E)%Z).
    { destruct (Z.eq_dec mx 0) as [H0|H0].
      - subst mx. cbn [Zdigits2]. unfold fexp, emin. lia.
      - apply Z.le_trans with (Z.max (W - 52) (-1074)); [|lia].
        apply fexp_le_of_value; [lia|].
        rewrite bpow_succ. lra. }
    assert (H2 : (fexp 53 1024 (Zdigits2 m1 + e1) <= E)%Z).
    { destruct (Z.eq_dec m1 0) as [H0|H0].
      - rewrite H0. cbn [Zdigits2]. unfold fexp, emin. lia.
      - apply Z.le_trans with (Z.max (W - 52) (-1074)); [|lia].
        apply fexp_le_of_value; [lia|]. fold v1.
        rewrite bpow_succ.
        assert (bpow (-1074) <= bpow W) by (apply bpow_le; lia).
        assert (bpow (-52) <= / 2)
          by (rewrite <- bpow_m1; apply bpow_le; lia).
        assert (bpow (-52) * x <= / 2 * x)
          by (apply Rmult_le_compat_r; lra).
        lra. }
    lia. }
  destruct (@round_result_spec sx m2 e2 E Hm2 He2E (proj2 HE)) as [Hr1 Hr2].
  split; [exact Hr1|]. split; [exact Hr2|].
  replace (v2 - x) with ((v2 - v1) + (v1 - x)) by lra.
  apply Rle_trans with (1 := Rabs_triang _ _).
  rewrite bpow_m51, bpow_m1073.
  assert (bpow (-52) * v1
          <= bpow (-52) * (x + (bpow (-52) * x + bpow (-1074)) / 2))
    by (apply Rmult_le_compat_l; lra).
  assert (bpow (-52) * (bpow (-52) * x) <= bpow (-52) * x) by nra.
  assert (bpow (-52) * bpow (-1074) <= bpow (-1074)) by nra.
  lra.
Qed.

Lemma shl_align_value (mx : positive) (ex e' : Z) :
  IZR (Zpos (fst (shl_align mx ex e'))) * bpow (Z.min ex e')
  = IZR (Zpos mx) * bpow ex
  /\ snd (shl_align mx ex e') = Z.min ex e'.
Proof.
  unfold shl_align. destruct (e' - ex)%Z as [|p|p] eqn:E; cbn [fst snd].
  - replace (Z.min ex e') with ex by lia. split; reflexivity.
  - replace (Z.min ex e') with ex by lia. split; reflexivity.
  - replace (Z.min ex e') with e' by lia. split; [|reflexivity].
    rewrite IZR_iter_xO. replace ex with (Zpos p + e')%Z by lia.
    rewrite bpow_add. lra.
Qed.

Lemma binary_round_error (sx : bool) (mx : positive) (ex E W : Z) :
  IZR (Zpos mx) * bpow ex <= bpow W ->
  (ex <= E)%Z -> (W - 52 <= E)%Z -> (-1074 <= W)%Z -> (-1074 <= E <= 971)%Z ->
  exists v : R,
    0 <= v /\
    exp_le E (binary_round 53 1024 sx mx ex) /\
    F2R (binary_round 53 1024 sx mx ex) = sign_of sx * v /\
    Rabs (v - IZR (Zpos mx) * bpow ex)
    <= rel_err * (IZR (Zpos mx) * bpow ex) + abs_err.
Proof.
  intros Hx Hex HWE HW HE. unfold binary_round.
  destruct (shl_align_value mx ex (fexp 53 1024 (Zpos (digits2_pos mx) + ex)))
    as [Hv He].
  destruct (shl_align mx ex (fexp 53 1024 (Zpos (digits2_pos mx) + ex)))
    as [mz ez]. cbn [fst snd] in Hv, He. rewrite <- He in Hv.
  rewrite <- Hv in *.
  apply binary_round_aux_error with (W := W); try assumption; try lia.
  - unfold located_at.
    rewrite Rmult_assoc, <- bpow_add.
    replace (ez + - ez)%Z with 0%Z by lia. rewrite bpow_0, Rmult_1_r.
    apply located_exact. lia.
  - now left.
Qed.

Lemma binary_normalize_error (m e : Z) (s : bool) (E W : Z) :
  Rabs (IZR m * bpow e) <= bpow W ->
  (e <= E)%Z -> (W - 52 <= E)%Z -> (-1074 <= W)%Z -> (-1074 <= E <= 971)%Z ->
  exp_le E (binary_normalize 53 1024 m e s) /\
  Rabs (F2R (binary_normalize 53 1024 m e s) - IZR m * bpow e)
  <= rel_err * Rabs (IZR m * bpow e) + abs_err.
Proof.
  intros Hx Hex HWE HW HE.
  pose proof (bpow_pos e) as Hbe.
  assert (Hη : 0 < abs_err) by apply bpow_pos.
  destruct m as [|p|p]; cbn [binary_normalize].
  - split; [exact I|]. simpl. rewrite Rmult_0_l, Rminus_diag, Rabs_R0. lra.
  - assert (Hp : 0 < IZR (Zpos p) * bpow e).
    { apply Rmult_lt_0_compat; [apply IZR_lt; lia|lra]. }
    assert (Hab : Rabs (IZR (Zpos p) * bpow e) = IZR (Zpos p) * bpow e)
      by (apply Rabs_pos_eq; lra).
    rewrite Hab in Hx |- *.
    destruct (@binary_round_error false p e E W Hx Hex HWE HW HE)
      as (v & Hv & Hexp & HF & Herr).
    split; [exact Hexp|]. rewrite HF. unfold sign_of. rewrite Rmult_1_l.
    exact Herr.
  - assert (Hp : 0 < IZR (Zpos p) * bpow e).
    { apply Rmult_lt_0_compat; [apply IZR_lt; lia|lra]. }
    assert (Hneg : IZR (Zneg p) * bpow e = - (IZR (Zpos p) * bpow e)).
    { change (Zneg p) with (- Zpos p)%Z. rewrite opp_IZR. lra. }
    assert (Hab : Rabs (IZR (Zneg p) * bpow e) = IZR (Zpos p) * bpow e).
    { rewrite Hneg, Rabs_Ropp. apply Rabs_pos_eq; lra. }
    rewrite Hab in Hx |- *. rewrite Hneg.
    destruct (@binary_round_error true p e E W Hx Hex HWE HW HE)
      as (v & Hv & Hexp & HF & Herr).
    split; [exact Hexp|]. rewrite HF. unfold sign_of.
    replace (-1 * v - - (IZR (Zpos p) * bpow e))
      with (- (v - IZR (Zpos p) * bpow e)) by lra.
    rewrite Rabs_Ropp. exact Herr.
Qed.

(** ** The operations

    For operands that are zero or finite with exponent fields at most [E]
    and an exact result of magnitude at most 2^W, each operation returns a
    zero or a finite number within the error of one rounding of the exact
    result. *)

Lemma sign_of_xorb (a b : bool) : sign_of (xorb a b) = sign_of a * sign_of b.
Proof. destruct a, b; unfold sign_of; simpl; lra. Qed.

Lemma Rabs_sign_of (s : bool) (v : R) : 0 <= v -> Rabs (sign_of s * v) = v.
Proof.
  intros Hv. unfold sign_of. destruct s.
  - replace (-1 * v) with (- v) by lra. rewrite Rabs_Ropp.
    now apply Rabs_pos_eq.
  - rewrite Rmult_1_l. now apply Rabs_pos_eq.
Qed.

Lemma sign_of_error (s : bool) (v x : R) :
  Rabs (sign_of s * v - sign_of s * x) = Rabs (v - x).
Proof.
  unfold sign_of. destruct s.
  - replace (-1 * v - -1 * x) with (- (v - x)) by lra. apply Rabs_Ropp.
  - f_equal. lra.
Qed.

Lemma Rabs_F2R_finite (s : bool) (m : positive) (e : Z) :
  Rabs (F2R (S754_finite s m e)) = IZR (Zpos m) * bpow e.
Proof.
  unfold F2R. apply Rabs_sign_of.
  pose proof (bpow_pos e). pose proof (IZR_pos_ge_1 m).
  apply Rmult_le_pos; lra.
Qed.

Lemma F2R_opp (x : float) : F2R (SFopp x) = - F2R x.
Proof.
  destruct x as [s|s| |s m e]; simpl; try lra.
  unfold sign_of. destruct s; simpl; lra.
Qed.

Lemma F2R_cond_Zopp (s : bool) (m : positive) (e ez : Z) :
  (ez <= e)%Z ->
  IZR (cond_Zopp s (Zpos (fst (shl_align m e ez)))) * bpow ez
  = F2R (S754_finite s m e).
Proof.
  intros H. destruct (shl_align_value m e ez) as [Hv _].
  replace (Z.min e ez) with ez in Hv by lia.
  unfold F2R, sign_of. destruct s; cbn [cond_Zopp].
  - rewrite opp_IZR. lra.
  - lra.
Qed.

Lemma F2R_nonneg (x : float) : is_nonneg x = true -> 0 <= F2R x.
Proof.
  destruct x as [s|s| |s m e]; simpl; try lra.
  destruct s; [discriminate|]. intros _. unfold sign_of.
  pose proof (bpow_pos e). pose proof (IZR_pos_ge_1 m). nra.
Qed.

Lemma exp_le_is_finite (E : Z) (x : float) :
  exp_le E x -> F64.is_finite x = true.
Proof. destruct x; simpl; intros H; try contradiction; reflexivity. Qed.

Ltac F2R_zero :=
  repeat match goal with
         | |- context [F2R (S754_zero ?s)] => change (F2R (S754_zero s)) with 0
         end.

(** Addition *)
Lemma add_error (a b : float) (E W : Z) :
  exp_le E a -> exp_le E b ->
  Rabs (F2R a + F2R b) <= bpow W ->
  (W - 52 <= E)%Z -> (-1074 <= W)%Z -> (-1074 <= E <= 971)%Z ->
  exp_le E (SFadd 53 1024 a b) /\
  Rabs (F2R (SFadd 53 1024 a b) - (F2R a + F2R b))
  <= rel_err * Rabs (F2R a + F2R b) + abs_err.
Proof.
  intros Ha Hb Hx HWE HW HE.
  assert (Hη : 0 < abs_err) by apply bpow_pos.
  assert (Hδ : 0 < rel_err) by apply bpow_pos.
  assert (Hpos : forall y, 0 <= rel_err * Rabs y + abs_err).
  { intros y. pose proof (Rabs_pos y).
    assert (0 <= rel_err * Rabs y) by (apply Rmult_le_pos; lra). lra. }
  destruct a as [sa|sa| |sa ma ea], b as [sb|sb| |sb mb eb];
    simpl in Ha, Hb; try contradiction.
  - split.
    + destruct sa, sb; exact I.
    + replace (F2R (SFadd 53 1024 (S754_zero sa) (S754_zero sb))) with 0
        by (destruct sa, sb; reflexivity).
      simpl. rewrite Rplus_0_l, Rminus_diag, Rabs_R0. lra.
  - split; [exact Hb|]. cbn [SFadd].
    replace (F2R (S754_zero sa)) with 0 by reflexivity.
    rewrite Rplus_0_l, Rminus_diag, Rabs_R0. apply Hpos.
  - split; [exact Ha|]. cbn [SFadd].
    replace (F2R (S754_zero sb)) with 0 by reflexivity.
    rewrite Rplus_0_r, Rminus_diag, Rabs_R0. apply Hpos.
  - cbn [SFadd].
    set (ez := Z.min ea eb).
    assert (Hsum : IZR (cond_Zopp sa (Zpos (fst (shl_align ma ea ez)))
                        + cond_Zopp sb (Zpos (fst (shl_align mb eb ez))))
                   * bpow ez
                   = F2R (S754_finite sa ma ea) + F2R (S754_finite sb mb eb)).
    { rewrite plus_IZR, Rmult_plus_distr_r.
      rewrite !F2R_cond_Zopp by (subst ez; lia). reflexivity. }
    rewrite <- Hsum in *.
    apply binary_normalize_error with (W := W); try assumption.
    subst ez; lia.
Qed.

(** Subtraction *)
Lemma sub_error (a b : float) (E W : Z) :
  exp_le E a -> exp_le E b ->
  Rabs (F2R a - F2R b) <= bpow W ->
  (W - 52 <= E)%Z -> (-1074 <= W)%Z -> (-1074 <= E <= 971)%Z ->
  exp_le E (SFsub 53 1024 a b) /\
  Rabs (F2R (SFsub 53 1024 a b) - (F2R a - F2R b))
  <= rel_err * Rabs (F2R a - F2R b) + abs_err.
Proof.
  intros Ha Hb Hx HWE HW HE.
  assert (Hη : 0 < abs_err) by apply bpow_pos.
  assert (Hδ : 0 < rel_err) by apply bpow_pos.
  assert (Hpos : forall y, 0 <= rel_err * Rabs y + abs_err).
  { intros y. pose proof (Rabs_pos y).
    assert (0 <= rel_err * Rabs y) by (apply Rmult_le_pos; lra). lra. }
  destruct a as [sa|sa| |sa ma ea], b as [sb|sb| |sb mb eb];
    simpl in Ha, Hb; try contradiction.
  - split.
    + destruct sa, sb; exact I.
    + replace (F2R (SFsub 53 1024 (S754_zero sa) (S754_zero sb))) with 0
        by (destruct sa, sb; reflexivity).
      simpl. rewrite Rminus_diag, Rminus_diag, Rabs_R0. lra.
  - cbn [SFsub]. split; [exact Hb|].
    replace (F2R (S754_finite (negb sb) mb eb))
      with (- F2R (S754_finite sb mb eb))
      by (symmetry; apply (F2R_opp (S754_finite sb mb eb))).
    replace (F2R (S754_zero sa)) with 0 by reflexivity.
    replace (- F2R (S754_finite sb mb eb) - (0 - F2R (S754_finite sb mb eb)))
      with 0 by lra.
    rewrite Rabs_R0. apply Hpos.
  - split; [exact Ha|]. cbn [SFsub].
    replace (F2R (S754_zero sb)) with 0 by reflexivity.
    rewrite Rminus_0_r, Rminus_diag, Rabs_R0. apply Hpos.
  - cbn [SFsub].
    set (ez := Z.min ea eb).
    assert (Hsum : IZR (cond_Zopp sa (Zpos (fst (shl_align ma ea ez)))
                        - cond_Zopp sb (Zpos (fst (shl_align mb eb ez))))
                   * bpow ez
                   = F2R (S754_finite sa ma ea) - F2R (S754_finite sb mb eb)).
    { rewrite minus_IZR, Rmult_minus_distr_r.
      rewrite !F2R_cond_Zopp by (subst ez; lia). reflexivity. }
    rewrite <- Hsum in *.
    apply binary_normalize_error with (W := W); try assumption.
    subst ez; lia.
Qed.

(** Multiplication *)
Lemma mul_error (a b : float) (E E' W : Z) :
  exp_le E a -> exp_le E b ->
  Rabs (F2R a * F2R b) <= bpow W ->
  (2 * E <= E')%Z -> (W - 52 <= E')%Z -> (-1074 <= W)%Z ->
  (-1074 <= E' <= 971)%Z ->
  exp_le E' (SFmul 53 1024 a b) /\
  Rabs (F2R (SFmul 53 1024 a b) - F2R a * F2R b)
  <= rel_err * Rabs (F2R a * F2R b) + abs_err.
Proof.
  intros Ha Hb Hx HEE HWE HW HE.
  assert (Hη : 0 < abs_err) by apply bpow_pos.
  assert (Hδ : 0 < rel_err) by apply bpow_pos.
  assert (Hpos : forall y, 0 <= rel_err * Rabs y + abs_err).
  { intros y. pose proof (Rabs_pos y).
    assert (0 <= rel_err * Rabs y) by (apply Rmult_le_pos; lra). lra. }
  destruct a as [sa|sa| |sa ma ea], b as [sb|sb| |sb mb eb];
    simpl in Ha, Hb; try contradiction; cbn [SFmul].
  - split; [exact I|]. F2R_zero.
    rewrite Rmult_0_l, Rminus_diag, Rabs_R0. lra.
  - split; [exact I|]. F2R_zero.
    rewrite Rmult_0_l, Rminus_diag, Rabs_R0. lra.
  - split; [exact I|]. F2R_zero.
    rewrite Rmult_0_r, Rminus_diag, Rabs_R0. lra.
  - set (x := IZR (Zpos ma) * bpow ea * (IZR (Zpos mb) * bpow eb)).
    assert (Hprod : F2R (S754_finite sa ma ea) * F2R (S754_finite sb mb eb)
                    = sign_of (xorb sa sb) * x).
    { rewrite sign_of_xorb. unfold F2R, x. ring. }
    assert (Hx0 : 0 <= x).
    { unfold x. pose proof (bpow_pos ea). pose proof (bpow_pos eb).
      pose proof (IZR_pos_ge_1 ma). pose proof (IZR_pos_ge_1 mb).
      apply Rmult_le_pos; apply Rmult_le_pos; lra. }
    rewrite Hprod in Hx |- *. rewrite Rabs_sign_of in Hx |- * by exact Hx0.
    destruct (@binary_round_aux_error (xorb sa sb) (Zpos (ma * mb)) (ea + eb)
                loc_Exact x E' W) as (v & Hv & Hexp & HF & Herr);
      try assumption; try lia.
    + unfold located_at, x.
      replace (IZR (Zpos ma) * bpow ea * (IZR (Zpos mb) * bpow eb)
               * bpow (- (ea + eb)))
        with (IZR (Zpos (ma * mb))).
      * apply located_exact. lia.
      * rewrite Pos2Z.inj_mul, mult_IZR.
        replace (- (ea + eb))%Z with (- ea + - eb)%Z by lia.
        rewrite bpow_add.
        pose proof (bpow_opp_r 1 ea) as H1. pose proof (bpow_opp_r 1 eb) as H2.
        rewrite Rmult_1_l in H1, H2.
        transitivity (IZR (Zpos ma) * IZR (Zpos mb)
                      * (bpow (- ea) * bpow ea) * (bpow (- eb) * bpow eb)).
        { rewrite H1, H2. ring. }
        ring.
    + now left.
    + split; [exact Hexp|]. rewrite HF, sign_of_error. exact Herr.
Qed.

Lemma new_location_frac (nb r : Z) :
  (0 < nb)%Z -> (0 <= r < nb)%Z ->
  loc_frac (IZR r / IZR nb) (new_location nb r).
Proof.
  intros Hnb Hr.
  assert (Hnb' : 0 < IZR nb) by (apply IZR_lt; lia).
  set (t := IZR r / IZR nb).
  assert (Ht : t * IZR nb = IZR r) by (unfold t; field; lra).
  unfold new_location, loc_frac.
  destruct (Z.even nb) eqn:Ev.
  - unfold new_location_even.
    destruct (Z.eqb_spec r 0) as [H0|H0].
    + simpl. subst r. nra.
    + assert (H1 : 1 <= IZR r) by (apply IZR_le; lia).
      destruct (Z.compare_spec (2 * r) nb) as [Hc|Hc|Hc]; simpl.
      * apply (f_equal IZR) in Hc. rewrite mult_IZR in Hc. nra.
      * apply IZR_lt in Hc. rewrite mult_IZR in Hc. split; nra.
      * apply IZR_lt in Hc. rewrite mult_IZR in Hc.
        assert (IZR r < IZR nb) by (apply IZR_lt; lia). split; nra.
  - unfold new_location_odd.
    destruct (Z.eqb_spec r 0) as [H0|H0].
    + simpl. subst r. nra.
    + assert (H1 : 1 <= IZR r) by (apply IZR_le; lia).
      assert (Hodd : (2 * r <> nb)%Z).
      { intros <-. rewrite Z.even_mul in Ev. discriminate. }
      destruct (Z.compare_spec (2 * r + 1) nb) as [Hc|Hc|Hc]; simpl.
      * assert (Hlt : (2 * r < nb)%Z) by lia.
        apply IZR_lt in Hlt. rewrite mult_IZR in Hlt. split; nra.
      * assert (Hlt : (2 * r < nb)%Z) by lia.
        apply IZR_lt in Hlt. rewrite mult_IZR in Hlt. split; nra.
      * assert (Hgt : (nb < 2 * r)%Z) by lia.
        apply IZR_lt in Hgt. rewrite mult_IZR in Hgt.
        assert (IZR r < IZR nb) by (apply IZR_lt; lia). split; nra.
Qed.

(** Division by a finite number other than zero *)
Lemma div_error (a : float) (sb : bool) (mb : positive) (eb : Z)
    (E0 E W : Z) :
  exp_le E0 a ->
  Rabs (F2R a / F2R (S754_finite sb mb eb)) <= bpow W ->
  (W - 52 <= E)%Z -> (-1074 <= W)%Z -> (-1074 <= E <= 971)%Z ->
  exp_le E (SFdiv 53 1024 a (S754_finite sb mb eb)) /\
  Rabs (F2R (SFdiv 53 1024 a (S754_finite sb mb eb))
        - F2R a / F2R (S754_finite sb mb eb))
  <= rel_err * Rabs (F2R a / F2R (S754_finite sb mb eb)) + abs_err.
Proof.
  intros Ha Hx HWE HW HE.
  assert (Hη : 0 < abs_err) by apply bpow_pos.
  assert (Hδ : 0 < rel_err) by apply bpow_pos.
  pose proof (bpow_pos eb) as Hbeb.
  pose proof (IZR_pos_ge_1 mb) as Hmb.
  assert (HB : 0 < IZR (Zpos mb) * bpow eb) by (apply Rmult_lt_0_compat; lra).
  destruct a as [sa|sa| |sa ma ea]; simpl in Ha; try contradiction.
  - cbn [SFdiv]. split; [exact I|]. F2R_zero.
    unfold Rdiv. rewrite Rmult_0_l, Rminus_diag, Rabs_R0. lra.
  - clear Ha. pose proof (bpow_pos ea) as Hbea.
    pose proof (IZR_pos_ge_1 ma) as Hma.
    set (x := IZR (Zpos ma) * bpow ea / (IZR (Zpos mb) * bpow eb)).
    assert (Hquot : F2R (S754_finite sa ma ea) / F2R (S754_finite sb mb eb)
                    = sign_of (xorb sa sb) * x).
    { rewrite sign_of_xorb. unfold F2R, x, sign_of.
      destruct sa, sb; field; lra. }
    assert (Hx0 : 0 < x).
    { unfold x. apply Rdiv_lt_0_compat; [|exact HB].
      apply Rmult_lt_0_compat; lra. }
    rewrite Hquot in Hx |- *. rewrite Rabs_sign_of in Hx |- * by lra.
    unfold SFdiv, SFdiv_core_binary. cbn [Zdigits2].
    set (d1 := Zpos (digits2_pos ma)). set (d2 := Zpos (digits2_pos mb)).
    set (D := (d1 + ea - (d2 + eb))%Z).
    set (e' := Z.min (fexp 53 1024 D) (ea - eb)).
    set (s := (ea - eb - e')%Z).
    assert (Hs : (0 <= s)%Z) by (subst s e'; lia).
    set (m' := match s with
               | 0%Z => Zpos ma
               | Zpos _ => Z.shiftl (Zpos ma) s
               | Zneg _ => 0%Z
               end).
    assert (Hm' : IZR m' = IZR (Zpos ma) * bpow s).
    { unfold m'. destruct s as [|p|p] eqn:Es; try lia.
      - rewrite bpow_0. lra.
      - rewrite Z.shiftl_mul_pow2 by lia. rewrite mult_IZR, IZR_pow2 by lia.
        reflexivity. }
    assert (Hm'0 : (0 <= m')%Z).
    { apply le_IZR. rewrite Hm'. pose proof (bpow_pos s).
      apply Rmult_le_pos; lra. }
    pose proof (Z_div_mod m' (Zpos mb) eq_refl) as Hdm.
    destruct (Z.div_eucl m' (Zpos mb)) as [q r].
    destruct Hdm as [Hdm Hr].
    assert (Hq : (0 <= q)%Z) by nia.
    (* the bound D on the magnitude of the quotient *)
    assert (HD : bpow (D - 1) <= x).
    { unfold x. apply Rle_div_r'; [exact HB|].
      pose proof (digits2_lower ma) as Hl. fold d1 in Hl.
      pose proof (digits2_upper mb) as Hu. fold d2 in Hu.
      apply Rle_trans with (bpow (D - 1) * (bpow d2 * bpow eb)).
      - apply Rmult_le_compat_l; [pose proof (bpow_pos (D - 1)); lra|].
        apply Rmult_le_compat_r; lra.
      - rewrite <- !bpow_add.
        replace (D - 1 + (d2 + eb))%Z with ((d1 - 1) + ea)%Z by (subst D; lia).
        rewrite bpow_add. apply Rmult_le_compat_r; lra. }
    assert (HfD : bpow (fexp 53 1024 D) <= bpow (-52) * x + bpow (-1074)).
    { pose proof (bpow_pos (-1074)). pose proof (bpow_pos (-52)).
      assert (bpow (-52) * bpow (D - 1) <= bpow (-52) * x)
        by (apply Rmult_le_compat_l; lra).
      unfold fexp, emin.
      destruct (Z.max_spec (D - 53) (3 - 1024 - 53)) as [[_ ->]|[_ ->]].
      - change (3 - 1024 - 53)%Z with (-1074)%Z.
        assert (0 <= bpow (-52) * x) by (apply Rmult_le_pos; lra). lra.
      - replace (D - 53)%Z with (-52 + (D - 1))%Z by lia.
        rewrite bpow_add. lra. }
    assert (HDW : (D - 1 <= W)%Z) by (apply bpow_le_inv; lra).
    destruct (@binary_round_aux_error (xorb sa sb) q e'
                (new_location (Zpos mb) r) x E W)
      as (v & Hv & Hexp & HF & Herr); try assumption; try lia.
    + unfold located_at.
      apply located_of_loc_frac with (t := IZR r / IZR (Zpos mb));
        [exact Hq|apply new_location_frac; lia|].
      assert (Hx' : x * bpow (- e') = IZR m' / IZR (Zpos mb)).
      { rewrite Hm'. unfold x.
        replace s with ((ea + - eb) + - e')%Z by (subst s; lia).
        rewrite !bpow_add.
        pose proof (bpow_opp_r 1 eb) as H1. rewrite Rmult_1_l in H1.
        pose proof (bpow_pos (- eb)). pose proof (bpow_pos (- e')).
        field_simplify; try lra.
        replace (IZR (Zpos ma) * bpow ea * bpow (- e')
                 / (IZR (Zpos mb) * bpow eb))
          with (IZR (Zpos ma) * bpow ea * bpow (- e') * (bpow (- eb) * bpow eb)
                / (IZR (Zpos mb) * bpow eb)) by (rewrite H1; field; lra).
        field; lra. }
      rewrite Hx'. rewrite Hdm, plus_IZR, mult_IZR. field. lra.
    + right. apply Rle_trans with (bpow (fexp 53 1024 D)); [|exact HfD].
      apply bpow_le. subst e'. lia.
    + subst e'. unfold fexp, emin in *. lia.
    + split; [exact Hexp|]. rewrite HF, sign_of_error. exact Herr.
Qed.

(** Square root of a positive number *)
Lemma sqrt_error (m : positive) (e E W : Z) :
  sqrt (F2R (S754_finite false m e)) <= bpow W ->
  (W - 52 <= E)%Z -> (-1074 <= W)%Z -> (-1074 <= E <= 971)%Z ->
  exp_le E (F64.sqrt (S754_finite false m e))
  /\ Rabs (F2R (F64.sqrt (S754_finite false m e))
           - sqrt (F2R (S754_finite false m e)))
     <= rel_err * sqrt (F2R (S754_finite false m e)) + abs_err.
Proof.
  intros Hx HWE HW HE.
  pose proof (bpow_pos e) as Hbe. pose proof (IZR_pos_ge_1 m) as Hm.
  assert (HX : F2R (S754_finite false m e) = IZR (Zpos m) * bpow e).
  { unfold F2R, sign_of. lra. }
  rewrite HX in *.
  set (X := IZR (Zpos m) * bpow e) in *.
  assert (HX0 : 0 < X) by (apply Rmult_lt_0_compat; lra).
  set (x := sqrt X) in *.
  assert (Hx0 : 0 < x) by (apply sqrt_lt_R0; exact HX0).
  assert (Hxx : x * x = X) by (apply sqrt_sqrt; lra).
  unfold F64.sqrt, SFsqrt, SFsqrt_core_binary. cbn [Zdigits2].
  set (d := Zpos (digits2_pos m)).
  set (k := Z.div2 (d + e + 1)).
  set (e' := Z.min (fexp F64.prec F64.emax k) (Z.div2 e)).
  set (s := (e - 2 * e')%Z).
  assert (Hk : (2 * k <= d + e + 1)%Z).
  { unfold k. rewrite Z.div2_div. apply Z.mul_div_le. lia. }
  assert (Hs : (0 <= s)%Z).
  { unfold s, e'. rewrite Z.div2_div.
    pose proof (Z.mul_div_le e 2 eq_refl). lia. }
  set (m' := match s with
             | 0%Z => Zpos m
             | Zpos _ => Z.shiftl (Zpos m) s
             | Zneg _ => 0%Z
             end).
  assert (Hm' : IZR m' = IZR (Zpos m) * bpow s).
  { unfold m'. destruct s as [|p|p] eqn:Es; try lia.
    - rewrite bpow_0. lra.
    - rewrite Z.shiftl_mul_pow2 by lia. rewrite mult_IZR, IZR_pow2 by lia.
      reflexivity. }
  assert (Hm'0 : (0 <= m')%Z).
  { apply le_IZR. rewrite Hm'. pose proof (bpow_pos s).
    apply Rmult_le_pos; lra. }
  pose proof (Z.sqrtrem_spec m' Hm'0) as Hsr.
  destruct (Z.sqrtrem m') as [q r]. destruct Hsr as [Hqr Hr].
  assert (Hq : (0 <= q)%Z) by lia.
  (* the value in units of 2^e' *)
  set (z := x * bpow (- e')).
  assert (Hz0 : 0 < z).
  { unfold z. apply Rmult_lt_0_compat; [lra|apply bpow_pos]. }
  assert (Hzz : z * z = IZR m').
  { unfold z. rewrite Hm'.
    replace (x * bpow (- e') * (x * bpow (- e')))
      with (x * x * (bpow (- e') * bpow (- e'))) by ring.
    rewrite Hxx. unfold X. rewrite <- bpow_add, Rmult_assoc, <- bpow_add.
    f_equal. f_equal. unfold s. lia. }
  assert (Hqr' : z * z = IZR q * IZR q + IZR r).
  { rewrite Hzz, Hqr, plus_IZR, mult_IZR. reflexivity. }
  assert (Hq' : 0 <= IZR q) by (apply IZR_le; lia).
  assert (Hr0 : 0 <= IZR r) by (apply IZR_le; lia).
  assert (Hr2 : IZR r <= 2 * IZR q).
  { rewrite <- mult_IZR. apply IZR_le. lia. }
  (* magnitude *)
  assert (Hkx : bpow (k - 1) <= x).
  { destruct (Rle_lt_dec (bpow (k - 1)) x) as [H|H]; [exact H|exfalso].
    pose proof (bpow_pos (k - 1)) as Hbk.
    assert (x * x < bpow (k - 1) * bpow (k - 1)) by nra.
    rewrite <- bpow_add, Hxx in H0.
    pose proof (digits2_lower m) as Hl. fold d in Hl.
    assert (bpow (k - 1 + (k - 1)) <= bpow (d - 1) * bpow e)
      by (rewrite <- bpow_add; apply bpow_le; lia).
    assert (bpow (d - 1) * bpow e <= X)
      by (unfold X; apply Rmult_le_compat_r; lra).
    lra. }
  assert (HkW : (k - 1 <= W)%Z) by (apply bpow_le_inv; lra).
  assert (Hfk : bpow (fexp F64.prec F64.emax k)
                <= bpow (-52) * x + bpow (-1074)).
  { pose proof (bpow_pos (-1074)). pose proof (bpow_pos (-52)).
    assert (bpow (-52) * bpow (k - 1) <= bpow (-52) * x)
      by (apply Rmult_le_compat_l; lra).
    unfold fexp, emin, F64.prec, F64.emax.
    destruct (Z.max_spec (k - 53) (3 - 1024 - 53)) as [[_ ->]|[_ ->]].
    - change (3 - 1024 - 53)%Z with (-1074)%Z.
      assert (0 <= bpow (-52) * x) by (apply Rmult_le_pos; lra). lra.
    - replace (k - 53)%Z with (-52 + (k - 1))%Z by lia.
      rewrite bpow_add. lra. }
  set (l := if (r =? 0)%Z then loc_Exact
            else loc_Inexact (if (r <=? q)%Z then Lt else Gt)).
  destruct (@binary_round_aux_error false q e' l x E W)
    as (v & Hv & Hexp & HF & Herr); try assumption; try lia.
  - unfold located_at. fold z.
    apply located_of_loc_frac with (t := z - IZR q); [exact Hq| |lra].
    unfold l, loc_frac.
    destruct (Z.eqb_spec r 0) as [H0|H0].
    + simpl. subst r. replace (IZR 0) with 0 in Hqr' by reflexivity.
      assert (z = IZR q); [|lra]. nra.
    + assert (H1 : 1 <= IZR r) by (apply IZR_le; lia).
      destruct (Z.leb_spec r q) as [Hle|Hgt]; simpl.
      * apply IZR_le in Hle. split; [nra|].
        assert (z < IZR q + / 2); [|lra].
        destruct (Rlt_le_dec z (IZR q + / 2)) as [H|H]; [exact H|exfalso].
        assert ((IZR q + / 2) * (IZR q + / 2) <= z * z) by nra. nra.
      * assert (Hgt' : IZR q + 1 <= IZR r).
        { rewrite <- plus_IZR. apply IZR_le. lia. }
        split.
        -- assert (IZR q + / 2 < z); [|lra].
           destruct (Rlt_le_dec (IZR q + / 2) z) as [H|H]; [exact H|exfalso].
           assert (z * z <= (IZR q + / 2) * (IZR q + / 2)) by nra. nra.
        -- assert (z < IZR q + 1); [|lra].
           destruct (Rlt_le_dec z (IZR q + 1)) as [H|H]; [exact H|exfalso].
           assert ((IZR q + 1) * (IZR q + 1) <= z * z) by nra. nra.
  - right. apply Rle_trans with (2 := Hfk). apply bpow_le. unfold e'. lia.
  - unfold e', fexp, emin, F64.prec, F64.emax. lia.
  - change (exp_le E (binary_round_aux 53 1024 false q e' l)
            /\ Rabs (F2R (binary_round_aux 53 1024 false q e' l) - x)
               <= rel_err * x + abs_err).
    split; [exact Hexp|]. rewrite HF. unfold sign_of.
    rewrite Rmult_1_l. exact Herr.
Qed.

Lemma sqrt_is_nonneg (x : float) :
  is_nonneg x = true -> is_nonneg (F64.sqrt x) = true.
Proof.
  destruct x as [sx|[|]| |[|] mx ex]; simpl; try discriminate; intros _;
    try reflexivity.
  unfold F64.sqrt, SFsqrt, SFsqrt_core_binary.
  set (e' := Z.min _ _). set (s := (ex - 2 * e')%Z).
  set (m' := match s with
             | 0%Z => Z.pos mx
             | Z.pos _ => Z.shiftl (Z.pos mx) s
             | Z.neg _ => 0%Z
             end).
  assert (Hm' : (0 <= m')%Z).
  { unfold m'. destruct s; try lia. apply Z.shiftl_nonneg. lia. }
  pose proof (Z.sqrtrem_spec m' Hm') as Hspec.
  destruct (Z.sqrtrem m') as [q r].
  apply binary_round_aux_nonneg. lia.
Qed.

(** The count of a group is exact. *)
Lemma of_nat_value (n : nat) :
  (0 < n)%nat -> (Z.of_nat n < 2 ^ 53)%Z ->
  exists m e, F64.of_nat n = S754_finite false m e
              /\ F2R (F64.of_nat n) = INR n.
Proof.
  intros Hn Hlt. rewrite INR_IZR_INZ. unfold F64.of_nat, F64.of_Z.
  destruct (Z.of_nat n) as [|p|p] eqn:En; try lia.
  cbn [binary_normalize]. unfold binary_round.
  pose proof (digits2_pos_bound Hlt) as Hd.
  assert (Hfexp : fexp F64.prec F64.emax (Z.pos (digits2_pos p) + 0)
                  = (Z.pos (digits2_pos p) - 53)%Z).
  { unfold fexp, emin, F64.prec, F64.emax. lia. }
  rewrite Hfexp.
  destruct (shl_align_value p 0 (Z.pos (digits2_pos p) - 53)) as [Hv He].
  destruct (shl_align p 0 (Z.pos (digits2_pos p) - 53)) as [mz ez] eqn:Es.
  cbn [fst snd] in Hv, He.
  rewrite bpow_0, Rmult_1_r in Hv. rewrite <- He in Hv.
  assert (Hcanon : fexp F64.prec F64.emax (Z.pos (digits2_pos mz) + ez) = ez).
  { unfold shl_align in Es.
    destruct (Z.pos (digits2_pos p) - 53 - 0)%Z as [|k|k] eqn:Ek;
      try lia; inversion Es; subst.
    - rewrite Hfexp. lia.
    - rewrite digits2_pos_iter_xO, Pos2Z.inj_add.
      unfold fexp, emin, F64.prec, F64.emax. lia. }
  rewrite (binary_round_aux_canonical false mz Hcanon).
  replace (ez <=? F64.emax - F64.prec)%Z with true
    by (symmetry; apply Z.leb_le; unfold F64.emax, F64.prec; lia).
  exists mz, ez. split; [reflexivity|].
  unfold F2R, sign_of. lra.
Qed.

Lemma magnitude_below_spec (V : Z) (x : float) :
  magnitude_below V x = true ->
  exp_le (V - 1) x /\ Rabs (F2R x) <= bpow V.
Proof.
  destruct x as [s|s| |s m e]; cbn [magnitude_below exp_le];
    try discriminate; intros H.
  - split; [exact I|]. cbn [F2R]. rewrite Rabs_R0.
    pose proof (bpow_pos V). lra.
  - apply Z.leb_le in H. pose proof (Pos2Z.is_pos (digits2_pos m)).
    split; [lia|].
    rewrite Rabs_F2R_finite.
    pose proof (digits2_upper m) as Hu. pose proof (bpow_pos e) as He.
    apply Rle_trans with (bpow (Zpos (digits2_pos m)) * bpow e).
    + apply Rmult_le_compat_r; lra.
    + rewrite <- bpow_add. apply bpow_le. lia.
Qed.

(** ** Sums

    A left-to-right sum of [n] numbers of magnitude at most [Y]: when each
    addition errs by at most [eps], the sum errs by at most [n * eps]. *)

Section SumError.

Variables E W : Z.
Variables Y eps n : R.
Hypothesis HY : 0 <= Y.
Hypothesis Heps : 0 <= eps.
Hypothesis Hstep : rel_err * (n * Y + n * eps) + abs_err <= eps.
Hypothesis Hrange : n * Y + n * eps <= bpow W.
Hypothesis HWE : (W - 52 <= E)%Z.
Hypothesis HW : (-1074 <= W)%Z.
Hypothesis HE : (-1074 <= E <= 971)%Z.

Lemma fold_add_error (ys : list float) :
  forall (a : float) (A : R) (j : nat),
    (forall y, In y ys -> exp_le E y /\ Rabs (F2R y) <= Y) ->
    exp_le E a ->
    Rabs (F2R a - A) <= INR j * eps ->
    Rabs A <= INR j * Y ->
    INR (j + List.length ys) <= n ->
    exp_le E (fold_left F64.add ys a)
    /\ Rabs (F2R (fold_left F64.add ys a) - (A + Rsum (map F2R ys)))
       <= INR (j + List.length ys) * eps.
Proof.
  induction ys as [|y t IH]; intros a A j Hys Ha HaA HA Hn.
  - simpl. rewrite Nat.add_0_r, Rplus_0_r. split; assumption.
  - cbn [fold_left map List.length] in *. rewrite Rsum_cons.
    destruct (Hys y (or_introl eq_refl)) as [Hy HyY].
    assert (HJ : INR j + 1 <= n).
    { apply Rle_trans with (2 := Hn). rewrite plus_INR, S_INR.
      pose proof (pos_INR (List.length t)). lra. }
    pose proof (pos_INR j) as Hj0.
    assert (Hexact : Rabs (F2R a + F2R y) <= n * Y + n * eps).
    { replace (F2R a + F2R y) with ((F2R a - A) + A + F2R y) by lra.
      apply Rle_trans with (1 := Rabs_triang _ _).
      apply Rle_trans with (Rabs (F2R a - A) + Rabs A + Rabs (F2R y)).
      - apply Rplus_le_compat_r. apply Rabs_triang.
      - assert (INR j * eps <= n * eps)
          by (apply Rmult_le_compat_r; lra).
        assert ((INR j + 1) * Y <= n * Y)
          by (apply Rmult_le_compat_r; lra).
        lra. }
    destruct (@add_error a y E W Ha Hy) as [Ha' Herr];
      [lra|assumption|assumption|assumption|].
    assert (Hδ : 0 < rel_err) by apply bpow_pos.
    assert (Herr' : Rabs (F2R (F64.add a y) - (F2R a + F2R y)) <= eps).
    { apply Rle_trans with (1 := Herr).
      assert (rel_err * Rabs (F2R a + F2R y) <= rel_err * (n * Y + n * eps))
        by (apply Rmult_le_compat_l; lra).
      lra. }
    destruct (IH (F64.add a y) (A + F2R y) (S j)) as [H1 H2].
    + intros z Hz. apply Hys. now right.
    + exact Ha'.
    + rewrite S_INR.
      replace (F2R (F64.add a y) - (A + F2R y))
        with ((F2R (F64.add a y) - (F2R a + F2R y)) + (F2R a - A)) by lra.
      apply Rle_trans with (1 := Rabs_triang _ _). lra.
    + rewrite S_INR. apply Rle_trans with (1 := Rabs_triang _ _). lra.
    + replace (S j + List.length t)%nat with (j + S (List.length t))%nat by lia.
      exact Hn.
    + split; [exact H1|].
      replace (j + S (List.length t))%nat with (S j + List.length t)%nat by lia.
      replace (A + (F2R y + Rsum (map F2R t)))
        with (A + F2R y + Rsum (map F2R t)) by lra.
      exact H2.
Qed.

Lemma fsum_error (ys : list float) :
  (forall y, In y ys -> exp_le E y /\ Rabs (F2R y) <= Y) ->
  INR (List.length ys) <= n ->
  exp_le E (fsum ys)
  /\ Rabs (F2R (fsum ys) - Rsum (map F2R ys)) <= INR (List.length ys) * eps.
Proof.
  intros Hys Hn.
  destruct (@fold_add_error ys F64.zero 0 0%nat) as [H1 H2];
    try assumption.
  - exact I.
  - simpl. rewrite Rminus_diag, Rabs_R0. lra.
  - simpl. rewrite Rabs_R0. lra.
  - rewrite Rplus_0_l in H2. simpl in H2. split; assumption.
Qed.

End SumError.

(** At most 2^32 numbers of magnitude at most 2^V. *)
Lemma fsum_error_bpow (E V : Z) (ys : list float) :
  (forall y, In y ys -> exp_le E y /\ Rabs (F2R y) <= bpow V) ->
  ys <> [] ->
  (Z.of_nat (List.length ys) <= 2 ^ 32)%Z ->
  (V - 19 <= E)%Z -> (-1074 <= E <= 971)%Z -> (-1022 <= V <= 900)%Z ->
  exp_le E (fsum ys)
  /\ Rabs (F2R (fsum ys) - Rsum (map F2R ys))
     <= INR (List.length ys)
        * (4 * (rel_err * (INR (List.length ys) * bpow V))).
Proof.
  intros Hys Hne Hlen HVE HE HV.
  set (N := INR (List.length ys)).
  set (Y := bpow V).
  assert (Hlen0 : (0 < List.length ys)%nat)
    by (destruct ys; simpl; [congruence|lia]).
  assert (HN1 : 1 <= N).
  { unfold N. change 1 with (INR 1). apply le_INR. lia. }
  assert (HN32 : N <= bpow 32) by (apply INR_le_bpow; [lia|exact Hlen]).
  assert (HY : 0 < Y) by apply bpow_pos.
  assert (Hδ : 0 < rel_err) by apply bpow_pos.
  assert (Hη : 0 < abs_err) by apply bpow_pos.
  assert (HδN : rel_err * N <= / 8).
  { apply Rle_trans with (rel_err * bpow 32).
    - apply Rmult_le_compat_l; lra.
    - unfold rel_err. rewrite <- bpow_add, <- bpow_m3. apply bpow_le. lia. }
  assert (HηY : abs_err <= rel_err * Y).
  { unfold abs_err, rel_err, Y. rewrite <- bpow_add. apply bpow_le. lia. }
  assert (HP : 0 < N * Y) by (apply Rmult_lt_0_compat; lra).
  assert (HYP : Y <= N * Y) by nra.
  set (eps := 4 * (rel_err * (N * Y))).
  assert (HδP : 0 < rel_err * (N * Y)) by (apply Rmult_lt_0_compat; lra).
  assert (HNeps : N * eps <= / 2 * (N * Y)).
  { unfold eps.
    replace (N * (4 * (rel_err * (N * Y)))) with (4 * (rel_err * N) * (N * Y))
      by ring.
    apply Rmult_le_compat_r; lra. }
  assert (Heps0 : 0 <= eps) by (unfold eps; lra).
  apply (@fsum_error E (V + 33) Y eps N); try lia; try lra.
  - assert (rel_err * (N * Y + N * eps) <= rel_err * (2 * (N * Y)))
      by (apply Rmult_le_compat_l; lra).
    assert (rel_err * Y <= rel_err * (N * Y))
      by (apply Rmult_le_compat_l; lra).
    pose proof (eq_refl : eps = 4 * (rel_err * (N * Y))) as Heq. lra.
  - replace (V + 33)%Z with (1 + (32 + V))%Z by lia.
    rewrite !bpow_add, bpow_1. fold Y.
    assert (N * Y <= bpow 32 * Y) by (apply Rmult_le_compat_r; lra).
    lra.
  - exact Hys.
  - apply Rle_refl.
Qed.

(** ** The mean and the variance of a list of numbers *)

Lemma real_mean_abs_le (Y : R) (ys : list float) :
  (forall y, In y ys -> Rabs (F2R y) <= Y) -> ys <> [] ->
  Rabs (real_mean ys) <= Y.
Proof.
  intros Hys Hne. unfold real_mean.
  assert (HN : 0 < INR (List.length ys)).
  { apply lt_0_INR. destruct ys; simpl; [congruence|lia]. }
  unfold Rdiv. rewrite Rabs_mult, (Rabs_pos_eq (/ INR (List.length ys)))
    by (left; apply Rinv_0_lt_compat; lra).
  apply Rmult_le_reg_r with (INR (List.length ys)); [lra|].
  rewrite Rmult_assoc, Rinv_l by lra. rewrite Rmult_1_r, Rmult_comm.
  replace (List.length ys) with (List.length (map F2R ys)) by apply length_map.
  apply Rsum_abs_le. intros x Hx. apply in_map_iff in Hx.
  destruct Hx as (y & <- & Hy). apply Hys, Hy.
Qed.

Lemma mean_error (E V : Z) (ys : list float) :
  (forall y, In y ys -> exp_le E y /\ Rabs (F2R y) <= bpow V) ->
  ys <> [] ->
  (Z.of_nat (List.length ys) <= 2 ^ 32)%Z ->
  (V - 19 <= E)%Z -> (-1074 <= E <= 971)%Z -> (-1000 <= V <= 900)%Z ->
  exp_le (V - 1) (F64.div (fsum ys) (F64.of_nat (List.length ys)))
  /\ Rabs (F2R (F64.div (fsum ys) (F64.of_nat (List.length ys)))
           - real_mean ys)
     <= INR (List.length ys) * bpow (V - 48)
  /\ Rabs (F2R (F64.div (fsum ys) (F64.of_nat (List.length ys))))
     <= bpow (V + 1).
Proof.
  intros Hys Hne Hlen HVE HE HV.
  destruct (@fsum_error_bpow E V ys) as [Hs1 Hs2]; try assumption; try lia.
  set (N := INR (List.length ys)) in *.
  set (Y := bpow V) in *.
  assert (Hlen0 : (0 < List.length ys)%nat)
    by (destruct ys; simpl; [congruence|lia]).
  assert (HN1 : 1 <= N).
  { unfold N. change 1 with (INR 1). apply le_INR. lia. }
  assert (HN32 : N <= bpow 32) by (apply INR_le_bpow; [lia|exact Hlen]).
  assert (HY : 0 < Y) by apply bpow_pos.
  assert (Hδ : 0 < rel_err) by apply bpow_pos.
  assert (Hη : 0 < abs_err) by apply bpow_pos.
  assert (HδN : rel_err * N <= / 8).
  { apply Rle_trans with (rel_err * bpow 32).
    - apply Rmult_le_compat_l; lra.
    - unfold rel_err. rewrite <- bpow_add, <- bpow_m3. apply bpow_le. lia. }
  assert (HηY : abs_err <= rel_err * Y).
  { unfold abs_err, rel_err, Y. rewrite <- bpow_add. apply bpow_le. lia. }
  assert (HP : 0 < N * Y) by (apply Rmult_lt_0_compat; lra).
  assert (HYP : Y <= N * Y) by nra.
  set (eps := 4 * (rel_err * (N * Y))) in *.
  assert (HδP : 0 < rel_err * (N * Y)) by (apply Rmult_lt_0_compat; lra).
  assert (Hepsle : eps <= / 2 * Y).
  { unfold eps.
    replace (4 * (rel_err * (N * Y))) with (4 * (rel_err * N) * Y) by ring.
    apply Rmult_le_compat_r; lra. }
  assert (Heps0 : 0 <= eps) by (unfold eps; lra).
  destruct (@of_nat_value (List.length ys)) as (m & e & Hcount & Hval);
    [exact Hlen0|lia|].
  fold N in Hval.
  set (Sm := Rsum (map F2R ys)) in *.
  assert (HS : Rabs Sm <= N * Y).
  { unfold Sm, N.
    replace (List.length ys) with (List.length (map F2R ys))
      by apply length_map.
    apply Rsum_abs_le. intros x Hx. apply in_map_iff in Hx.
    destruct Hx as (y & <- & Hy). apply Hys, Hy. }
  assert (Hμ : real_mean ys = Sm / N) by reflexivity.
  set (x := F2R (fsum ys) / N).
  assert (Hxμ : Rabs (x - Sm / N) <= eps).
  { replace (x - Sm / N) with ((F2R (fsum ys) - Sm) * / N)
      by (unfold x; field; lra).
    rewrite Rabs_mult, (Rabs_pos_eq (/ N))
      by (left; apply Rinv_0_lt_compat; lra).
    apply Rmult_le_reg_r with N; [lra|].
    rewrite Rmult_assoc, Rinv_l by lra. lra. }
  assert (HμY : Rabs (Sm / N) <= Y).
  { unfold Rdiv. rewrite Rabs_mult, (Rabs_pos_eq (/ N))
      by (left; apply Rinv_0_lt_compat; lra).
    apply Rmult_le_reg_r with N; [lra|].
    rewrite Rmult_assoc, Rinv_l by lra. lra. }
  assert (HxY : Rabs x <= Y + eps).
  { replace x with ((x - Sm / N) + Sm / N) by lra.
    apply Rle_trans with (1 := Rabs_triang _ _). lra. }
  rewrite Hcount. rewrite Hcount in Hval.
  destruct (@div_error (fsum ys) false m e E (V - 1) (V + 1)) as [Hd1 Hd2];
    try lia.
  - exact Hs1.
  - rewrite Hval. fold x. rewrite bpow_succ. fold Y. lra.
  - rewrite Hval in Hd2. fold x in Hd2.
    assert (Hdx : Rabs (F2R (F64.div (fsum ys) (S754_finite false m e)) - x)
                  <= 3 * (rel_err * Y)).
    { apply Rle_trans with (1 := Hd2).
      assert (rel_err * Rabs x <= rel_err * (2 * Y))
        by (apply Rmult_le_compat_l; lra).
      lra. }
    assert (HδY : rel_err * Y <= / 8 * Y).
    { apply Rmult_le_compat_r; [lra|]. nra. }
    assert (HδYP : rel_err * Y <= rel_err * (N * Y))
      by (apply Rmult_le_compat_l; lra).
    pose proof (eq_refl : eps = 4 * (rel_err * (N * Y))) as Heq.
    split; [exact Hd1|]. split.
    + rewrite Hμ.
      replace (F2R (F64.div (fsum ys) (S754_finite false m e)) - Sm / N)
        with ((F2R (F64.div (fsum ys) (S754_finite false m e)) - x)
              + (x - Sm / N)) by lra.
      apply Rle_trans with (1 := Rabs_triang _ _).
      replace (V - 48)%Z with (3 + (-51 + V))%Z by lia.
      rewrite !bpow_add, bpow_3. fold rel_err Y. nra.
    + replace (F2R (F64.div (fsum ys) (S754_finite false m e)))
        with ((F2R (F64.div (fsum ys) (S754_finite false m e)) - x) + x)
        by lra.
      apply Rle_trans with (1 := Rabs_triang _ _).
      rewrite bpow_succ. fold Y. lra.
Qed.

Lemma var_error (V : Z) (ys : list float) :
  (forall y, In y ys -> exp_le (V - 1) y /\ Rabs (F2R y) <= bpow V) ->
  (2 <= List.length ys)%nat ->
  (Z.of_nat (List.length ys) <= 2 ^ 32)%Z ->
  (-400 <= V <= 400)%Z ->
  exp_le (2 * V - 2)
    (F64.div
       (fsum (map (fun y =>
                     square (F64.sub y (F64.div (fsum ys)
                                          (F64.of_nat (List.length ys)))))
                  ys))
       (F64.of_nat (List.length ys - 1)))
  /\ Rabs (F2R (F64.div
                  (fsum (map (fun y =>
                                square (F64.sub y
                                          (F64.div (fsum ys)
                                             (F64.of_nat (List.length ys)))))
                             ys))
                  (F64.of_nat (List.length ys - 1)))
           - real_variance ys)
     <= INR (List.length ys) * bpow (2 * V - 42)
  /\ Rabs (F2R (F64.div
                  (fsum (map (fun y =>
                                square (F64.sub y
                                          (F64.div (fsum ys)
                                             (F64.of_nat (List.length ys)))))
                             ys))
                  (F64.of_nat (List.length ys - 1))))
     <= bpow (2 * V + 7).
Proof.
  intros Hys Hlen2 Hlen HV.
  assert (Hne : ys <> []) by (destruct ys; simpl in *; [lia|congruence]).
  destruct (@mean_error (V - 1) V ys) as (Hm1 & Hm2 & Hm3);
    try assumption; try lia.
  set (m := F64.div (fsum ys) (F64.of_nat (List.length ys))) in *.
  set (N := INR (List.length ys)) in *.
  set (Y := bpow V).
  set (Ysq := bpow (2 * V)).
  set (mu := real_mean ys) in *.
  assert (HYsq : Ysq = Y * Y).
  { unfold Ysq, Y. rewrite <- bpow_add. f_equal. lia. }
  assert (HN2 : 2 <= N).
  { unfold N. change 2 with (INR 2). apply le_INR. exact Hlen2. }
  assert (HN32 : N <= bpow 32) by (apply INR_le_bpow; [lia|exact Hlen]).
  assert (HY : 0 < Y) by apply bpow_pos.
  assert (HYsq0 : 0 < Ysq) by apply bpow_pos.
  assert (Hδ : 0 < rel_err) by apply bpow_pos.
  assert (Hη : 0 < abs_err) by apply bpow_pos.
  assert (HδN : rel_err * N <= / 8).
  { apply Rle_trans with (rel_err * bpow 32).
    - apply Rmult_le_compat_l; lra.
    - unfold rel_err. rewrite <- bpow_add, <- bpow_m3. apply bpow_le. lia. }
  assert (Hδ8 : rel_err <= / 16) by nra.
  assert (HηY : abs_err <= rel_err * Y).
  { unfold abs_err, rel_err, Y. rewrite <- bpow_add. apply bpow_le. lia. }
  assert (HηZ : abs_err <= rel_err * Ysq).
  { unfold abs_err, rel_err, Ysq. rewrite <- bpow_add. apply bpow_le. lia. }
  set (T := rel_err * (N * Ysq)).
  assert (HδZ : 0 < rel_err * Ysq) by (apply Rmult_lt_0_compat; lra).
  assert (HδY : 0 < rel_err * Y) by (apply Rmult_lt_0_compat; lra).
  assert (HT : 2 * (rel_err * Ysq) <= T).
  { unfold T. replace (rel_err * (N * Ysq)) with (N * (rel_err * Ysq)) by ring.
    apply Rmult_le_compat_r; lra. }
  assert (Hτ : N * bpow (V - 48) = 8 * (rel_err * (N * Y))).
  { replace (V - 48)%Z with (3 + (-51 + V))%Z by lia.
    rewrite !bpow_add, bpow_3. fold rel_err Y. ring. }
  rewrite Hτ in Hm2.
  assert (Hm3' : Rabs (F2R m) <= 2 * Y).
  { rewrite bpow_succ in Hm3. exact Hm3. }
  assert (Hmu : Rabs mu <= Y).
  { apply real_mean_abs_le; [|exact Hne]. intros y Hy. apply Hys, Hy. }
  (* each squared deviation *)
  assert (Hq : forall y, In y ys ->
             exp_le (2 * V - 2) (square (F64.sub y m))
             /\ Rabs (F2R (square (F64.sub y m))) <= bpow (2 * V + 5)
             /\ Rabs (F2R (square (F64.sub y m))
                      - (F2R y - mu) * (F2R y - mu)) <= 89 * T).
  { intros y Hy. destruct (Hys y Hy) as [Hy1 Hy2]. fold Y in Hy2.
    assert (HyM : Rabs (F2R y - F2R m) <= 3 * Y).
    { unfold Rminus. apply Rle_trans with (1 := Rabs_triang _ _).
      rewrite Rabs_Ropp. lra. }
    destruct (@sub_error y m (V - 1) (V + 2)) as [Hd1 Hd2];
      try assumption; try lia.
    { replace (V + 2)%Z with (1 + (1 + V))%Z by lia.
      rewrite !bpow_add, bpow_1. fold Y. lra. }
    set (d := F64.sub y m) in *.
    assert (Hd3 : Rabs (F2R d - (F2R y - F2R m)) <= 4 * (rel_err * Y)).
    { apply Rle_trans with (1 := Hd2).
      assert (rel_err * Rabs (F2R y - F2R m) <= rel_err * (3 * Y))
        by (apply Rmult_le_compat_l; lra).
      lra. }
    set (a := F2R y - mu).
    assert (Ha : Rabs a <= 2 * Y).
    { unfold a, Rminus. apply Rle_trans with (1 := Rabs_triang _ _).
      rewrite Rabs_Ropp. lra. }
    assert (Hda : Rabs (F2R d - a)
                  <= 4 * (rel_err * Y) + 8 * (rel_err * (N * Y))).
    { apply Rle_trans with (1 := Rabs_between _ (F2R y - F2R m) _).
      replace (F2R y - F2R m - a) with (- (F2R m - mu)) by (unfold a; lra).
      rewrite Rabs_Ropp. lra. }
    assert (HδY8 : rel_err * Y <= / 16 * Y)
      by (apply Rmult_le_compat_r; lra).
    assert (Hd4 : Rabs (F2R d) <= 4 * Y).
    { apply Rle_trans with (1 := Rabs_le_add _ (F2R y - F2R m)). lra. }
    assert (Hdd : Rabs (F2R d * F2R d) <= 16 * Ysq).
    { rewrite Rabs_mult, HYsq.
      replace (16 * (Y * Y)) with ((4 * Y) * (4 * Y)) by ring.
      apply Rmult_le_compat; try apply Rabs_pos; assumption. }
    destruct (@mul_error d d (V - 1) (2 * V - 2) (2 * V + 4)) as [Hq1 Hq2];
      try assumption; try lia.
    { replace (2 * V + 4)%Z with (1 + (3 + 2 * V))%Z by lia.
      rewrite !bpow_add, bpow_1, bpow_3. fold Ysq. lra. }
    fold (square d) in Hq1, Hq2.
    assert (Hq3 : Rabs (F2R (square d) - F2R d * F2R d)
                  <= 17 * (rel_err * Ysq)).
    { apply Rle_trans with (1 := Hq2).
      assert (rel_err * Rabs (F2R d * F2R d) <= rel_err * (16 * Ysq))
        by (apply Rmult_le_compat_l; lra).
      lra. }
    assert (HδZ8 : rel_err * Ysq <= / 16 * Ysq)
      by (apply Rmult_le_compat_r; lra).
    split; [exact Hq1|]. split.
    - apply Rle_trans with (1 := Rabs_le_add _ (F2R d * F2R d)).
      replace (2 * V + 5)%Z with (1 + (1 + (3 + 2 * V)))%Z by lia.
      rewrite !bpow_add, bpow_1, bpow_3. fold Ysq. lra.
    - apply Rle_trans with (1 := Rabs_between _ (F2R d * F2R d) _).
      assert (Hsq : Rabs (F2R d * F2R d - a * a)
                    <= (4 * (rel_err * Y) + 8 * (rel_err * (N * Y))) * (6 * Y)).
      { apply Rle_trans with (1 := Rabs_sq_diff _ _).
        apply Rmult_le_compat; try apply Rabs_pos; try assumption.
        - pose proof (Rabs_pos (F2R d)). pose proof (Rabs_pos a). lra.
        - lra. }
      replace ((4 * (rel_err * Y) + 8 * (rel_err * (N * Y))) * (6 * Y))
        with (24 * (rel_err * Ysq) + 48 * T) in Hsq
        by (unfold T; rewrite HYsq; ring).
      lra. }
  set (qs := map (fun y => square (F64.sub y m)) ys).
  assert (Hqs_len : List.length qs = List.length ys) by apply length_map.
  assert (Hqs : forall q, In q qs ->
                  exp_le (2 * V - 2) q /\ Rabs (F2R q) <= bpow (2 * V + 5)).
  { intros q Hin. apply in_map_iff in Hin. destruct Hin as (y & <- & Hy).
    destruct (Hq y Hy) as (H1 & H2 & _). split; assumption. }
  assert (Hfs0 : exp_le (2 * V - 2) (fsum qs)
                 /\ Rabs (F2R (fsum qs) - Rsum (map F2R qs))
                    <= INR (List.length qs)
                       * (4 * (rel_err * (INR (List.length qs)
                                        * bpow (2 * V + 5))))).
  { apply fsum_error_bpow; try lia.
    - exact Hqs.
    - unfold qs. destruct ys; simpl in *; [lia|discriminate]. }
  destruct Hfs0 as [Hs1 Hs2].
  rewrite Hqs_len in Hs2. fold N in Hs2.
  assert (Hb5 : bpow (2 * V + 5) = 32 * Ysq).
  { replace (2 * V + 5)%Z with (1 + (1 + (3 + 2 * V)))%Z by lia.
    rewrite !bpow_add, bpow_1, bpow_3. fold Ysq. lra. }
  rewrite Hb5 in Hs2.
  replace (4 * (rel_err * (N * (32 * Ysq)))) with (128 * T) in Hs2
    by (unfold T; ring).
  set (SS := Rsum (map (fun y => (F2R y - mu) * (F2R y - mu)) ys)).
  assert (Hss : Rabs (Rsum (map F2R qs) - SS) <= N * (89 * T)).
  { unfold qs, SS. rewrite map_map. unfold N.
    apply Rsum_map_diff. intros y Hy. apply (Hq y Hy). }
  assert (Hsum : Rabs (F2R (fsum qs) - SS) <= N * (217 * T)).
  { apply Rle_trans with (1 := Rabs_between _ (Rsum (map F2R qs)) _). lra. }
  assert (HSq : Rabs (Rsum (map F2R qs)) <= N * (32 * Ysq)).
  { rewrite <- Hb5. unfold N. rewrite <- Hqs_len.
    replace (List.length qs) with (List.length (map F2R qs))
      by apply length_map.
    apply Rsum_abs_le. intros x Hx. apply in_map_iff in Hx.
    destruct Hx as (q & <- & Hin). apply Hqs, Hin. }
  assert (HT0 : 0 < T).
  { unfold T. apply Rmult_lt_0_compat; [lra|].
    apply Rmult_lt_0_compat; lra. }
  assert (HT16 : 128 * T <= 16 * Ysq).
  { unfold T.
    replace (128 * (rel_err * (N * Ysq))) with (128 * (rel_err * N) * Ysq)
      by ring.
    apply Rmult_le_compat_r; lra. }
  assert (Hfs : Rabs (F2R (fsum qs)) <= N * (48 * Ysq)).
  { apply Rle_trans with (1 := Rabs_le_add _ (Rsum (map F2R qs))).
    assert (N * (128 * T) <= N * (16 * Ysq))
      by (apply Rmult_le_compat_l; lra).
    lra. }
  (* the division by n - 1 *)
  destruct (@of_nat_value (List.length ys - 1)) as (m1 & e1 & Hcount & Hval);
    [lia|lia|].
  assert (Hval' : F2R (F64.of_nat (List.length ys - 1)) = N - 1).
  { rewrite Hval, minus_INR by lia. reflexivity. }
  assert (Hvar : real_variance ys = SS / (N - 1)).
  { unfold real_variance. rewrite minus_INR by lia. reflexivity. }
  rewrite Hcount. rewrite Hcount in Hval'.
  set (x := F2R (fsum qs) / (N - 1)).
  assert (HN1 : 0 < N - 1) by lra.
  assert (Hinv : N * / (N - 1) <= 2).
  { apply Rmult_le_reg_r with (N - 1); [lra|].
    rewrite Rmult_assoc, Rinv_l by lra. lra. }
  assert (Hinv0 : 0 < / (N - 1)) by (apply Rinv_0_lt_compat; lra).
  assert (Hxs : Rabs (x - SS / (N - 1)) <= 434 * T).
  { replace (x - SS / (N - 1)) with ((F2R (fsum qs) - SS) * / (N - 1))
      by (unfold x; field; lra).
    rewrite Rabs_mult, (Rabs_pos_eq (/ (N - 1))) by lra.
    apply Rle_trans with (N * (217 * T) * / (N - 1)).
    - apply Rmult_le_compat_r; lra.
    - replace (N * (217 * T) * / (N - 1)) with (N * / (N - 1) * (217 * T))
        by ring.
      replace (434 * T) with (2 * (217 * T)) by ring.
      apply Rmult_le_compat_r; lra. }
  assert (Hxb : Rabs x <= 96 * Ysq).
  { unfold x, Rdiv. rewrite Rabs_mult, (Rabs_pos_eq (/ (N - 1))) by lra.
    apply Rle_trans with (N * (48 * Ysq) * / (N - 1)).
    - apply Rmult_le_compat_r; lra.
    - replace (N * (48 * Ysq) * / (N - 1)) with (N * / (N - 1) * (48 * Ysq))
        by ring.
      replace (96 * Ysq) with (2 * (48 * Ysq)) by ring.
      apply Rmult_le_compat_r; lra. }
  destruct (@div_error (fsum qs) false m1 e1 (2 * V - 2) (2 * V - 2)
              (2 * V + 7)) as [Hd1 Hd2]; try lia.
  - exact Hs1.
  - rewrite Hval'. fold x.
    replace (2 * V + 7)%Z with (1 + (1 + (1 + (1 + (3 + 2 * V)))))%Z by lia.
    rewrite !bpow_add, bpow_1, bpow_3. fold Ysq. lra.
  - rewrite Hval' in Hd2. fold x in Hd2. fold qs.
    assert (Hdx : Rabs (F2R (F64.div (fsum qs) (S754_finite false m1 e1)) - x)
                  <= 97 * (rel_err * Ysq)).
    { apply Rle_trans with (1 := Hd2).
      assert (rel_err * Rabs x <= rel_err * (96 * Ysq))
        by (apply Rmult_le_compat_l; lra).
      lra. }
    split; [exact Hd1|]. split.
    + rewrite Hvar.
      apply Rle_trans with (1 := Rabs_between _ x _).
      replace (2 * V - 42)%Z with (3 + (3 + (3 + (-51 + 2 * V))))%Z by lia.
      rewrite !bpow_add, bpow_3. fold rel_err Ysq.
      replace (N * (8 * (8 * (8 * (rel_err * Ysq))))) with (512 * T)
        by (unfold T; ring).
      lra.
    + apply Rle_trans with (1 := Rabs_le_add _ x).
      replace (2 * V + 7)%Z with (1 + (1 + (1 + (1 + (3 + 2 * V)))))%Z by lia.
      rewrite !bpow_add, bpow_1, bpow_3. fold Ysq.
      assert (rel_err * Ysq <= / 16 * Ysq) by (apply Rmult_le_compat_r; lra).
      lra.
Qed.

(** ** The group aggregations *)

Lemma notna_exp_le (E V : Z) (xs : list float) :
  (forall x, In x xs ->
     F64.isnan x = true \/ (exp_le E x /\ Rabs (F2R x) <= bpow V)) ->
  forall y, In y (notna xs) -> exp_le E y /\ Rabs (F2R y) <= bpow V.
Proof.
  intros H y Hy. apply notna_In in Hy. destruct Hy as [Hin Hnan].
  destruct (H y Hin) as [Hn|Hb]; [congruence|exact Hb].
Qed.

Lemma groupby_mean_error (E V : Z) (xs : list float) :
  (forall x, In x xs ->
     F64.isnan x = true \/ (exp_le E x /\ Rabs (F2R x) <= bpow V)) ->
  notna xs <> [] ->
  (Z.of_nat (List.length xs) <= 2 ^ 32)%Z ->
  (V - 19 <= E)%Z -> (-1074 <= E <= 971)%Z -> (-1000 <= V <= 900)%Z ->
  exp_le (V - 1) (groupby_mean xs)
  /\ Rabs (F2R (groupby_mean xs) - real_mean (notna xs))
     <= INR (List.length (notna xs)) * bpow (V - 48)
  /\ Rabs (F2R (groupby_mean xs)) <= bpow (V + 1).
Proof.
  intros Hxs Hne Hlen HVE HE HV.
  pose proof (notna_length xs) as Hle.
  replace (groupby_mean xs)
    with (F64.div (fsum (notna xs)) (F64.of_nat (List.length (notna xs))))
    by (unfold groupby_mean; destruct (notna xs); [congruence|reflexivity]).
  apply mean_error with (E := E); try assumption; try lia.
  now apply notna_exp_le.
Qed.

Lemma groupby_var_valid (xs : list float) :
  (2 <= List.length (notna xs))%nat ->
  groupby_var 1 xs
  = F64.div
      (fsum (map (fun y =>
                    square (F64.sub y
                              (F64.div (fsum (notna xs))
                                 (F64.of_nat (List.length (notna xs))))))
                 (notna xs)))
      (F64.of_nat (List.length (notna xs) - 1)).
Proof.
  intros H. unfold groupby_var.
  replace (List.length (notna xs) <=? 1)%nat with false
    by (symmetry; apply Nat.leb_gt; lia).
  reflexivity.
Qed.

Lemma groupby_var_nonneg (xs : list float) :
  (forall x, In x xs -> F64.isnan x = true \/ F64.is_finite x = true) ->
  (Z.of_nat (List.length xs) < 2 ^ 53)%Z ->
  (2 <= List.length (notna xs))%nat ->
  is_nonneg (groupby_var 1 xs) = true.
Proof.
  intros Hall Hlen Hge. rewrite groupby_var_valid by exact Hge.
  pose proof (notna_length xs) as Hle.
  assert (Hfin : forall y, In y (notna xs) -> F64.is_finite y = true).
  { intros y Hy. apply notna_In in Hy. destruct Hy as [Hin Hnan].
    destruct (Hall y Hin) as [H|H]; [congruence | exact H]. }
  set (ys := notna xs) in *.
  destruct (@of_nat_positive_finite (List.length ys)) as (m & e & Hcount);
    [lia | lia |].
  destruct (@of_nat_positive_finite (List.length ys - 1))
    as (m1 & e1 & Hcount1);
    [lia | lia |].
  rewrite Hcount, Hcount1.
  apply div_nonneg_by_positive.
  apply fold_add_nonneg; [reflexivity|].
  intros sq Hsq. apply in_map_iff in Hsq. destruct Hsq as (y & <- & Hy).
  apply square_nonneg, sub_finite_number_not_nan; [now apply Hfin|].
  apply div_by_positive_not_nan, fold_add_not_nan; [reflexivity | exact Hfin].
Qed.

Lemma groupby_std_error (V : Z) (xs : list float) :
  (forall x, In x xs ->
     F64.isnan x = true \/ (exp_le (V - 1) x /\ Rabs (F2R x) <= bpow V)) ->
  (2 <= List.length (notna xs))%nat ->
  (Z.of_nat (List.length xs) <= 2 ^ 32)%Z ->
  (-400 <= V <= 400)%Z ->
  F64.is_finite (groupby_std xs) = true
  /\ Rabs (F2R (groupby_std xs) * F2R (groupby_std xs)
           - real_variance (notna xs))
     <= INR (List.length (notna xs)) * bpow (2 * V - 41).
Proof.
  intros Hxs Hge Hlen HV.
  pose proof (notna_length xs) as Hle.
  assert (Hnn : is_nonneg (groupby_var 1 xs) = true).
  { apply groupby_var_nonneg; [|lia|exact Hge].
    intros x Hx. destruct (Hxs x Hx) as [H|[H _]]; [now left|right].
    now apply exp_le_is_finite with (E := (V - 1)%Z). }
  unfold groupby_std.
  rewrite groupby_var_valid in * by exact Hge.
  destruct (@var_error V (notna xs)) as (Hv1 & Hv2 & Hv3); try lia.
  { now apply notna_exp_le. }
  set (v := F64.div _ _) in *.
  set (N := INR (List.length (notna xs))) in *.
  set (Y := bpow V).
  set (Ysq := bpow (2 * V)).
  assert (HYsq : Ysq = Y * Y).
  { unfold Ysq, Y. rewrite <- bpow_add. f_equal. lia. }
  assert (HN2 : 2 <= N).
  { unfold N. change 2 with (INR 2). apply le_INR. exact Hge. }
  assert (HY : 0 < Y) by apply bpow_pos.
  assert (HYsq0 : 0 < Ysq) by apply bpow_pos.
  assert (Hδ : 0 < rel_err) by apply bpow_pos.
  assert (Hη : 0 < abs_err) by apply bpow_pos.
  assert (Hδ16 : rel_err <= / 16).
  { unfold rel_err. apply Rle_trans with (bpow (-4)); [apply bpow_le; lia|].
    replace (-4)%Z with (-1 + -3)%Z by lia.
    rewrite bpow_add, bpow_m1, bpow_m3. lra. }
  assert (HηY : abs_err <= rel_err * Y).
  { unfold abs_err, rel_err, Y. rewrite <- bpow_add. apply bpow_le. lia. }
  set (T := rel_err * (N * Ysq)).
  assert (HδZ : 0 < rel_err * Ysq) by (apply Rmult_lt_0_compat; lra).
  assert (HδY : 0 < rel_err * Y) by (apply Rmult_lt_0_compat; lra).
  assert (HT : 2 * (rel_err * Ysq) <= T).
  { unfold T. replace (rel_err * (N * Ysq)) with (N * (rel_err * Ysq)) by ring.
    apply Rmult_le_compat_r; lra. }
  assert (Htol42 : N * bpow (2 * V - 42) = 512 * T).
  { replace (2 * V - 42)%Z with (3 + (3 + (3 + (-51 + 2 * V))))%Z by lia.
    rewrite !bpow_add, bpow_3. fold rel_err Ysq. unfold T. ring. }
  assert (Htol41 : N * bpow (2 * V - 41) = 1024 * T).
  { replace (2 * V - 41)%Z with (1 + (3 + (3 + (3 + (-51 + 2 * V)))))%Z
      by lia.
    rewrite !bpow_add, bpow_1, bpow_3. fold rel_err Ysq. unfold T. ring. }
  rewrite Htol42 in Hv2. rewrite Htol41.
  pose proof (F2R_nonneg _ Hnn) as HX0.
  destruct v as [s|s| |s m e] eqn:Ev; cbn [exp_le] in Hv1; try contradiction.
  - (* the variance is zero *)
    cbn [F64.sqrt SFsqrt F64.is_finite F2R] in *. split; [reflexivity|].
    rewrite Rmult_0_l. lra.
  - destruct s; [discriminate|].
    set (X := F2R (S754_finite false m e)) in *.
    assert (HX128 : X <= 128 * Ysq).
    { replace (2 * V + 7)%Z with (1 + (1 + (1 + (1 + (3 + 2 * V)))))%Z
        in Hv3 by lia.
      rewrite !bpow_add, bpow_1, bpow_3 in Hv3. fold Ysq in Hv3.
      apply Rabs_le_bounds in Hv3. lra. }
    set (r := sqrt X).
    assert (Hr0 : 0 <= r) by apply sqrt_pos.
    assert (Hrr : r * r = X) by (apply sqrt_sqrt; exact HX0).
    assert (Hr16 : r <= 16 * Y).
    { destruct (Rle_lt_dec r (16 * Y)) as [H|H]; [exact H|exfalso].
      assert (16 * Y * (16 * Y) < r * r) by nra.
      rewrite Hrr in H0. rewrite HYsq in HX128. nra. }
    destruct (@sqrt_error m e V (V + 4)) as [Hs1 Hs2]; try lia.
    { fold X r. rewrite bpow_add, bpow_4. fold Y. lra. }
    fold X r in Hs2.
    set (sd := F2R (F64.sqrt (S754_finite false m e))) in *.
    split; [now apply exp_le_is_finite with (E := V)|].
    assert (Hsr : Rabs (sd - r) <= 17 * (rel_err * Y)).
    { apply Rle_trans with (1 := Hs2).
      assert (rel_err * r <= rel_err * (16 * Y))
        by (apply Rmult_le_compat_l; lra).
      lra. }
    assert (HδY16 : rel_err * Y <= / 16 * Y)
      by (apply Rmult_le_compat_r; lra).
    assert (Hsd : Rabs sd <= 18 * Y).
    { apply Rle_trans with (1 := Rabs_le_add _ r).
      rewrite (Rabs_pos_eq r) by exact Hr0. lra. }
    assert (Hsq : Rabs (sd * sd - X) <= 17 * (rel_err * Y) * (34 * Y)).
    { rewrite <- Hrr.
      apply Rle_trans with (1 := Rabs_sq_diff _ _).
      apply Rmult_le_compat; try apply Rabs_pos; try assumption.
      - pose proof (Rabs_pos sd). pose proof (Rabs_pos r). lra.
      - rewrite (Rabs_pos_eq r) by exact Hr0. lra. }
    replace (17 * (rel_err * Y) * (34 * Y)) with (578 * (rel_err * Ysq)) in Hsq
      by (rewrite HYsq; ring).
    apply Rle_trans with (1 := Rabs_between _ X _). lra.
Qed.

Lemma groupby_std_nonneg (xs : list float) :
  (forall x, In x xs -> F64.isnan x = true \/ F64.is_finite x = true) ->
  (Z.of_nat (List.length xs) < 2 ^ 53)%Z ->
  (2 <= List.length (notna xs))%nat ->
  0 <= F2R (groupby_std xs).
Proof.
  intros Hall Hlen Hge. unfold groupby_std.
  apply F2R_nonneg, sqrt_is_nonneg. now apply groupby_var_nonneg.
Qed.

End RoundingError.

(* ------------------------------------------------------------------ *)
(** ** Stage 1: mean and std of the valid replicates *)

Lemma replicates_below (V : Z) (rs : list Reading) (k : string * string) :
  (forall rd, In rd rs ->
     F64.isnan (cq rd) = true \/ magnitude_below V (cq rd) = true) ->
  forall x, In x (replicates k rs) ->
    F64.isnan x = true
    \/ (exp_le (V - 1) x /\ (Rabs (F2R x) <= bpow V)%R).
Proof.
  intros H x Hx. apply replicates_In in Hx. destruct Hx as (rd & Hin & <-).
  destruct (H rd Hin) as [Hn|Hb]; [now left|right].
  now apply magnitude_below_spec.
Qed.



(* ------------------------------------------------------------------ *)
(** ** Stage 2: mean_ic as a mean of means *)

Lemma avg_rows_length (rs : list Reading) :
  List.length (map (aggregate_group rs)
                 (drop_duplicates pair_eqb (map key_of rs)))
  <= List.length rs.
Proof.
  rewrite length_map. unfold drop_duplicates.
  rewrite <- (length_map key_of rs). apply drop_duplicates_from_length.
Qed.

Lemma control_rows_length (ics : list string) (s : string)
    (avg_cqs : list AvgRow) :
  List.length (control_rows ics s avg_cqs) <= List.length avg_cqs.
Proof.
  unfold control_rows.
  apply Nat.le_trans with (1 := filter_length_le _ _).
  apply filter_length_le.
Qed.



